(** * Looper: a shallow embedding of libutils/Looper.cpp

    The embedding follows the epoll configuration of the source
    ([HAVE_EPOLL]).  The operating system (clock, epoll, the wake event
    descriptor) and the user code reached through [LooperCallback] and
    [MessageHandler] are interfaces of the model; every operation of the
    Looper is a computation in a state monad over the Looper object, the
    state of the outside world and a trace of the observable actions. *)

From stdpp Require Import gmap list sorting.

Local Open Scope Z_scope.

(** ** Constants *)

(** [constexpr uint64_t WAKE_EVENT_FD_SEQ = 1;] *)
Definition WAKE_EVENT_FD_SEQ : Z := 1.

(** Modelled from the spec: the poll result codes of Looper.h, which is not
    part of the sources at hand (spec section 6: WAKE = -1, CALLBACK = -2,
    TIMEOUT = -3, ERROR = -4). *)
Definition POLL_WAKE : Z := -1.
Definition POLL_CALLBACK : Z := -2.
Definition POLL_TIMEOUT : Z := -3.
Definition POLL_ERROR : Z := -4.

(** Modelled from the spec: the event bits of Looper.h (spec section 6:
    INPUT = 1<<0, OUTPUT = 1<<1, ERROR = 1<<2, HANGUP = 1<<3). *)
Definition EVENT_INPUT : Z := 1.
Definition EVENT_OUTPUT : Z := 2.
Definition EVENT_ERROR : Z := 4.
Definition EVENT_HANGUP : Z := 8.

(** Linux values of the epoll event bits, of the epoll_ctl operations and of
    the errno codes the source tests. *)
Definition EPOLLIN : Z := 1.
Definition EPOLLOUT : Z := 4.
Definition EPOLLERR : Z := 8.
Definition EPOLLHUP : Z := 16.
Definition EPOLL_CTL_ADD : Z := 1.
Definition EPOLL_CTL_DEL : Z := 2.
Definition EPOLL_CTL_MOD : Z := 3.
Definition ENOENT : Z := 2.
Definition EINTR : Z := 4.
Definition EBADF : Z := 9.
Definition EAGAIN : Z := 11.

Definition LLONG_MAX : Z := 2 ^ 63 - 1.

(** [SequenceNumber] is a [uint64_t]: [x++] wraps modulo 2^64. *)
Definition UINT64_MOD : Z := 2 ^ 64.
Definition incr_u64 (x : Z) : Z := (x + 1) mod UINT64_MOD.

(** [nsecs_t] is an [int64_t]; additions are reduced to the two's complement
    range. *)
Definition add_i64 (a b : Z) : Z := (a + b + 2 ^ 63) mod 2 ^ 64 - 2 ^ 63.

(** ** Data *)

(** [struct Message { int what; }] *)
Record Message := mkMessage { what : Z }.

(** [struct Request { int fd; int ident; int events; sp<LooperCallback>
    callback; void* data; }].  A callback or handler object is identified by
    its address, a natural number; a null [sp] is [None]. *)
Module Request.
Record t := mk {
  fd : Z;
  ident : Z;
  events : Z;
  callback : option nat;
  data : Z
}.
End Request.

(** [struct Response { SequenceNumber seq; int events; Request request; }] *)
Module Response.
Record t := mk {
  seq : Z;
  events : Z;
  request : Request.t
}.
End Response.

(** [struct MessageEnvelope { nsecs_t uptime; sp<MessageHandler> handler;
    Message message; }] *)
Module MessageEnvelope.
Record t := mk {
  uptime : Z;
  handler : nat;
  message : Message
}.
End MessageEnvelope.

(** [struct epoll_event { uint32_t events; epoll_data_t data; }], with the
    [u64] member of the union. *)
Record epoll_event := mkEpollEvent { ee_events : Z; ee_u64 : Z }.

(** [createEpollEvent] *)
Definition createEpollEvent (events seq : Z) : epoll_event :=
  {| ee_events := events; ee_u64 := seq |}.

(** What [epoll_wait] hands back: a negative count with [errno], or the
    first [eventCount] entries of [eventItems]. *)
Inductive WaitResult :=
| WaitError (errno : Z)
| WaitEvents (eventItems : list epoll_event).

Definition eventCount (items : list epoll_event) : Z := Z.of_nat (length items).

(** [Request::getEpollEvents] *)
Definition getEpollEvents (r : Request.t) : Z :=
  let epollEvents := 0 in
  let epollEvents :=
    if Z.land (Request.events r) EVENT_INPUT =? 0 then epollEvents
    else Z.lor epollEvents EPOLLIN in
  let epollEvents :=
    if Z.land (Request.events r) EVENT_OUTPUT =? 0 then epollEvents
    else Z.lor epollEvents EPOLLOUT in
  epollEvents.

(** The members of [class Looper]. [mRequests] and [mSequenceNumberByFd] are
    the two [std::unordered_map]s; [mResponses] and [mMessageEnvelopes] are
    [Vector]s. *)
Record Looper := mkLooper {
  mAllowNonCallbacks : bool;
  mWakeEventFd : Z;
  mEpollFd : Z;
  mSendingMessage : bool;
  mPolling : bool;
  mEpollRebuildRequired : bool;
  mNextRequestSeq : Z;
  mResponses : list Response.t;
  mResponseIndex : nat;
  mNextMessageUptime : Z;
  mMessageEnvelopes : list MessageEnvelope.t;
  mRequests : gmap Z Request.t;
  mSequenceNumberByFd : gmap Z Z
}.

Definition set_mEpollFd (v : Z) (l : Looper) : Looper :=
  mkLooper (mAllowNonCallbacks l) (mWakeEventFd l) v (mSendingMessage l)
    (mPolling l) (mEpollRebuildRequired l) (mNextRequestSeq l) (mResponses l)
    (mResponseIndex l) (mNextMessageUptime l) (mMessageEnvelopes l)
    (mRequests l) (mSequenceNumberByFd l).

Definition set_mSendingMessage (v : bool) (l : Looper) : Looper :=
  mkLooper (mAllowNonCallbacks l) (mWakeEventFd l) (mEpollFd l) v
    (mPolling l) (mEpollRebuildRequired l) (mNextRequestSeq l) (mResponses l)
    (mResponseIndex l) (mNextMessageUptime l) (mMessageEnvelopes l)
    (mRequests l) (mSequenceNumberByFd l).

Definition set_mPolling (v : bool) (l : Looper) : Looper :=
  mkLooper (mAllowNonCallbacks l) (mWakeEventFd l) (mEpollFd l)
    (mSendingMessage l) v (mEpollRebuildRequired l) (mNextRequestSeq l)
    (mResponses l) (mResponseIndex l) (mNextMessageUptime l)
    (mMessageEnvelopes l) (mRequests l) (mSequenceNumberByFd l).

Definition set_mEpollRebuildRequired (v : bool) (l : Looper) : Looper :=
  mkLooper (mAllowNonCallbacks l) (mWakeEventFd l) (mEpollFd l)
    (mSendingMessage l) (mPolling l) v (mNextRequestSeq l) (mResponses l)
    (mResponseIndex l) (mNextMessageUptime l) (mMessageEnvelopes l)
    (mRequests l) (mSequenceNumberByFd l).

Definition set_mNextRequestSeq (v : Z) (l : Looper) : Looper :=
  mkLooper (mAllowNonCallbacks l) (mWakeEventFd l) (mEpollFd l)
    (mSendingMessage l) (mPolling l) (mEpollRebuildRequired l) v
    (mResponses l) (mResponseIndex l) (mNextMessageUptime l)
    (mMessageEnvelopes l) (mRequests l) (mSequenceNumberByFd l).

Definition set_mResponses (v : list Response.t) (l : Looper) : Looper :=
  mkLooper (mAllowNonCallbacks l) (mWakeEventFd l) (mEpollFd l)
    (mSendingMessage l) (mPolling l) (mEpollRebuildRequired l)
    (mNextRequestSeq l) v (mResponseIndex l) (mNextMessageUptime l)
    (mMessageEnvelopes l) (mRequests l) (mSequenceNumberByFd l).

Definition set_mResponseIndex (v : nat) (l : Looper) : Looper :=
  mkLooper (mAllowNonCallbacks l) (mWakeEventFd l) (mEpollFd l)
    (mSendingMessage l) (mPolling l) (mEpollRebuildRequired l)
    (mNextRequestSeq l) (mResponses l) v (mNextMessageUptime l)
    (mMessageEnvelopes l) (mRequests l) (mSequenceNumberByFd l).

Definition set_mNextMessageUptime (v : Z) (l : Looper) : Looper :=
  mkLooper (mAllowNonCallbacks l) (mWakeEventFd l) (mEpollFd l)
    (mSendingMessage l) (mPolling l) (mEpollRebuildRequired l)
    (mNextRequestSeq l) (mResponses l) (mResponseIndex l) v
    (mMessageEnvelopes l) (mRequests l) (mSequenceNumberByFd l).

Definition set_mMessageEnvelopes (v : list MessageEnvelope.t) (l : Looper)
  : Looper :=
  mkLooper (mAllowNonCallbacks l) (mWakeEventFd l) (mEpollFd l)
    (mSendingMessage l) (mPolling l) (mEpollRebuildRequired l)
    (mNextRequestSeq l) (mResponses l) (mResponseIndex l)
    (mNextMessageUptime l) v (mRequests l) (mSequenceNumberByFd l).

Definition set_mRequests (v : gmap Z Request.t) (l : Looper) : Looper :=
  mkLooper (mAllowNonCallbacks l) (mWakeEventFd l) (mEpollFd l)
    (mSendingMessage l) (mPolling l) (mEpollRebuildRequired l)
    (mNextRequestSeq l) (mResponses l) (mResponseIndex l)
    (mNextMessageUptime l) (mMessageEnvelopes l) v (mSequenceNumberByFd l).

Definition set_mSequenceNumberByFd (v : gmap Z Z) (l : Looper) : Looper :=
  mkLooper (mAllowNonCallbacks l) (mWakeEventFd l) (mEpollFd l)
    (mSendingMessage l) (mPolling l) (mEpollRebuildRequired l)
    (mNextRequestSeq l) (mResponses l) (mResponseIndex l)
    (mNextMessageUptime l) (mMessageEnvelopes l) (mRequests l) v.

(** [std::unordered_map::emplace]: nothing is stored when the key is already
    present. *)
Definition emplace {V : Type} (k : Z) (v : V) (m : gmap Z V) : gmap Z V :=
  match m !! k with
  | Some _ => m
  | None => <[k := v]> m
  end.

(** ** The public interface as seen by user code

    Callbacks and message handlers run without the Looper's mutex and may
    call back into the Looper.  What such code does is a tree of calls to
    the thread-safe public methods, each continuation receiving the value
    the call returned ([0] for a [void] method). *)
Inductive Call :=
| CAddFd (fd ident events : Z) (callback : option nat) (data : Z)
| CRemoveFd (fd : Z)
| CRepoll (fd : Z)
| CSendMessage (handler : nat) (message : Message)
| CSendMessageDelayed (uptimeDelay : Z) (handler : nat) (message : Message)
| CSendMessageAtTime (uptime : Z) (handler : nat) (message : Message)
| CRemoveMessages (handler : nat) (what : option Z)
| CWake.

Inductive Prog :=
| Done (ret : Z)
| Do (c : Call) (k : Z -> Prog).

(** The observable actions of a run, oldest first: calls of [wake] and
    [awoken], the kernel wait with the timeout it was given and what it
    returned, a rebuild of the epoll set, the invocations of handlers and
    callbacks, and the calls user code makes with the value each returned.
    [EvHandleEvent] carries, next to the arguments of [handleEvent], the
    sequence number of the response that is being delivered. *)
Inductive Event :=
| EvWake
| EvAwoken
| EvEpollWait (timeoutMillis : Z) (waited : WaitResult)
| EvRebuild
| EvHandleMessage (handler : nat) (message : Message)
| EvHandleEvent (seq : Z) (callback : nat) (fd events data : Z)
| EvCall (c : Call) (ret : Z).

(** ** The environment *)

(** The operating system.  A call takes the state of the world and returns
    its result, [errno] where the source reads it, and the next state. *)
Class Platform := {
  World : Type;
  (** [systemTime(SYSTEM_TIME_MONOTONIC)] *)
  systemTime : World -> Z * World;
  (** [eventfd(0, EFD_NONBLOCK | EFD_CLOEXEC)] *)
  eventfd : World -> Z * World;
  (** [epoll_create1(EPOLL_CLOEXEC)] *)
  epoll_create1 : World -> Z * World;
  (** [epoll_ctl(epfd, op, fd, event)]: result and [errno] *)
  epoll_ctl : Z -> Z -> Z -> option epoll_event -> World -> (Z * Z) * World;
  (** [epoll_wait(epfd, eventItems, EPOLL_MAX_EVENTS, timeoutMillis)] *)
  epoll_wait : Z -> Z -> World -> WaitResult * World;
  (** [TEMP_FAILURE_RETRY(write(fd, &inc, sizeof(uint64_t)))]: the number of
      bytes written and [errno] *)
  write_u64 : Z -> World -> (Z * Z) * World;
  (** [TEMP_FAILURE_RETRY(read(fd, &counter, sizeof(uint64_t)))] *)
  read_u64 : Z -> World -> World;
  (** closing a descriptor, as [unique_fd::reset] does *)
  close_fd : Z -> World -> World
}.

(** The helpers of Timers.cpp, which is not part of the sources at hand, are
    parameters of the model. *)
Class Timers := {
  toMillisecondTimeoutDelay : Z -> Z -> Z;
  milliseconds_to_nanoseconds : Z -> Z
}.

(** The user code behind [LooperCallback::handleEvent] and
    [MessageHandler::handleMessage]: its effect on the world and the calls
    it makes on the Looper.  The value of [Done] is the callback's return
    value. *)
Class UserCode {PF : Platform} := {
  handleEvent : nat -> Z -> Z -> Z -> World -> Prog * World;
  handleMessage : nat -> Message -> World -> Prog * World
}.

Section Model.

Context {PF : Platform} {UC : UserCode} {TM : Timers}.

(** ** State and monad *)

Record Sys := mkSys {
  looper : Looper;
  world : World;
  trace : list Event
}.

(** A computation ends normally, aborts the process ([LOG_ALWAYS_FATAL]), or
    runs out of the fuel that bounds the loops of the model. *)
Inductive Res (A : Type) :=
| Ok (a : A) (s : Sys)
| Fatal (s : Sys)
| OutOfFuel (s : Sys).

Arguments Ok {A} a s.
Arguments Fatal {A} s.
Arguments OutOfFuel {A} s.

(** The state in which a computation stopped. *)
Definition final {A : Type} (r : Res A) : Sys :=
  match r with
  | Ok _ s => s
  | Fatal s => s
  | OutOfFuel s => s
  end.

Definition M (A : Type) : Type := Sys -> Res A.

Definition ret {A : Type} (a : A) : M A := fun s => Ok a s.

Definition bind {A B : Type} (m : M A) (f : A -> M B) : M B :=
  fun s =>
    match m s with
    | Ok a s' => f a s'
    | Fatal s' => Fatal s'
    | OutOfFuel s' => OutOfFuel s'
    end.

Notation "'let!' x ':=' c1 'in' c2" := (bind c1 (fun x => c2))
  (at level 10, x pattern, c1 at level 100, c2 at level 200).
Notation "c1 ;;; c2" := (bind c1 (fun _ => c2))
  (at level 100, c2 at level 200, right associativity).

Definition getL : M Looper := fun s => Ok (looper s) s.

Definition modL (f : Looper -> Looper) : M unit :=
  fun s => Ok tt (mkSys (f (looper s)) (world s) (trace s)).

Definition sys {A : Type} (f : World -> A * World) : M A :=
  fun s => let (a, w) := f (world s) in Ok a (mkSys (looper s) w (trace s)).

Definition sys_ (f : World -> World) : M unit :=
  fun s => Ok tt (mkSys (looper s) (f (world s)) (trace s)).

Definition emit (e : Event) : M unit :=
  fun s => Ok tt (mkSys (looper s) (world s) (trace s ++ [e])).

Definition fatal {A : Type} : M A := fun s => Fatal s.

Definition outOfFuel {A : Type} : M A := fun s => OutOfFuel s.

(** ** Wake channel *)

(** [Looper::wake] *)
Definition wake : M unit :=
  emit EvWake ;;;
  let! l := getL in
  let! wr := sys (write_u64 (mWakeEventFd l)) in
  let nWrite := fst wr in
  let errno := snd wr in
  if nWrite =? 8 then ret tt
  else if errno =? EAGAIN then ret tt
  else fatal.

(** [Looper::awoken] *)
Definition awoken : M unit :=
  emit EvAwoken ;;;
  let! l := getL in
  sys_ (read_u64 (mWakeEventFd l)).

(** ** The epoll set *)

(** The [for] loop of [rebuildEpollLocked] over [mRequests]; a failing
    [EPOLL_CTL_ADD] is only logged. *)
Fixpoint rebuildRequests (rs : list (Z * Request.t)) : M unit :=
  match rs with
  | [] => ret tt
  | (seq, request) :: rs' =>
      let eventItem := createEpollEvent (getEpollEvents request) seq in
      let! l := getL in
      let! _ := sys (epoll_ctl (mEpollFd l) EPOLL_CTL_ADD
                       (Request.fd request) (Some eventItem)) in
      rebuildRequests rs'
  end.

(** [Looper::rebuildEpollLocked] *)
Definition rebuildEpollLocked : M unit :=
  emit EvRebuild ;;;
  let! l := getL in
  (if 0 <=? mEpollFd l
   then sys_ (close_fd (mEpollFd l)) ;;; modL (set_mEpollFd (-1))
   else ret tt) ;;;
  let! epfd := sys epoll_create1 in
  modL (set_mEpollFd epfd) ;;;
  if epfd <? 0 then fatal
  else
    let wakeEvent := createEpollEvent EPOLLIN WAKE_EVENT_FD_SEQ in
    let! l := getL in
    let! cr := sys (epoll_ctl (mEpollFd l) EPOLL_CTL_ADD (mWakeEventFd l)
                      (Some wakeEvent)) in
    if fst cr =? 0
    then let! l := getL in rebuildRequests (map_to_list (mRequests l))
    else fatal.

(** [Looper::scheduleEpollRebuildLocked] *)
Definition scheduleEpollRebuildLocked : M unit :=
  let! l := getL in
  if mEpollRebuildRequired l then ret tt
  else modL (set_mEpollRebuildRequired true) ;;; wake.

(** [Looper::Looper]: the members are initialised, the wake descriptor is
    created and the epoll set is built. *)
Definition newLooper (allowNonCallbacks : bool) (w : World) : Res unit :=
  let (wakeFd, w1) := eventfd w in
  let l := mkLooper allowNonCallbacks wakeFd (-1) false false false
             (WAKE_EVENT_FD_SEQ + 1) [] 0%nat LLONG_MAX [] ∅ ∅ in
  if wakeFd <? 0 then Fatal (mkSys l w1 [])
  else rebuildEpollLocked (mkSys l w1 []).

(** ** Registration of descriptors *)

(** [Looper::addFd(int fd, int ident, int events,
    const sp<LooperCallback>& callback, void* data)] *)
Definition addFd (fd ident events : Z) (callback : option nat) (data : Z)
  : M Z :=
  let! l := getL in
  let checked :=
    match callback with
    | None =>
        if negb (mAllowNonCallbacks l) then None
        else if ident <? 0 then None
        else Some ident
    | Some _ => Some POLL_CALLBACK
    end in
  match checked with
  | None => ret (-1)
  | Some ident =>
      (if mNextRequestSeq l =? WAKE_EVENT_FD_SEQ
       then modL (fun l => set_mNextRequestSeq (incr_u64 (mNextRequestSeq l)) l)
       else ret tt) ;;;
      let! l := getL in
      let seq := mNextRequestSeq l in
      modL (set_mNextRequestSeq (incr_u64 seq)) ;;;
      let request := Request.mk fd ident events callback data in
      let eventItem := createEpollEvent (getEpollEvents request) seq in
      match mSequenceNumberByFd l !! fd with
      | None =>
          let! cr := sys (epoll_ctl (mEpollFd l) EPOLL_CTL_ADD fd
                            (Some eventItem)) in
          if fst cr <? 0 then ret (-1)
          else
            modL (fun l => set_mRequests (emplace seq request (mRequests l)) l) ;;;
            modL (fun l => set_mSequenceNumberByFd
                             (emplace fd seq (mSequenceNumberByFd l)) l) ;;;
            ret 1
      | Some oldSeq =>
          let! cr := sys (epoll_ctl (mEpollFd l) EPOLL_CTL_MOD fd
                            (Some eventItem)) in
          let! proceed :=
            (if fst cr <? 0 then
               if snd cr =? ENOENT then
                 let! cr2 := sys (epoll_ctl (mEpollFd l) EPOLL_CTL_ADD fd
                                    (Some eventItem)) in
                 if fst cr2 <? 0 then ret false
                 else scheduleEpollRebuildLocked ;;; ret true
               else ret false
             else ret true) in
          if proceed : bool then
            modL (fun l => set_mRequests (delete oldSeq (mRequests l)) l) ;;;
            modL (fun l => set_mRequests (emplace seq request (mRequests l)) l) ;;;
            modL (fun l => set_mSequenceNumberByFd
                             (<[fd := seq]> (mSequenceNumberByFd l)) l) ;;;
            ret 1
          else ret (-1)
      end
  end.

(** [Looper::removeSequenceNumberLocked] *)
Definition removeSequenceNumberLocked (seq : Z) : M Z :=
  let! l := getL in
  match mRequests l !! seq with
  | None => ret 0
  | Some request =>
      let fd := Request.fd request in
      modL (fun l => set_mRequests (delete seq (mRequests l)) l) ;;;
      modL (fun l => set_mSequenceNumberByFd
                       (delete fd (mSequenceNumberByFd l)) l) ;;;
      let! cr := sys (epoll_ctl (mEpollFd l) EPOLL_CTL_DEL fd None) in
      if fst cr <? 0 then
        if (snd cr =? EBADF) || (snd cr =? ENOENT)
        then scheduleEpollRebuildLocked ;;; ret 1
        else scheduleEpollRebuildLocked ;;; ret (-1)
      else ret 1
  end.

(** [Looper::removeFd] *)
Definition removeFd (fd : Z) : M Z :=
  let! l := getL in
  match mSequenceNumberByFd l !! fd with
  | None => ret 0
  | Some seq => removeSequenceNumberLocked seq
  end.

(** [Looper::repoll]; the [LOG_ALWAYS_FATAL_IF] guards the agreement of the
    two tables. *)
Definition repoll (fd : Z) : M Z :=
  let! l := getL in
  match mSequenceNumberByFd l !! fd with
  | None => ret 0
  | Some seq =>
      match mRequests l !! seq with
      | None => ret 0
      | Some request =>
          if fd =? Request.fd request then
            let eventItem := createEpollEvent (getEpollEvents request) seq in
            let! cr := sys (epoll_ctl (mEpollFd l) EPOLL_CTL_MOD fd
                              (Some eventItem)) in
            if fst cr =? -1 then ret 0 else ret 1
          else fatal
      end
  end.

(** ** Messages *)

(** The scan of [sendMessageAtTime]:
    [while (i < messageCount && uptime >= mMessageEnvelopes.itemAt(i).uptime)
    i += 1;] counted from the head of the vector. *)
Fixpoint insertionIndex (uptime : Z) (q : list MessageEnvelope.t) : nat :=
  match q with
  | [] => 0%nat
  | e :: q' =>
      if uptime >=? MessageEnvelope.uptime e
      then S (insertionIndex uptime q')
      else 0%nat
  end.

(** [Vector::insertAt(item, index, 1)] *)
Definition insertAt {A : Type} (x : A) (i : nat) (v : list A) : list A :=
  take i v ++ x :: drop i v.

(** [Looper::sendMessageAtTime] *)
Definition sendMessageAtTime (uptime : Z) (handler : nat) (message : Message)
  : M unit :=
  let! l := getL in
  let i := insertionIndex uptime (mMessageEnvelopes l) in
  let messageEnvelope := MessageEnvelope.mk uptime handler message in
  modL (fun l => set_mMessageEnvelopes
                   (insertAt messageEnvelope i (mMessageEnvelopes l)) l) ;;;
  if mSendingMessage l then ret tt
  else if (i =? 0)%nat then wake
  else ret tt.

(** [Looper::sendMessage] *)
Definition sendMessage (handler : nat) (message : Message) : M unit :=
  let! now := sys systemTime in
  sendMessageAtTime now handler message.

(** [Looper::sendMessageDelayed] *)
Definition sendMessageDelayed (uptimeDelay : Z) (handler : nat)
  (message : Message) : M unit :=
  let! now := sys systemTime in
  sendMessageAtTime (add_i64 now uptimeDelay) handler message.

(** The loop of [removeMessages]:
    [for (size_t i = size; i != 0; ) { if (match(itemAt(--i))) removeAt(i); }] *)
Fixpoint removeMessagesFrom (matches : MessageEnvelope.t -> bool) (i : nat)
  (q : list MessageEnvelope.t) : list MessageEnvelope.t :=
  match i with
  | O => q
  | S i' =>
      match q !! i' with
      | Some e =>
          if matches e then removeMessagesFrom matches i' (delete i' q)
          else removeMessagesFrom matches i' q
      | None => removeMessagesFrom matches i' q
      end
  end.

(** [Looper::removeMessages(handler)] and
    [Looper::removeMessages(handler, what)] *)
Definition removeMessages (handler : nat) (w : option Z) : M unit :=
  let matches (e : MessageEnvelope.t) :=
    match w with
    | None => (MessageEnvelope.handler e =? handler)%nat
    | Some w =>
        (MessageEnvelope.handler e =? handler)%nat
        && (what (MessageEnvelope.message e) =? w)
    end in
  modL (fun l => set_mMessageEnvelopes
                   (removeMessagesFrom matches (length (mMessageEnvelopes l))
                      (mMessageEnvelopes l)) l).

(** ** Running user code *)

(** One call of user code on the public interface. *)
Definition exec (c : Call) : M Z :=
  match c with
  | CAddFd fd ident events callback data => addFd fd ident events callback data
  | CRemoveFd fd => removeFd fd
  | CRepoll fd => repoll fd
  | CSendMessage h m => sendMessage h m ;;; ret 0
  | CSendMessageDelayed d h m => sendMessageDelayed d h m ;;; ret 0
  | CSendMessageAtTime t h m => sendMessageAtTime t h m ;;; ret 0
  | CRemoveMessages h w => removeMessages h w ;;; ret 0
  | CWake => wake ;;; ret 0
  end.

Fixpoint runProg (p : Prog) : M Z :=
  match p with
  | Done r => ret r
  | Do c k =>
      let! r := exec c in
      emit (EvCall c r) ;;;
      runProg (k r)
  end.

(** A handler or callback is entered: its effect on the world, then its
    calls on the Looper. *)
Definition runUser (code : World -> Prog * World) : M Z :=
  let! p := sys code in
  runProg p.

(** ** The poll primitive *)

(** The translation of the epoll bits of a ready item into Looper events,
    in the body of [for (int i = 0; i < eventCount; i++)] in [pollInner]. *)
Definition translateEvents (epollEvents : Z) : Z :=
  let events := 0 in
  let events := if Z.land epollEvents EPOLLIN =? 0 then events
                else Z.lor events EVENT_INPUT in
  let events := if Z.land epollEvents EPOLLOUT =? 0 then events
                else Z.lor events EVENT_OUTPUT in
  let events := if Z.land epollEvents EPOLLERR =? 0 then events
                else Z.lor events EVENT_ERROR in
  let events := if Z.land epollEvents EPOLLHUP =? 0 then events
                else Z.lor events EVENT_HANGUP in
  events.

(** The body of that loop for one item. *)
Definition handleItem (item : epoll_event) : M unit :=
  let seq := ee_u64 item in
  let epollEvents := ee_events item in
  if seq =? WAKE_EVENT_FD_SEQ then
    if Z.land epollEvents EPOLLIN =? 0 then ret tt else awoken
  else
    let! l := getL in
    match mRequests l !! seq with
    | Some request =>
        let events := translateEvents epollEvents in
        modL (fun l => set_mResponses
                         (mResponses l ++ [Response.mk seq events request]) l)
    | None => ret tt
    end.

Fixpoint handleItems (items : list epoll_event) : M unit :=
  match items with
  | [] => ret tt
  | item :: items' => handleItem item ;;; handleItems items'
  end.

(** The [while (mMessageEnvelopes.size() != 0)] loop of [pollInner]; every
    iteration spends one unit of fuel. *)
Fixpoint drainMessages (fuel : nat) (result : Z) : M Z :=
  match fuel with
  | O => outOfFuel
  | S fuel' =>
      let! l := getL in
      match mMessageEnvelopes l with
      | [] => ret result
      | messageEnvelope :: rest =>
          let! now := sys systemTime in
          if MessageEnvelope.uptime messageEnvelope <=? now then
            let handler := MessageEnvelope.handler messageEnvelope in
            let message := MessageEnvelope.message messageEnvelope in
            modL (set_mMessageEnvelopes rest) ;;;
            modL (set_mSendingMessage true) ;;;
            emit (EvHandleMessage handler message) ;;;
            runUser (handleMessage handler message) ;;;
            modL (set_mSendingMessage false) ;;;
            drainMessages fuel' POLL_CALLBACK
          else
            modL (set_mNextMessageUptime
                    (MessageEnvelope.uptime messageEnvelope)) ;;;
            ret result
      end
  end.

(** [response.request.callback.clear()] on [mResponses.editItemAt(i)] *)
Definition clearCallback (r : Response.t) : Response.t :=
  let q := Response.request r in
  Response.mk (Response.seq r) (Response.events r)
    (Request.mk (Request.fd q) (Request.ident q) (Request.events q) None
       (Request.data q)).

(** The [for (size_t i = 0; i < mResponses.size(); i++)] loop of
    [pollInner], with [n] the number of entries still to visit.  Calling
    [handleEvent] through a null [callback] ends the process. *)
Fixpoint invokeCallbacks (n i : nat) (result : Z) : M Z :=
  match n with
  | O => ret result
  | S n' =>
      let! l := getL in
      match mResponses l !! i with
      | None => ret result
      | Some response =>
          let request := Response.request response in
          if Request.ident request =? POLL_CALLBACK then
            let fd := Request.fd request in
            let events := Response.events response in
            let data := Request.data request in
            match Request.callback request with
            | None => fatal
            | Some cb =>
                emit (EvHandleEvent (Response.seq response) cb fd events data) ;;;
                let! callbackResult := runUser (handleEvent cb fd events data) in
                (if callbackResult =? 0
                 then removeSequenceNumberLocked (Response.seq response) ;;; ret tt
                 else ret tt) ;;;
                modL (fun l => set_mResponses
                                 (<[i := clearCallback response]> (mResponses l)) l) ;;;
                invokeCallbacks n' (S i) POLL_CALLBACK
            end
          else invokeCallbacks n' (S i) result
      end
  end.

(** The head of [pollInner]: "Adjust the timeout based on when the next
    message is due." *)
Definition adjustTimeout (timeoutMillis : Z) : M Z :=
  let! l := getL in
  if negb (timeoutMillis =? 0) && negb (mNextMessageUptime l =? LLONG_MAX)
  then
    let! now := sys systemTime in
    let messageTimeoutMillis :=
      toMillisecondTimeoutDelay now (mNextMessageUptime l) in
    if (0 <=? messageTimeoutMillis)
       && ((timeoutMillis <? 0) || (messageTimeoutMillis <? timeoutMillis))
    then ret messageTimeoutMillis
    else ret timeoutMillis
  else ret timeoutMillis.

(** [pollInner] from "Poll." to the label [Done]: the kernel wait, the
    rebuild of the epoll set, the checks of the wait's outcome and the
    translation of the ready items.  The value is that of the local variable
    [result] at [Done]. *)
Definition pollWait (timeoutMillis : Z) : M Z :=
  modL (set_mResponses []) ;;;
  modL (set_mResponseIndex 0%nat) ;;;
  modL (set_mPolling true) ;;;
  let! l := getL in
  let! waited := sys (epoll_wait (mEpollFd l) timeoutMillis) in
  emit (EvEpollWait timeoutMillis waited) ;;;
  modL (set_mPolling false) ;;;
  let! l := getL in
  if mEpollRebuildRequired l then
    modL (set_mEpollRebuildRequired false) ;;;
    rebuildEpollLocked ;;;
    ret POLL_WAKE
  else
    match waited with
    | WaitError errno =>
        if errno =? EINTR then ret POLL_WAKE else ret POLL_ERROR
    | WaitEvents eventItems =>
        if eventCount eventItems =? 0 then ret POLL_TIMEOUT
        else handleItems eventItems ;;; ret POLL_WAKE
    end.

(** [Looper::pollInner] *)
Definition pollInner (fuel : nat) (timeoutMillis : Z) : M Z :=
  let! timeoutMillis := adjustTimeout timeoutMillis in
  let! result := pollWait timeoutMillis in
  modL (set_mNextMessageUptime LLONG_MAX) ;;;
  let! result := drainMessages fuel result in
  let! l := getL in
  invokeCallbacks (length (mResponses l)) 0%nat result.

(** What a call of [pollOnce] hands back: the return value and the values
    stored through [outFd], [outEvents] and [outData] (where the caller
    passed a pointer). *)
Record PollResult := mkPollResult {
  pr_result : Z;
  pr_outFd : Z;
  pr_outEvents : Z;
  pr_outData : Z
}.

(** The [while (mResponseIndex < mResponses.size())] loop of [pollOnce],
    with [n] the number of entries from [mResponseIndex] to the end. *)
Fixpoint replayResponses (n : nat) : M (option PollResult) :=
  match n with
  | O => ret None
  | S n' =>
      let! l := getL in
      match mResponses l !! mResponseIndex l with
      | None => ret None
      | Some response =>
          modL (set_mResponseIndex (S (mResponseIndex l))) ;;;
          let ident := Request.ident (Response.request response) in
          if 0 <=? ident then
            ret (Some (mkPollResult ident
                         (Request.fd (Response.request response))
                         (Response.events response)
                         (Request.data (Response.request response))))
          else replayResponses n'
      end
  end.

(** The [for (;;)] loop of [pollOnce]; [result] is its local variable. *)
Fixpoint pollOnceLoop (fuel : nat) (timeoutMillis result : Z) : M PollResult :=
  match fuel with
  | O => outOfFuel
  | S fuel' =>
      let! l := getL in
      let! replayed :=
        replayResponses (length (mResponses l) - mResponseIndex l) in
      match replayed with
      | Some r => ret r
      | None =>
          if negb (result =? 0) then ret (mkPollResult result 0 0 0)
          else
            let! result := pollInner fuel' timeoutMillis in
            pollOnceLoop fuel' timeoutMillis result
      end
  end.

(** [Looper::pollOnce] *)
Definition pollOnce (fuel : nat) (timeoutMillis : Z) : M PollResult :=
  pollOnceLoop fuel timeoutMillis 0.

(** The [do ... while (result == POLL_CALLBACK)] loop of [pollAll]. *)
Fixpoint pollAllBlocking (fuel : nat) (timeoutMillis : Z) : M PollResult :=
  match fuel with
  | O => outOfFuel
  | S fuel' =>
      let! r := pollOnce fuel' timeoutMillis in
      if pr_result r =? POLL_CALLBACK then pollAllBlocking fuel' timeoutMillis
      else ret r
  end.

(** The [for (;;)] loop of [pollAll] for a positive timeout. *)
Fixpoint pollAllUntil (fuel : nat) (endTime timeoutMillis : Z) : M PollResult :=
  match fuel with
  | O => outOfFuel
  | S fuel' =>
      let! r := pollOnce fuel' timeoutMillis in
      if negb (pr_result r =? POLL_CALLBACK) then ret r
      else
        let! now := sys systemTime in
        let timeoutMillis := toMillisecondTimeoutDelay now endTime in
        if timeoutMillis =? 0
        then ret (mkPollResult POLL_TIMEOUT (pr_outFd r) (pr_outEvents r)
                    (pr_outData r))
        else pollAllUntil fuel' endTime timeoutMillis
  end.

(** [Looper::pollAll] *)
Definition pollAll (fuel : nat) (timeoutMillis : Z) : M PollResult :=
  if timeoutMillis <=? 0 then pollAllBlocking fuel timeoutMillis
  else
    let! now := sys systemTime in
    let endTime := add_i64 now (milliseconds_to_nanoseconds timeoutMillis) in
    pollAllUntil fuel endTime timeoutMillis.

(** A client that calls [pollOnce] several times in a row, each call with
    its own fuel and timeout. *)
Fixpoint pollOnceMany (calls : list (nat * Z)) : M (list PollResult) :=
  match calls with
  | [] => ret []
  | (fuel, timeoutMillis) :: calls' =>
      let! r := pollOnce fuel timeoutMillis in
      let! rs := pollOnceMany calls' in
      ret (r :: rs)
  end.

(** A client that sends several messages in a row. *)
Fixpoint sendMessagesAtTime (es : list MessageEnvelope.t) : M unit :=
  match es with
  | [] => ret tt
  | e :: es' =>
      sendMessageAtTime (MessageEnvelope.uptime e) (MessageEnvelope.handler e)
        (MessageEnvelope.message e) ;;;
      sendMessagesAtTime es'
  end.

End Model.


Arguments Ok {_ A} a s.
Arguments Fatal {_ A} s.
Arguments OutOfFuel {_ A} s.

(** ** Vocabulary of the statements *)

Section Vocabulary.

Context {PF : Platform} {UC : UserCode} {TM : Timers}.

(** The sequence number the next [addFd] allocates. *)
Definition nextSeq (l : Looper) : Z :=
  if mNextRequestSeq l =? WAKE_EVENT_FD_SEQ then incr_u64 (mNextRequestSeq l)
  else mNextRequestSeq l.

(** The [ident] that [addFd] stores. *)
Definition storedIdent (ident : Z) (callback : option nat) : Z :=
  match callback with
  | Some _ => POLL_CALLBACK
  | None => ident
  end.

(** The queue after [sendMessageAtTime] has inserted [e]. *)
Definition enqueue (e : MessageEnvelope.t) (q : list MessageEnvelope.t)
  : list MessageEnvelope.t :=
  insertAt e (insertionIndex (MessageEnvelope.uptime e) q) q.

(** The queue is in order of non-decreasing [uptime]. *)
Definition sortedQueue (q : list MessageEnvelope.t) : Prop :=
  StronglySorted Z.le (map MessageEnvelope.uptime q).

(** The envelopes of a queue with deadline [t], in queue order. *)
Definition atDeadline (t : Z) (q : list MessageEnvelope.t)
  : list MessageEnvelope.t :=
  List.filter (λ e, MessageEnvelope.uptime e =? t) q.

(** User code that neither sends nor removes messages. *)
Definition touchesQueue (c : Call) : bool :=
  match c with
  | CSendMessage _ _ | CSendMessageDelayed _ _ _ | CSendMessageAtTime _ _ _
  | CRemoveMessages _ _ => true
  | _ => false
  end.

Inductive queueQuiet : Prog → Prop :=
| queueQuiet_Done r : queueQuiet (Done r)
| queueQuiet_Do c k :
    touchesQueue c = false → (∀ r, queueQuiet (k r)) → queueQuiet (Do c k).

(** The messages handed to handlers, in the order of the trace. *)
Definition dispatchedMessages (tr : list Event) : list (nat * Message) :=
  omap (λ e, match e with
             | EvHandleMessage h m => Some (h, m)
             | _ => None
             end) tr.

Definition addressed (e : MessageEnvelope.t) : nat * Message :=
  (MessageEnvelope.handler e, MessageEnvelope.message e).

(** A response that [pollOnce] returns to its caller. *)
Definition isIdent (r : Response.t) : bool :=
  0 <=? Request.ident (Response.request r).

(** The responses [pollOnce] has still to return. *)
Definition pending (l : Looper) : list Response.t :=
  List.filter isIdent (drop (mResponseIndex l) (mResponses l)).

(** What [pollOnce] returns for a response. *)
Definition deliver (r : Response.t) : PollResult :=
  mkPollResult (Request.ident (Response.request r))
    (Request.fd (Response.request r)) (Response.events r)
    (Request.data (Response.request r)).

(** The response of a ready item, given the table of requests: none for the
    wake descriptor and none for a sequence number that is not in the
    table. *)
Definition responseOf (requests : gmap Z Request.t) (item : epoll_event)
  : option Response.t :=
  if ee_u64 item =? WAKE_EVENT_FD_SEQ then None
  else
    match requests !! ee_u64 item with
    | Some request =>
        Some (Response.mk (ee_u64 item) (translateEvents (ee_events item))
                request)
    | None => None
    end.

(** The smaller of two timeouts in milliseconds, a negative one meaning
    that there is no limit. *)
Definition nearestTimeout (a b : Z) : Z :=
  if b <? 0 then a
  else if a <? 0 then b
  else Z.min a b.

(** The timeout [pollInner] hands to the kernel, from the timeout of the
    caller, the recorded deadline of the next message and the clock. *)
Definition effectiveTimeout (timeoutMillis nextMessageUptime now : Z) : Z :=
  if timeoutMillis =? 0 then 0
  else if nextMessageUptime =? LLONG_MAX then timeoutMillis
  else nearestTimeout timeoutMillis
         (toMillisecondTimeoutDelay now nextMessageUptime).

(** The result of the inner poll before any dispatch, from the rebuild flag
    and the outcome of the kernel wait. *)
Definition classify (rebuildRequired : bool) (waited : WaitResult) : Z :=
  if rebuildRequired then POLL_WAKE
  else
    match waited with
    | WaitError errno => if errno =? EINTR then POLL_WAKE else POLL_ERROR
    | WaitEvents [] => POLL_TIMEOUT
    | WaitEvents (_ :: _) => POLL_WAKE
    end.

(** The responses of the inner poll, in the order of the ready items. *)
Definition responsesOf (rebuildRequired : bool) (waited : WaitResult)
  (requests : gmap Z Request.t) : list Response.t :=
  if rebuildRequired then []
  else
    match waited with
    | WaitError _ => []
    | WaitEvents eventItems => omap (responseOf requests) eventItems
    end.

Definition isWait (e : Event) : Prop :=
  match e with
  | EvEpollWait _ _ => True
  | _ => False
  end.

(** The index agrees with the table of requests: an entry of the index
    points to a request with that descriptor, no other request has the
    descriptor, and the descriptor of every request is indexed to the
    request's sequence number. *)
Definition indexAgrees (requests : gmap Z Request.t) (index : gmap Z Z)
  : Prop :=
  (∀ fd s, index !! fd = Some s →
           ∃ r, requests !! s = Some r ∧ Request.fd r = fd)
  ∧ (∀ fd s s' r', index !! fd = Some s →
                   requests !! s' = Some r' → Request.fd r' = fd → s' = s)
  ∧ (∀ s r, requests !! s = Some r → index !! Request.fd r = Some s).

Definition tablesAgree (l : Looper) : Prop :=
  indexAgrees (mRequests l) (mSequenceNumberByFd l).

(** The sequence counter has not wrapped: it is ahead of every sequence
    number in the table. *)
Definition seqsAllocated (l : Looper) : Prop :=
  2 ≤ mNextRequestSeq l < UINT64_MOD
  ∧ ∀ s r, mRequests l !! s = Some r → s < mNextRequestSeq l.

Definition tablesOk (l : Looper) : Prop := tablesAgree l ∧ seqsAllocated l.

(** The number of [addFd] calls of user code in a trace. *)
Definition allocations (tr : list Event) : Z :=
  Z.of_nat (length (List.filter
                      (λ e, match e with
                            | EvCall (CAddFd _ _ _ _ _) _ => true
                            | _ => false
                            end) tr)).

(** [pollOnce] is called again and again from [s] while it returns
    [POLL_CALLBACK]; the first other result is [res], in state [s']. *)
Inductive pollsUntil (timeoutMillis : Z) : Sys → PollResult → Sys → Prop :=
| pollsUntil_last fuel s res s' :
    pollOnce fuel timeoutMillis s = Ok res s' →
    pr_result res ≠ POLL_CALLBACK →
    pollsUntil timeoutMillis s res s'
| pollsUntil_more fuel s r1 s1 res s' :
    pollOnce fuel timeoutMillis s = Ok r1 s1 →
    pr_result r1 = POLL_CALLBACK →
    pollsUntil timeoutMillis s1 res s' →
    pollsUntil timeoutMillis s res s'.

(** The same with a deadline: after every [POLL_CALLBACK] the clock is read
    and the time that remains until [endTime] becomes the timeout of the
    next call; when none remains, the result is [POLL_TIMEOUT]. *)
Inductive pollsBefore (endTime : Z) : Z → Sys → PollResult → Sys → Prop :=
| pollsBefore_last fuel t s res s' :
    pollOnce fuel t s = Ok res s' →
    pr_result res ≠ POLL_CALLBACK →
    pollsBefore endTime t s res s'
| pollsBefore_timeout fuel t s r1 s1 now w :
    pollOnce fuel t s = Ok r1 s1 →
    pr_result r1 = POLL_CALLBACK →
    systemTime (world s1) = (now, w) →
    toMillisecondTimeoutDelay now endTime = 0 →
    pollsBefore endTime t s
      (mkPollResult POLL_TIMEOUT (pr_outFd r1) (pr_outEvents r1) (pr_outData r1))
      (mkSys (looper s1) w (trace s1))
| pollsBefore_more fuel t s r1 s1 now w res s' :
    pollOnce fuel t s = Ok r1 s1 →
    pr_result r1 = POLL_CALLBACK →
    systemTime (world s1) = (now, w) →
    toMillisecondTimeoutDelay now endTime ≠ 0 →
    pollsBefore endTime (toMillisecondTimeoutDelay now endTime)
      (mkSys (looper s1) w (trace s1)) res s' →
    pollsBefore endTime t s res s'.

(** The tables are in order and the counter is at most [C] plus the number
    of [addFd] calls of user code so far, unless that bound has left the
    range of the counter. *)
Definition withinBudget (C : Z) (s : Sys) : Prop :=
  C + allocations (trace s) < UINT64_MOD →
  tablesOk (looper s) ∧ mNextRequestSeq (looper s) ≤ C + allocations (trace s).

Definition isAddFd (c : Call) : bool :=
  match c with
  | CAddFd _ _ _ _ _ => true
  | _ => false
  end.

(** [wake] ends the process in this state: the write on the wake descriptor
    is short and [errno] is not [EAGAIN]. *)
Definition wakeFails (s : Sys) : Prop :=
  let wr := fst (write_u64 (mWakeEventFd (looper s)) (world s)) in
  fst wr ≠ 8 ∧ snd wr ≠ EAGAIN.

End Vocabulary.

Section Judgements.

Context {PF : Platform} {UC : UserCode} {TM : Timers}.

(** A triple for a computation [m] started where [Pre] holds: every action
    it adds to the trace, however it ends, satisfies [P], and [Post] holds of
    its value and state whenever it returns. *)
Definition triple {A : Type} (Pre : Sys → Prop) (P : Event → Prop) (m : M A)
  (Post : A → Sys → Prop) : Prop :=
  ∀ s, Pre s →
    (∃ tr, trace (final (m s)) = trace s ++ tr ∧ Forall P tr)
    ∧ (∀ a s', m s = Ok a s' → Post a s').

(** [m] keeps the invariant [I]. *)
Definition sound {A : Type} (I : Sys → Prop) (P : Event → Prop) (m : M A)
  : Prop :=
  triple I P m (λ _, I).

(** The members of the Looper that the registration and message methods
    never write: two Loopers agree on them when their [pollState]s are
    equal. *)
Definition pollState (l : Looper) : Looper :=
  set_mEpollRebuildRequired false
    (set_mNextRequestSeq 0
       (set_mMessageEnvelopes []
          (set_mRequests ∅ (set_mSequenceNumberByFd ∅ l)))).

Definition framed (p : Looper) (s : Sys) : Prop := pollState (looper s) = p.

(** A rebuild of the epoll set writes only [mEpollFd]. *)
Definition upToEpollFd (l0 : Looper) (s : Sys) : Prop :=
  ∃ x, looper s = set_mEpollFd x l0.

Definition tablesAre (rq : gmap Z Request.t) (ix : gmap Z Z) (n : Z)
  (s : Sys) : Prop :=
  mRequests (looper s) = rq ∧ mSequenceNumberByFd (looper s) = ix
  ∧ mNextRequestSeq (looper s) = n.

Definition queueIs (q : list MessageEnvelope.t) (s : Sys) : Prop :=
  mMessageEnvelopes (looper s) = q.

(** The only action of the public methods themselves. *)
Definition isWakeEvent (e : Event) : Prop :=
  match e with
  | EvWake => True
  | _ => False
  end.

(** The actions of the public methods user code may call. *)
Definition isApiEvent (e : Event) : Prop :=
  match e with
  | EvWake | EvCall _ _ => True
  | _ => False
  end.

(** The actions of the drain of the message queue, of the delivery of the
    responses to callbacks, and of the wait up to the label [Done]. *)
Definition isDrainEvent (e : Event) : Prop :=
  match e with
  | EvWake | EvCall _ _ | EvHandleMessage _ _ => True
  | _ => False
  end.

Definition isCallbackEvent (e : Event) : Prop :=
  match e with
  | EvWake | EvCall _ _ | EvHandleEvent _ _ _ _ _ => True
  | _ => False
  end.

Definition isKernelEvent (e : Event) : Prop :=
  match e with
  | EvRebuild | EvAwoken => True
  | _ => False
  end.

(** An action of the delivery of responses whose sequence numbers are
    [qs]. *)
Definition isCallbackEventOf (qs : list Z) (e : Event) : Prop :=
  match e with
  | EvWake | EvCall _ _ => True
  | EvHandleEvent q _ _ _ _ => q ∈ qs
  | _ => False
  end.

(** An action of the inner poll after the kernel wait, when the responses
    have the sequence numbers [qs]: no second wait, and callbacks are invoked
    for those responses only. *)
Definition isInnerEventOf (qs : list Z) (e : Event) : Prop :=
  match e with
  | EvEpollWait _ _ => False
  | EvHandleEvent q _ _ _ _ => q ∈ qs
  | _ => True
  end.

(** A handler or a callback is invoked. *)
Definition isDispatch (e : Event) : bool :=
  match e with
  | EvHandleMessage _ _ | EvHandleEvent _ _ _ _ _ => true
  | _ => false
  end.

End Judgements.

(** * A scripted environment, to run the model *)

(** A world whose clock advances by [tw_tick] at each reading and whose
    kernel answers [epoll_wait] and [epoll_ctl] from two scripts; once a
    script is used up the wait reports no event and [epoll_ctl] succeeds.
    Writes on the wake descriptor always take the eight bytes. *)
Record TestWorld := mkTestWorld {
  tw_clock : Z;
  tw_tick : Z;
  tw_waits : list WaitResult;
  tw_ctls : list (Z * Z)
}.

Definition testPlatform : Platform := {|
  World := TestWorld;
  systemTime w :=
    (tw_clock w,
     mkTestWorld (tw_clock w + tw_tick w) (tw_tick w) (tw_waits w) (tw_ctls w));
  eventfd w := (3, w);
  epoll_create1 w := (4, w);
  epoll_ctl _ _ _ _ w :=
    match tw_ctls w with
    | [] => ((0, 0), w)
    | r :: rest =>
        (r, mkTestWorld (tw_clock w) (tw_tick w) (tw_waits w) rest)
    end;
  epoll_wait _ _ w :=
    match tw_waits w with
    | [] => (WaitEvents [], w)
    | r :: rest =>
        (r, mkTestWorld (tw_clock w) (tw_tick w) rest (tw_ctls w))
    end;
  write_u64 _ w := ((8, 0), w);
  read_u64 _ w := w;
  close_fd _ w := w
|}.

(** Delays in whole milliseconds, rounded up; none for a deadline that has
    passed. *)
Definition testTimers : Timers := {|
  toMillisecondTimeoutDelay now deadline :=
    if deadline <=? now then 0 else (deadline - now + 999999) / 1000000;
  milliseconds_to_nanoseconds ms := ms * 1000000
|}.

(** Callback [0] asks to be unregistered, every other callback stays;
    handler [1] registers descriptor [5] anew with callback [2], handler [2]
    sends a message to handler [3], every other handler does nothing. *)
Definition testUser : @UserCode testPlatform := {|
  handleEvent cb fd events data w :=
    (Done (match cb with O => 0 | _ => 1 end), w);
  handleMessage h m w :=
    (match h with
     | 1%nat => Do (CAddFd 5 0 EVENT_INPUT (Some 2%nat) 0) (λ _, Done 0)
     | 2%nat => Do (CSendMessage 3%nat m) (λ _, Done 0)
     | _ => Done 0
     end, w)
|}.

(** Handlers that do nothing, and the callbacks of [testUser]. *)
Definition quietUser : @UserCode testPlatform := {|
  handleEvent cb fd events data w :=
    (Done (match cb with O => 0 | _ => 1 end), w);
  handleMessage h m w := (Done 0, w)
|}.

Section Scenarios.

Local Existing Instance testPlatform.
Local Existing Instance testTimers.
Local Existing Instance testUser.

Definition testWorld (waits : list WaitResult) : TestWorld :=
  mkTestWorld 0 0 waits [].

(** A new Looper that allows registrations without a callback. *)
Definition newState (waits : list WaitResult) : Sys :=
  final (newLooper true (testWorld waits)).

(** Descriptor [5] with identifier [7] and descriptor [6] with identifier
    [8], both without a callback; they get the sequence numbers [2] and
    [3]. *)
Definition identState (waits : list WaitResult) : Sys :=
  final (addFd 6 8 EVENT_OUTPUT None 0
           (final (addFd 5 7 EVENT_INPUT None 0 (newState waits)))).

(** Both descriptors are reported ready by one wait. *)
Definition readyItems : list epoll_event :=
  [mkEpollEvent EPOLLIN 2; mkEpollEvent EPOLLOUT 3].

(** [identState] after the first call of [pollOnce], which returned the
    response of descriptor [5]: the one of descriptor [6] is pending. *)
Definition pendingState : Sys :=
  final (pollOnce 3 (-1) (identState [WaitEvents readyItems])).

(** Descriptor [5] with callback [0], under sequence number [2]. *)
Definition callbackState (waits : list WaitResult) : Sys :=
  final (addFd 5 0 EVENT_INPUT (Some 0%nat) 0 (newState waits)).

(** [callbackState] with a message for handler [1] that is due. *)
Definition staleState : Sys :=
  final (sendMessageAtTime 0 1%nat (mkMessage 0)
           (callbackState [WaitEvents [mkEpollEvent EPOLLIN 2]])).

(** A new Looper with one message, due at five milliseconds, that was sent
    after the last poll. *)
Definition enqueuedState : Sys :=
  final (sendMessageAtTime 5000000 1%nat (mkMessage 0) (newState [])).

(** A new Looper with one message that is due. *)
Definition dueState : Sys :=
  final (sendMessageAtTime 0 4%nat (mkMessage 0) (newState [])).

(** [identState] after an inner poll that found both descriptors ready. *)
Definition polledState : Sys :=
  final (pollInner 3 (-1) (identState [WaitEvents readyItems])).

(** Three envelopes, two of them with the same deadline. *)
Definition burst : list MessageEnvelope.t :=
  [MessageEnvelope.mk 5 1%nat (mkMessage 1);
   MessageEnvelope.mk 5 2%nat (mkMessage 2);
   MessageEnvelope.mk 3 3%nat (mkMessage 3)].

(** A new Looper after the three envelopes were sent at time [10]. *)
Definition burstState : Sys :=
  let s := final (sendMessagesAtTime burst (newState [])) in
  mkSys (looper s) (mkTestWorld 10 0 [] []) (trace s).

End Scenarios.

(** ** Two statements of the specification, as they are written *)

Section Sentences.

Context {PF : Platform} {UC : UserCode} {TM : Timers}.

(** A descriptor registered under [q] when the call starts is registered
    anew during the call: the callback of [q] is not invoked after that. *)
Definition oldCallbackSilenced (fuel : nat) (t : Z) (s : Sys) : Prop :=
  ∀ fd q tr1 tr2 ident events cb data,
    mSequenceNumberByFd (looper s) !! fd = Some q →
    trace (final (pollOnce fuel t s))
    = tr1 ++ EvCall (CAddFd fd ident events cb data) 1 :: tr2 →
    ∀ cb' fd' events' data', EvHandleEvent q cb' fd' events' data' ∉ tr2.

(** With a timeout that is not zero and a message in the queue, every
    kernel wait of the call gets the smaller of the timeout and the delay
    until the deadline of the head. *)
Definition waitFollowsHead (fuel : nat) (t : Z) (s : Sys) : Prop :=
  t ≠ 0 →
  ∀ e q, mMessageEnvelopes (looper s) = e :: q →
  ∀ t' waited,
    EvEpollWait t' waited
    ∈ drop (length (trace s)) (trace (final (pollOnce fuel t s))) →
    t' = nearestTimeout t
           (toMillisecondTimeoutDelay (fst (systemTime (world s)))
              (MessageEnvelope.uptime e)).

End Sentences.

(** * The rest of the Looper *)

Section Accessors.

Context {PF : Platform} {UC : UserCode} {TM : Timers}.

(** [Looper::getAllowNonCallbacks] *)
Definition getAllowNonCallbacks : M bool :=
  fun s => Ok (mAllowNonCallbacks (looper s)) s.

(** [Looper::isPolling] *)
Definition isPolling : M bool :=
  fun s => Ok (mPolling (looper s)) s.

(** What [getFdStateDebug] stores through [ident], [events], [cb] and [data]
    when it returns [true]. *)
Record FdState := mkFdState {
  fs_ident : Z;
  fs_events : Z;
  fs_cb : option nat;
  fs_data : Z
}.

(** [Looper::getFdStateDebug], called with four pointers that are not null:
    [None] stands for [false]. *)
Definition getFdStateDebug (fd : Z) : M (option FdState) :=
  fun s =>
    let l := looper s in
    match mSequenceNumberByFd l !! fd with
    | Some seqNum =>
        match mRequests l !! seqNum with
        | Some request =>
            Ok (Some (mkFdState (Request.ident request)
                        (Request.events request) (Request.callback request)
                        (Request.data request))) s
        | None => Ok None s
        end
    | None => Ok None s
    end.

End Accessors.

Section MoreVocabulary.

Context {PF : Platform} {UC : UserCode} {TM : Timers}.

(** The test of the two [removeMessages]: the handler, and [what] when it
    is given. *)
Definition removalMatches (handler : nat) (w : option Z)
  (e : MessageEnvelope.t) : bool :=
  match w with
  | None => (MessageEnvelope.handler e =? handler)%nat
  | Some w =>
      (MessageEnvelope.handler e =? handler)%nat
      && (what (MessageEnvelope.message e) =? w)
  end.

(** A request as [addFd] builds it: a callback with [POLL_CALLBACK], or no
    callback with an identifier that is not negative. *)
Definition requestOk (r : Request.t) : Prop :=
  match Request.callback r with
  | Some _ => Request.ident r = POLL_CALLBACK
  | None => 0 ≤ Request.ident r
  end.

(** Every stored request is as [addFd] builds it, and none is stored under
    the sequence number of the wake descriptor. *)
Definition requestsOk (l : Looper) : Prop :=
  (∀ seq r, mRequests l !! seq = Some r → requestOk r)
  ∧ mRequests l !! WAKE_EVENT_FD_SEQ = None.

(** A Looper that is in none of its methods: it is not waiting, it is not
    handing over a message, and no response holds a callback. *)
Definition atRest (l : Looper) : Prop :=
  mPolling l = false ∧ mSendingMessage l = false
  ∧ Forall (λ r, Request.callback (Response.request r) = None) (mResponses l).

(** The calls of [awoken] that a list of ready items causes: one for every
    item of the wake descriptor that is readable. *)
Definition awokenFor (items : list epoll_event) : list Event :=
  omap (λ item,
          if (ee_u64 item =? WAKE_EVENT_FD_SEQ)
             && negb (Z.land (ee_events item) EPOLLIN =? 0)
          then Some EvAwoken else None) items.

(** The clock never reads less than [lo] nor more than [hi]. *)
Definition clockWithin (lo hi : Z) : Prop :=
  ∀ w, lo ≤ fst (systemTime w) ≤ hi.

(** The envelopes at the head of a queue that are due at time [t]. *)
Fixpoint dueCount (t : Z) (q : list MessageEnvelope.t) : nat :=
  match q with
  | [] => 0%nat
  | e :: q' =>
      if MessageEnvelope.uptime e <=? t then S (dueCount t q') else 0%nat
  end.

(** A value of [nsecs_t]. *)
Definition inInt64 (x : Z) : Prop := - 2 ^ 63 ≤ x < 2 ^ 63.

End MoreVocabulary.

Section Outcomes.

Context {PF : Platform} {UC : UserCode} {TM : Timers}.

(** The computation never stops for want of fuel. *)
Definition neverOutOfFuel {A : Type} (m : M A) : Prop :=
  ∀ s s', m s ≠ OutOfFuel s'.

(** Started where [Pre] holds, the computation does not end the process,
    and [Post] holds when it returns. *)
Definition safe {A : Type} (Pre : Sys → Prop) (m : M A)
  (Post : A → Sys → Prop) : Prop :=
  ∀ s, Pre s →
    match m s with
    | Ok a s' => Post a s'
    | Fatal _ => False
    | OutOfFuel _ => True
    end.

End Outcomes.

Section Health.

Context {PF : Platform} {UC : UserCode} {TM : Timers}.

(** The computation never ends the process. *)
Definition neverFatal {A : Type} (m : M A) : Prop :=
  ∀ s s', m s ≠ Fatal s'.

(** The kernel calls whose failure ends the process succeed: a write on a
    descriptor takes the eight bytes or fails with [EAGAIN], an epoll
    instance can be created, and the descriptor [wakeFd] can be added to
    one. *)
Definition kernelHealthy (wakeFd : Z) : Prop :=
  (∀ fd w, fst (fst (write_u64 fd w)) = 8 ∨ snd (fst (write_u64 fd w)) = EAGAIN)
  ∧ (∀ w, 0 ≤ fst (epoll_create1 w))
  ∧ (∀ epfd ev w, fst (fst (epoll_ctl epfd EPOLL_CTL_ADD wakeFd ev w)) = 0).

End Health.

Section Senders.

Context {PF : Platform} {UC : UserCode} {TM : Timers}.

(** User code that does not call [removeMessages]. *)
Definition removesMessages (c : Call) : bool :=
  match c with
  | CRemoveMessages _ _ => true
  | _ => false
  end.

Inductive neverRemoves : Prog → Prop :=
| neverRemoves_Done r : neverRemoves (Done r)
| neverRemoves_Do c k :
    removesMessages c = false → (∀ r, neverRemoves (k r)) →
    neverRemoves (Do c k).

(** ** Two more statements of the specification, as they are written *)

(** With nothing pending, a run of calls returns the identifier responses
    of the inner poll of the first call, one per call, and then that inner
    poll's result code with zeroes in the out parameters. *)
Definition codeAfterResponses (fuel : nat) (t : Z) (s : Sys) : Prop :=
  pending (looper s) = [] →
  ∀ code s2 rs s',
    pollInner fuel t s = Ok code s2 →
    pollOnceMany (replicate (S (length (pending (looper s2)))) (S (S fuel), t))
      s
    = Ok rs s' →
    rs = (deliver <$> pending (looper s2)) ++ [mkPollResult code 0 0 0].

(** [removeFd] returns [1] for a descriptor that is registered. *)
Definition removeFdReturnsOne (fd : Z) (s : Sys) : Prop :=
  is_Some (mSequenceNumberByFd (looper s) !! fd) →
  ∀ r s', removeFd fd s = Ok r s' → r = 1.

End Senders.

(** [EPERM] of errno.h, for the scripted kernel. *)
Definition EPERM : Z := 1.

Section MoreScenarios.

Local Existing Instance testPlatform.
Local Existing Instance testTimers.
Local Existing Instance testUser.

(** Descriptor [5] is registered with identifier [7]; the kernel will
    refuse the next [epoll_ctl] with [EPERM]. *)
Definition refusedState : Sys :=
  final (addFd 5 7 EVENT_INPUT None 0
           (final (newLooper true
                     (mkTestWorld 0 0 [] [(0, 0); (0, 0); (-1, EPERM)])))).

End MoreScenarios.

(** A kernel with a clock that reads between [0] and [10], which accepts
    every [epoll_ctl] and every write; the waits are scripted. *)
Definition boundedPlatform : Platform := {|
  World := TestWorld;
  systemTime w :=
    (Z.max 0 (Z.min 10 (tw_clock w)),
     mkTestWorld (tw_clock w + tw_tick w) (tw_tick w) (tw_waits w) (tw_ctls w));
  eventfd w := (3, w);
  epoll_create1 w := (4, w);
  epoll_ctl _ _ _ _ w := ((0, 0), w);
  epoll_wait _ _ w :=
    match tw_waits w with
    | [] => (WaitEvents [], w)
    | r :: rest =>
        (r, mkTestWorld (tw_clock w) (tw_tick w) rest (tw_ctls w))
    end;
  write_u64 _ w := ((8, 0), w);
  read_u64 _ w := w;
  close_fd _ w := w
|}.

(** Handler [2] sends a message to handler [3], every other handler does
    nothing; every callback stays registered. *)
Definition sendingUser : @UserCode boundedPlatform := {|
  handleEvent cb fd events data w := (Done 1, w);
  handleMessage h m w :=
    (match h with
     | 2%nat => Do (CSendMessage 3%nat m) (λ _, Done 0)
     | _ => Done 0
     end, w)
|}.

(** Handlers that do nothing; every callback stays registered. *)
Definition idleUser : @UserCode boundedPlatform := {|
  handleEvent cb fd events data w := (Done 1, w);
  handleMessage h m w := (Done 0, w)
|}.

Section BoundedScenarios.

Local Existing Instance boundedPlatform.
Local Existing Instance testTimers.
Local Existing Instance sendingUser.

(** Two messages of deadline [0], the first for handler [2], which sends a
    third message while it runs. *)
Definition twinMessages : list MessageEnvelope.t :=
  [MessageEnvelope.mk 0 2%nat (mkMessage 1);
   MessageEnvelope.mk 0 4%nat (mkMessage 2)].

Definition boundedState : Sys :=
  final (newLooper true (mkTestWorld 0 0 [] [])).

Definition twinState : Sys :=
  final (sendMessagesAtTime twinMessages boundedState).

End BoundedScenarios.

(** * Proofs *)

Ltac run :=
  unfold bind, ret, getL, modL, sys, sys_, emit, fatal, outOfFuel in *;
  simpl in *.


Section Rules.
Context {PF : Platform} {UC : UserCode} {TM : Timers}.

(** ** The monad *)

Lemma bind_Ok {A B : Type} (m : M A) (f : A → M B) s b s2 :
  bind m f s = Ok b s2 → ∃ a s1, m s = Ok a s1 ∧ f a s1 = Ok b s2.
Proof.
  unfold bind. destruct (m s) as [a s1|s1|s1]; [eauto | done | done].
Qed.

Lemma bind_Ok_intro {A B : Type} (m : M A) (f : A → M B) s a s1 :
  m s = Ok a s1 → bind m f s = f a s1.
Proof. unfold bind. by intros ->. Qed.

Lemma triple_Ok {A : Type} Pre P (m : M A) Post s a s' :
  triple Pre P m Post → Pre s → m s = Ok a s' →
  (∃ tr, trace s' = trace s ++ tr ∧ Forall P tr) ∧ Post a s'.
Proof.
  intros Hm HPre E. destruct (Hm s HPre) as [Ht Hok].
  rewrite E in Ht. split; [exact Ht | by apply Hok].
Qed.

Lemma triple_final {A : Type} Pre P (m : M A) Post s :
  triple Pre P m Post → Pre s →
  ∃ tr, trace (final (m s)) = trace s ++ tr ∧ Forall P tr.
Proof. intros Hm HPre. by destruct (Hm s HPre). Qed.

Lemma triple_conseq {A : Type} (Pre Pre' : Sys → Prop) (P Q : Event → Prop)
  (m : M A) (Post Post' : A → Sys → Prop) :
  (∀ s, Pre' s → Pre s) → (∀ e, P e → Q e) →
  (∀ a s, Post a s → Post' a s) →
  triple Pre P m Post → triple Pre' Q m Post'.
Proof.
  intros H1 H2 H3 Hm s HPre. destruct (Hm s (H1 s HPre)) as [(tr & Ht & HP) Hok].
  split; [|by eauto]. exists tr. split; [done|]. eapply Forall_impl; eauto.
Qed.

Lemma triple_bind {A B : Type} Pre P (m : M A) Mid (f : A → M B) Post :
  triple Pre P m Mid → (∀ a, triple (Mid a) P (f a) Post) →
  triple Pre P (bind m f) Post.
Proof.
  intros Hm Hf s HPre. destruct (Hm s HPre) as [(tr1 & Ht1 & HP1) Hok1].
  unfold bind. destruct (m s) as [a s1|s1|s1] eqn:E; simpl in *.
  - destruct (Hf a s1 (Hok1 _ _ eq_refl)) as [(tr2 & Ht2 & HP2) Hok2].
    split; [|done].
    exists (tr1 ++ tr2). rewrite Ht2, Ht1, app_assoc. split; [done|].
    by apply Forall_app.
  - split; [eauto | done].
  - split; [eauto | done].
Qed.

Lemma triple_and {A : Type} Pre1 Pre2 P (m : M A) Post1 Post2 :
  triple Pre1 P m Post1 → triple Pre2 P m Post2 →
  triple (λ s, Pre1 s ∧ Pre2 s) P m (λ a s, Post1 a s ∧ Post2 a s).
Proof.
  intros H1 H2 s [HP1 HP2]. destruct (H1 s HP1) as [Ht Hok1].
  destruct (H2 s HP2) as [_ Hok2]. split; [done|]. intros a s' E. eauto.
Qed.

Lemma sound_ret {A : Type} I P (a : A) : sound I P (ret a).
Proof.
  intros s HI. split.
  - exists []. by rewrite app_nil_r.
  - intros a' s' [= _ <-]. done.
Qed.

Lemma sound_bind {A B : Type} I P (m : M A) (f : A → M B) :
  sound I P m → (∀ a, sound I P (f a)) → sound I P (bind m f).
Proof. intros Hm Hf. by eapply triple_bind. Qed.

Lemma sound_weaken {A : Type} I (P Q : Event → Prop) (m : M A) :
  (∀ e, P e → Q e) → sound I P m → sound I Q m.
Proof.
  intros HPQ Hm. by apply (triple_conseq I I P Q m (λ _, I) (λ _, I)).
Qed.

Lemma sound_and {A : Type} I J P (m : M A) :
  sound I P m → sound J P m → sound (λ s, I s ∧ J s) P m.
Proof. intros HI HJ. by apply triple_and. Qed.

Lemma sound_getL I P : sound I P getL.
Proof.
  intros s HI. split.
  - exists []. by rewrite app_nil_r.
  - intros a s' [= _ <-]. done.
Qed.

Lemma sound_modL I P f :
  (∀ s, I s → I (mkSys (f (looper s)) (world s) (trace s))) →
  sound I P (modL f).
Proof.
  intros Hf s HI. split.
  - exists []. by rewrite app_nil_r.
  - intros a s' [= _ <-]. auto.
Qed.

Lemma sound_sys {A : Type} I P (f : World → A * World) :
  (∀ s w, I s → I (mkSys (looper s) w (trace s))) → sound I P (sys f).
Proof.
  intros Hf s HI. unfold sys. destruct (f (world s)) as [a w]. split.
  - exists []. by rewrite app_nil_r.
  - intros a' s' [= _ <-]. auto.
Qed.

Lemma sound_sys_ I P (f : World → World) :
  (∀ s w, I s → I (mkSys (looper s) w (trace s))) → sound I P (sys_ f).
Proof.
  intros Hf s HI. split.
  - exists []. by rewrite app_nil_r.
  - intros a' s' [= _ <-]. auto.
Qed.

Lemma sound_emit I (P : Event → Prop) e :
  P e → (∀ s, I s → I (mkSys (looper s) (world s) (trace s ++ [e]))) →
  sound I P (emit e).
Proof.
  intros HP Hf s HI. split.
  - exists [e]. split; [done|]. by constructor.
  - intros a' s' [= _ <-]. auto.
Qed.

Lemma sound_fatal {A : Type} I P : sound I P (@fatal _ A).
Proof.
  intros s HI. split; [|done]. exists []. by rewrite app_nil_r.
Qed.

Lemma sound_outOfFuel {A : Type} I P : sound I P (@outOfFuel _ A).
Proof.
  intros s HI. split; [|done]. exists []. by rewrite app_nil_r.
Qed.

End Rules.

Ltac sound_step side :=
  first
    [ apply sound_ret
    | apply sound_getL
    | apply sound_fatal
    | apply sound_outOfFuel
    | apply sound_bind; [|intros ?]
    | apply sound_modL; side
    | apply sound_sys; side
    | apply sound_sys_; side
    | apply sound_emit; side
    | match goal with
      | |- sound _ _ (match ?x with _ => _ end) => destruct x eqn:?
      | |- sound _ _ (let _ := ?x in _) => cbv zeta
      end ].

Ltac frame_side := first [ exact I | by intros | by (intros ? ?) ].

Section Frames.
Context {PF : Platform} {UC : UserCode} {TM : Timers}.

(** ** User code leaves the poll state alone *)


Lemma wake_framed p : sound (framed p) isWakeEvent wake.
Proof. unfold wake. repeat sound_step frame_side. Qed.

Lemma scheduleEpollRebuildLocked_framed p :
  sound (framed p) isWakeEvent scheduleEpollRebuildLocked.
Proof.
  unfold scheduleEpollRebuildLocked.
  repeat first [apply wake_framed | sound_step frame_side].
Qed.

Lemma addFd_framed p fd ident events cb data :
  sound (framed p) isWakeEvent (addFd fd ident events cb data).
Proof.
  unfold addFd.
  repeat first [apply scheduleEpollRebuildLocked_framed | sound_step frame_side].
Qed.

Lemma removeSequenceNumberLocked_framed p seq :
  sound (framed p) isWakeEvent (removeSequenceNumberLocked seq).
Proof.
  unfold removeSequenceNumberLocked.
  repeat first [apply scheduleEpollRebuildLocked_framed | sound_step frame_side].
Qed.

Lemma removeFd_framed p fd : sound (framed p) isWakeEvent (removeFd fd).
Proof.
  unfold removeFd.
  repeat first [apply removeSequenceNumberLocked_framed | sound_step frame_side].
Qed.

Lemma repoll_framed p fd : sound (framed p) isWakeEvent (repoll fd).
Proof. unfold repoll. repeat sound_step frame_side. Qed.

Lemma sendMessageAtTime_framed p t h m :
  sound (framed p) isWakeEvent (sendMessageAtTime t h m).
Proof.
  unfold sendMessageAtTime.
  repeat first [apply wake_framed | sound_step frame_side].
Qed.

Lemma removeMessages_framed p h w :
  sound (framed p) isWakeEvent (removeMessages h w).
Proof. unfold removeMessages. repeat sound_step frame_side. Qed.

Lemma exec_framed p c : sound (framed p) isWakeEvent (exec c).
Proof.
  destruct c; simpl; unfold sendMessage, sendMessageDelayed;
    repeat first
      [ apply addFd_framed | apply removeFd_framed | apply repoll_framed
      | apply sendMessageAtTime_framed | apply removeMessages_framed
      | apply wake_framed | sound_step frame_side ].
Qed.

Lemma runProg_framed p prog : sound (framed p) isApiEvent (runProg prog).
Proof.
  induction prog as [r|c k IH]; simpl.
  - apply sound_ret.
  - repeat first
      [ apply (sound_weaken _ isWakeEvent); [by intros []|apply exec_framed]
      | apply IH | sound_step frame_side ].
Qed.

Lemma runUser_framed p code : sound (framed p) isApiEvent (runUser code).
Proof.
  unfold runUser. repeat first [apply runProg_framed | sound_step frame_side].
Qed.

(** An invariant that only reads the poll state is kept by everything that
    is framed. *)
Lemma sound_of_framed {A : Type} (Q : Looper → Prop) P (m : M A) :
  (∀ p, sound (framed p) P m) → sound (λ s, Q (pollState (looper s))) P m.
Proof.
  intros Hm s HQ. destruct (Hm (pollState (looper s)) s eq_refl) as [Ht Hok].
  split; [done|]. intros a s' E. specialize (Hok a s' E).
  unfold framed in Hok. by rewrite Hok.
Qed.

End Frames.

Section Operations.
Context {PF : Platform} {UC : UserCode} {TM : Timers}.

(** ** addFd *)

Lemma addFd_rejects fd ident events data s :
  mAllowNonCallbacks (looper s) = false ∨ ident < 0 →
  addFd fd ident events None data s = Ok (-1) s.
Proof.
  intros H. unfold addFd. run.
  destruct (mAllowNonCallbacks (looper s)); simpl; [|done].
  destruct H as [H|H]; [done|].
  apply Z.ltb_lt in H. by rewrite H.
Qed.

Lemma addFd_returns fd ident events cb data s r s' :
  addFd fd ident events cb data s = Ok r s' → r = 1 ∨ r = -1.
Proof.
  unfold addFd, scheduleEpollRebuildLocked, wake. run.
  intros H. repeat case_match; simplify_eq; auto.
Qed.

Lemma emplace_fresh {V : Type} k (v : V) m :
  m !! k = None → emplace k v m = <[k := v]> m.
Proof. unfold emplace. by intros ->. Qed.

Lemma addFd_stores fd ident events cb data s s' :
  mRequests (looper s) !! nextSeq (looper s) = None →
  addFd fd ident events cb data s = Ok 1 s' →
  mSequenceNumberByFd (looper s') !! fd = Some (nextSeq (looper s))
  ∧ mRequests (looper s') !! nextSeq (looper s)
    = Some (Request.mk fd (storedIdent ident cb) events cb data).
Proof.
  unfold addFd, scheduleEpollRebuildLocked, wake, nextSeq, storedIdent.
  destruct s as [l w t]. run. intros Hfresh H.
  repeat case_match; simplify_eq; simpl;
    repeat match goal with
    | |- context [emplace ?k ?v ?m] =>
        rewrite (emplace_fresh k v m)
          by (first [done | by rewrite lookup_delete_None; right])
    end;
    by rewrite !lookup_insert_eq.
Qed.

Lemma addFd_accepts fd ident events cb data s :
  (cb = None → mAllowNonCallbacks (looper s) = true ∧ 0 ≤ ident) →
  0 ≤ fst (fst (epoll_ctl (mEpollFd (looper s))
                  (if mSequenceNumberByFd (looper s) !! fd is Some _
                   then EPOLL_CTL_MOD else EPOLL_CTL_ADD)
                  fd
                  (Some (createEpollEvent
                           (getEpollEvents
                              (Request.mk fd (storedIdent ident cb) events cb data))
                           (nextSeq (looper s))))
                  (world s))) →
  ∃ s', addFd fd ident events cb data s = Ok 1 s'.
Proof.
  unfold addFd, nextSeq, storedIdent. destruct s as [l w t]. run.
  intros Hargs Hk.
  destruct cb as [cb|]; simpl in *.
  - destruct (mNextRequestSeq l =? WAKE_EVENT_FD_SEQ); simpl in *;
      destruct (mSequenceNumberByFd l !! fd); simpl in *;
      destruct (epoll_ctl _ _ _ _ _) as [[r e] w']; simpl in *;
      (destruct (r <? 0) eqn:E; [apply Z.ltb_lt in E; lia|]); eauto.
  - destruct (Hargs eq_refl) as [-> Hid]. simpl.
    destruct (ident <? 0) eqn:E0; [apply Z.ltb_lt in E0; lia|].
    destruct (mNextRequestSeq l =? WAKE_EVENT_FD_SEQ); simpl in *;
      destruct (mSequenceNumberByFd l !! fd); simpl in *;
      destruct (epoll_ctl _ _ _ _ _) as [[r e] w']; simpl in *;
      (destruct (r <? 0) eqn:E; [apply Z.ltb_lt in E; lia|]); eauto.
Qed.

(** C8: [addFd] without a callback is rejected with [-1] and leaves the
    whole state as it was when the Looper does not allow non-callbacks or
    when [ident] is negative; [addFd] returns [1] or [-1]; when it returns
    [1] the request is stored under the new sequence number with the [ident]
    forced to [POLL_CALLBACK] if a callback was given; and it does return
    [1] when the arguments are acceptable and the kernel takes the
    registration. *)
Theorem addFd_argument_check :
  (∀ fd ident events data s,
     mAllowNonCallbacks (looper s) = false ∨ ident < 0 →
     addFd fd ident events None data s = Ok (-1) s)
  ∧ (∀ fd ident events cb data s r s',
       addFd fd ident events cb data s = Ok r s' → r = 1 ∨ r = -1)
  ∧ (∀ fd ident events cb data s s',
       mRequests (looper s) !! nextSeq (looper s) = None →
       addFd fd ident events (Some cb) data s = Ok 1 s' →
       mSequenceNumberByFd (looper s') !! fd = Some (nextSeq (looper s))
       ∧ mRequests (looper s') !! nextSeq (looper s)
         = Some (Request.mk fd POLL_CALLBACK events (Some cb) data))
  ∧ (∀ fd ident events data s s',
       mRequests (looper s) !! nextSeq (looper s) = None →
       addFd fd ident events None data s = Ok 1 s' →
       mSequenceNumberByFd (looper s') !! fd = Some (nextSeq (looper s))
       ∧ mRequests (looper s') !! nextSeq (looper s)
         = Some (Request.mk fd ident events None data))
  ∧ (∀ fd ident events cb data s,
       (cb = None → mAllowNonCallbacks (looper s) = true ∧ 0 ≤ ident) →
       0 ≤ fst (fst (epoll_ctl (mEpollFd (looper s))
                       (if mSequenceNumberByFd (looper s) !! fd is Some _
                        then EPOLL_CTL_MOD else EPOLL_CTL_ADD)
                       fd
                       (Some (createEpollEvent
                                (getEpollEvents
                                   (Request.mk fd (storedIdent ident cb) events
                                      cb data))
                                (nextSeq (looper s))))
                       (world s))) →
       ∃ s', addFd fd ident events cb data s = Ok 1 s').
Proof.
  split; [exact addFd_rejects|].
  split; [exact addFd_returns|].
  split.
  { intros fd ident events cb data s s' Hf Ha.
    exact (addFd_stores fd ident events (Some cb) data s s' Hf Ha). }
  split.
  { intros fd ident events data s s' Hf Ha.
    exact (addFd_stores fd ident events None data s s' Hf Ha). }
  exact addFd_accepts.
Qed.

(** ** removeFd *)

Lemma removeFd_absent fd s :
  mSequenceNumberByFd (looper s) !! fd = None → removeFd fd s = Ok 0 s.
Proof. intros H. unfold removeFd. run. by rewrite H. Qed.

Lemma removeFd_present fd seq request s :
  mSequenceNumberByFd (looper s) !! fd = Some seq →
  mRequests (looper s) !! seq = Some request →
  Request.fd request = fd →
  let res := removeFd fd s in
  let cr := epoll_ctl (mEpollFd (looper s)) EPOLL_CTL_DEL fd None (world s) in
  mRequests (looper (final res)) = delete seq (mRequests (looper s))
  ∧ mSequenceNumberByFd (looper (final res))
    = delete fd (mSequenceNumberByFd (looper s))
  ∧ (0 ≤ fst (fst cr) →
     res = Ok 1 (mkSys
                   (set_mSequenceNumberByFd
                      (delete fd (mSequenceNumberByFd (looper s)))
                      (set_mRequests (delete seq (mRequests (looper s)))
                         (looper s)))
                   (snd cr) (trace s)))
  ∧ (fst (fst cr) < 0 → snd (fst cr) = EBADF ∨ snd (fst cr) = ENOENT →
     mEpollRebuildRequired (looper (final res)) = true
     ∧ ((∃ s', res = Ok 1 s')
        ∨ (∃ s', res = Fatal s' ∧ mEpollRebuildRequired (looper s) = false
                 ∧ wakeFails (mkSys (looper s) (snd cr) (trace s))))).
Proof.
  intros Hfd Hseq Hreq. unfold removeFd, removeSequenceNumberLocked,
    scheduleEpollRebuildLocked, wake, wakeFails.
  destruct s as [l w t]. subst fd. run. rewrite Hfd. simpl. rewrite Hseq. simpl.
  destruct (epoll_ctl _ _ _ _ _) as [[r e] w']. simpl.
  destruct (r <? 0) eqn:Er; simpl.
  - apply Z.ltb_lt in Er.
    assert (Hcase : ((e =? EBADF) || (e =? ENOENT) = true)
                    ∨ ¬ (e = EBADF ∨ e = ENOENT)).
    { destruct (e =? EBADF) eqn:E1; [by left|].
      destruct (e =? ENOENT) eqn:E2; [by left|]. right.
      apply Z.eqb_neq in E1. apply Z.eqb_neq in E2. tauto. }
    destruct Hcase as [Ee|Hne].
    + rewrite Ee. simpl. destruct (mEpollRebuildRequired l) eqn:Ef; simpl.
      * split; [done|]. split; [done|]. split; [intros; lia|].
        intros _ _. split; [done|]. left. eauto.
      * destruct (write_u64 _ _) as [[n e'] w'']. simpl.
        destruct (n =? 8) eqn:En; simpl;
          [|destruct (e' =? EAGAIN) eqn:Eg; simpl].
        -- split; [done|]. split; [done|]. split; [intros; lia|].
           intros _ _. split; [done|]. left. eauto.
        -- split; [done|]. split; [done|]. split; [intros; lia|].
           intros _ _. split; [done|]. left. eauto.
        -- split; [done|]. split; [done|]. split; [intros; lia|].
           intros _ _. split; [done|]. right. eexists. split; [done|].
           split; [done|]. split; [by apply Z.eqb_neq|by apply Z.eqb_neq].
    + split.
      { destruct ((e =? EBADF) || (e =? ENOENT)); simpl;
          destruct (mEpollRebuildRequired l); simpl; try done;
          destruct (write_u64 _ _) as [[n e'] w'']; simpl;
          destruct (n =? 8); simpl; try done; destruct (e' =? EAGAIN); done. }
      split.
      { destruct ((e =? EBADF) || (e =? ENOENT)); simpl;
          destruct (mEpollRebuildRequired l); simpl; try done;
          destruct (write_u64 _ _) as [[n e'] w'']; simpl;
          destruct (n =? 8); simpl; try done; destruct (e' =? EAGAIN); done. }
      split; [intros; lia|]. intros _ Hc. tauto.
  - apply Z.ltb_ge in Er. split; [done|]. split; [done|].
    split; [done|]. intros; lia.
Qed.

(** ** sendMessageAtTime *)

Lemma insertionIndex_behind uptime e q :
  MessageEnvelope.uptime e ≤ uptime → insertionIndex uptime (e :: q) ≠ 0%nat.
Proof.
  intros H. simpl. destruct (uptime >=? MessageEnvelope.uptime e) eqn:E; [done|].
  rewrite Z.geb_leb in E. apply Z.leb_gt in E. lia.
Qed.

Lemma sendMessageAtTime_final uptime h m s :
  let q := mMessageEnvelopes (looper s) in
  let i := insertionIndex uptime q in
  let res := sendMessageAtTime uptime h m s in
  let wakes := negb (mSendingMessage (looper s)) && (i =? 0)%nat in
  let s1 := mkSys (set_mMessageEnvelopes
                     (insertAt (MessageEnvelope.mk uptime h m) i q) (looper s))
              (world s) (trace s) in
  mMessageEnvelopes (looper (final res))
  = insertAt (MessageEnvelope.mk uptime h m) i q
  ∧ trace (final res) = trace s ++ (if wakes then [EvWake] else [])
  ∧ (wakes = false → res = Ok tt s1)
  ∧ (wakes = true → res = wake s1
                    ∧ ((∃ s', res = Ok tt s') ∨ wakeFails s1)).
Proof.
  unfold sendMessageAtTime, wake, wakeFails. destruct s as [l w t]. run.
  destruct (mSendingMessage l); simpl.
  { split; [done|]. split; [by rewrite app_nil_r|]. split; done. }
  destruct (insertionIndex uptime (mMessageEnvelopes l) =? 0)%nat; simpl.
  - destruct (write_u64 _ _) as [[n e] w']. simpl.
    destruct (n =? 8) eqn:En; simpl;
      [|destruct (e =? EAGAIN) eqn:Ee; simpl].
    + split; [done|]. split; [done|]. split; [done|]. intros _.
      split; [done|]. left; eauto.
    + split; [done|]. split; [done|]. split; [done|]. intros _.
      split; [done|]. left; eauto.
    + split; [done|]. split; [done|]. split; [done|]. intros _.
      split; [done|]. right. split; by apply Z.eqb_neq.
  - split; [done|]. split; [by rewrite app_nil_r|]. split; done.
Qed.

(** C6: [sendMessageAtTime] inserts the envelope at the index found by the
    scan; it calls [wake] exactly when the Looper is not sending a message
    and that index is [0]; in every other case it returns at once, and an
    envelope that goes behind a head with an earlier or equal deadline adds
    no [wake]. *)
Theorem sendMessageAtTime_wakes :
  ∀ uptime h m s,
    let q := mMessageEnvelopes (looper s) in
    let i := insertionIndex uptime q in
    let res := sendMessageAtTime uptime h m s in
    let wakes := negb (mSendingMessage (looper s)) && (i =? 0)%nat in
    let s1 := mkSys (set_mMessageEnvelopes
                       (insertAt (MessageEnvelope.mk uptime h m) i q)
                       (looper s))
                (world s) (trace s) in
    mMessageEnvelopes (looper (final res))
    = insertAt (MessageEnvelope.mk uptime h m) i q
    ∧ trace (final res) = trace s ++ (if wakes then [EvWake] else [])
    ∧ (wakes = false → res = Ok tt s1)
    ∧ (wakes = true → res = wake s1
                      ∧ ((∃ s', res = Ok tt s') ∨ wakeFails s1))
    ∧ (mSendingMessage (looper s) = true → wakes = false)
    ∧ (∀ e q', q = e :: q' → MessageEnvelope.uptime e ≤ uptime →
               wakes = false).
Proof.
  intros uptime h m s q i res wakes s1.
  destruct (sendMessageAtTime_final uptime h m s) as (H1 & H2 & H3 & H4).
  split; [exact H1|]. split; [exact H2|]. split; [exact H3|].
  split; [exact H4|]. split.
  - subst wakes. by intros ->.
  - intros e q' Hq Hle. subst wakes i. rewrite Hq.
    pose proof (insertionIndex_behind uptime e q' Hle) as Hi.
    destruct (insertionIndex uptime (e :: q')); [done|].
    by rewrite andb_false_r.
Qed.

End Operations.

Section Queue.
Context {PF : Platform} {UC : UserCode} {TM : Timers}.

(** ** The message queue *)

Lemma enqueue_nil e : enqueue e [] = [e].
Proof. done. Qed.

Lemma enqueue_cons e x q :
  enqueue e (x :: q)
  = if MessageEnvelope.uptime e >=? MessageEnvelope.uptime x
    then x :: enqueue e q
    else e :: x :: q.
Proof.
  unfold enqueue, insertAt. simpl.
  by destruct (MessageEnvelope.uptime e >=? MessageEnvelope.uptime x).
Qed.

Lemma insertionIndex_le t q : (insertionIndex t q ≤ length q)%nat.
Proof.
  induction q as [|x q IH]; simpl; [lia|].
  destruct (t >=? MessageEnvelope.uptime x); simpl; lia.
Qed.

Lemma insertionIndex_before t q e :
  e ∈ take (insertionIndex t q) q → MessageEnvelope.uptime e ≤ t.
Proof.
  induction q as [|x q IH]; simpl; [by rewrite elem_of_nil|].
  destruct (t >=? MessageEnvelope.uptime x) eqn:E; simpl.
  - rewrite elem_of_cons. intros [->|H]; [|by apply IH].
    rewrite Z.geb_leb in E. by apply Z.leb_le.
  - by rewrite elem_of_nil.
Qed.

Lemma insertionIndex_at t q e :
  q !! insertionIndex t q = Some e → t < MessageEnvelope.uptime e.
Proof.
  induction q as [|x q IH]; simpl; [done|].
  destruct (t >=? MessageEnvelope.uptime x) eqn:E; simpl; [done|].
  intros [= ->]. rewrite Z.geb_leb in E. by apply Z.leb_gt.
Qed.

Lemma enqueue_elem e q x : x ∈ enqueue e q ↔ x = e ∨ x ∈ q.
Proof.
  unfold enqueue, insertAt. rewrite elem_of_app, elem_of_cons.
  assert (x ∈ q ↔ x ∈ take (insertionIndex (MessageEnvelope.uptime e) q) q
                  ∨ x ∈ drop (insertionIndex (MessageEnvelope.uptime e) q) q)
    as ->; [|tauto].
  by rewrite <- elem_of_app, take_drop.
Qed.

Lemma enqueue_sorted e q : sortedQueue q → sortedQueue (enqueue e q).
Proof.
  unfold sortedQueue. induction q as [|x q IH]; intros Hs.
  - rewrite enqueue_nil. simpl. repeat constructor.
  - rewrite enqueue_cons. simpl in Hs. apply StronglySorted_inv in Hs as [Hq Hx].
    destruct (MessageEnvelope.uptime e >=? MessageEnvelope.uptime x) eqn:E.
    + rewrite Z.geb_leb in E. apply Z.leb_le in E. simpl.
      constructor; [by apply IH|].
      apply Forall_forall. intros t Ht. apply list_elem_of_fmap in Ht as (y & -> & Hy).
      apply enqueue_elem in Hy as [->|Hy]; [done|].
      rewrite Forall_forall in Hx. apply Hx. apply list_elem_of_fmap. eauto.
    + rewrite Z.geb_leb in E. apply Z.leb_gt in E. simpl.
      constructor; [by constructor|].
      constructor; [lia|]. eapply Forall_impl; [exact Hx|]. simpl. intros; lia.
Qed.

Lemma atDeadline_later t q :
  Forall (λ u, t < u) (map MessageEnvelope.uptime q) → atDeadline t q = [].
Proof.
  induction q as [|x q IH]; simpl; [done|]. intros H.
  apply Forall_cons in H as [Hx Hq].
  destruct (MessageEnvelope.uptime x =? t) eqn:E; [apply Z.eqb_eq in E; lia|].
  by apply IH.
Qed.

Lemma enqueue_stable t e q :
  sortedQueue q →
  atDeadline t (enqueue e q)
  = atDeadline t q ++ (if MessageEnvelope.uptime e =? t then [e] else []).
Proof.
  unfold sortedQueue. induction q as [|x q IH]; intros Hs.
  - rewrite enqueue_nil. simpl. by destruct (_ =? _).
  - rewrite enqueue_cons. simpl in Hs. apply StronglySorted_inv in Hs as [Hq Hx].
    destruct (MessageEnvelope.uptime e >=? MessageEnvelope.uptime x) eqn:E.
    + simpl. rewrite (IH Hq). by destruct (MessageEnvelope.uptime x =? t).
    + rewrite Z.geb_leb in E. apply Z.leb_gt in E.
      change (atDeadline t (e :: x :: q))
        with (if MessageEnvelope.uptime e =? t
              then e :: atDeadline t (x :: q) else atDeadline t (x :: q)).
      destruct (MessageEnvelope.uptime e =? t) eqn:Et.
      * apply Z.eqb_eq in Et. rewrite (atDeadline_later t (x :: q)); [done|].
        simpl. constructor; [lia|]. eapply Forall_impl; [exact Hx|].
        simpl. intros; lia.
      * by rewrite app_nil_r.
Qed.

(** A run of enqueues, as a function on queues. *)
Lemma sendMessageAtTime_queue uptime h m s :
  mMessageEnvelopes (looper (final (sendMessageAtTime uptime h m s)))
  = enqueue (MessageEnvelope.mk uptime h m) (mMessageEnvelopes (looper s)).
Proof. by destruct (sendMessageAtTime_final uptime h m s) as [H _]. Qed.

Lemma sendMessagesAtTime_queue es s s' :
  sendMessagesAtTime es s = Ok tt s' →
  mMessageEnvelopes (looper s')
  = foldl (λ q e, enqueue e q) (mMessageEnvelopes (looper s)) es.
Proof.
  revert s. induction es as [|e es IH]; intros s; simpl.
  - by intros [= <-].
  - intros H. apply bind_Ok in H as ([] & s1 & H1 & H2).
    rewrite (IH _ H2). f_equal.
    pose proof (sendMessageAtTime_queue (MessageEnvelope.uptime e)
                  (MessageEnvelope.handler e) (MessageEnvelope.message e) s) as Hq.
    rewrite H1 in Hq. simpl in Hq. rewrite Hq. by destruct e.
Qed.

Lemma foldl_enqueue_sorted es q :
  sortedQueue q → sortedQueue (foldl (λ q e, enqueue e q) q es).
Proof.
  revert q. induction es as [|e es IH]; intros q Hq; simpl; [done|].
  apply IH. by apply enqueue_sorted.
Qed.

Lemma foldl_enqueue_stable t es q :
  sortedQueue q →
  atDeadline t (foldl (λ q e, enqueue e q) q es)
  = atDeadline t q ++ atDeadline t es.
Proof.
  revert q. induction es as [|e es IH]; intros q Hq; simpl.
  - by rewrite app_nil_r.
  - rewrite IH by (by apply enqueue_sorted). rewrite enqueue_stable by done.
    rewrite <- app_assoc. by destruct (MessageEnvelope.uptime e =? t).
Qed.

(** Enqueues complete when the writes on the wake descriptor do. *)
Lemma sendMessagesAtTime_returns es s :
  (∀ fd w, fst (fst (write_u64 fd w)) = 8) →
  ∃ s', sendMessagesAtTime es s = Ok tt s'.
Proof.
  intros Hw. revert s. induction es as [|e es IH]; intros s; simpl.
  - by eexists.
  - destruct (sendMessageAtTime_final (MessageEnvelope.uptime e)
                (MessageEnvelope.handler e) (MessageEnvelope.message e) s)
      as (_ & _ & Hno & Hyes).
    destruct (negb (mSendingMessage (looper s))
              && (insertionIndex (MessageEnvelope.uptime e)
                    (mMessageEnvelopes (looper s)) =? 0)%nat) eqn:E.
    + destruct (Hyes eq_refl) as [_ [[s1 H1]|Hf]].
      * rewrite (bind_Ok_intro _ _ _ _ _ H1). apply IH.
      * destruct Hf as [Hf _]. simpl in Hf. by rewrite Hw in Hf.
    + rewrite (bind_Ok_intro _ _ _ _ _ (Hno eq_refl)). apply IH.
Qed.

End Queue.

Section Wait.
Context {PF : Platform} {UC : UserCode} {TM : Timers}.

(** ** The wait phase of the inner poll *)

Lemma set_mResponses_id l : set_mResponses (mResponses l) l = l.
Proof. by destruct l. Qed.

Lemma nearestTimeout_code t m :
  (if (0 <=? m) && ((t <? 0) || (m <? t)) then m else t) = nearestTimeout t m.
Proof.
  unfold nearestTimeout.
  destruct (0 <=? m) eqn:E1, (m <? 0) eqn:E2, (t <? 0) eqn:E3,
    (m <? t) eqn:E4; simpl; try done; lia.
Qed.

Lemma adjustTimeout_Ok t s :
  ∃ w, adjustTimeout t s
       = Ok (effectiveTimeout t (mNextMessageUptime (looper s))
               (fst (systemTime (world s))))
           (mkSys (looper s) w (trace s)).
Proof.
  unfold adjustTimeout, effectiveTimeout. destruct s as [l w tr]. run.
  destruct (t =? 0) eqn:E; simpl; [apply Z.eqb_eq in E; subst; by eexists|].
  destruct (mNextMessageUptime l =? LLONG_MAX); simpl; [by eexists|].
  destruct (systemTime w) as [now w']. simpl.
  rewrite <- nearestTimeout_code.
  destruct ((0 <=? _) && _); by eexists.
Qed.

Lemma handleItem_Ok item s :
  ∃ w tr,
    handleItem item s
    = Ok tt (mkSys
               (set_mResponses
                  (mResponses (looper s)
                   ++ option_list (responseOf (mRequests (looper s)) item))
                  (looper s))
               w (trace s ++ tr))
    ∧ Forall isKernelEvent tr.
Proof.
  unfold handleItem, responseOf, awoken. destruct s as [l w tr]. run.
  destruct (ee_u64 item =? WAKE_EVENT_FD_SEQ); simpl.
  - rewrite app_nil_r, set_mResponses_id.
    destruct (Z.land (ee_events item) EPOLLIN =? 0); simpl.
    + exists w, []. by rewrite app_nil_r.
    + eexists _, [EvAwoken]. split; [done|]. by repeat constructor.
  - destruct (mRequests l !! ee_u64 item); simpl.
    + exists w, []. by rewrite app_nil_r.
    + exists w, []. by rewrite !app_nil_r, set_mResponses_id.
Qed.

Lemma handleItems_Ok items s :
  ∃ w tr,
    handleItems items s
    = Ok tt (mkSys
               (set_mResponses
                  (mResponses (looper s)
                   ++ omap (responseOf (mRequests (looper s))) items)
                  (looper s))
               w (trace s ++ tr))
    ∧ Forall isKernelEvent tr.
Proof.
  revert s. induction items as [|item items IH]; intros s; simpl.
  - exists (world s), []. rewrite !app_nil_r, set_mResponses_id.
    by destruct s.
  - destruct (handleItem_Ok item s) as (w1 & tr1 & H1 & HP1).
    rewrite (bind_Ok_intro _ _ _ _ _ H1).
    destruct (IH (mkSys
               (set_mResponses
                  (mResponses (looper s)
                   ++ option_list (responseOf (mRequests (looper s)) item))
                  (looper s)) w1 (trace s ++ tr1))) as (w2 & tr2 & H2 & HP2).
    rewrite H2. simpl. exists w2, (tr1 ++ tr2). split.
    + f_equal. f_equal; [|by rewrite app_assoc].
      destruct (responseOf (mRequests (looper s)) item); simpl;
        by rewrite <- app_assoc.
    + by apply Forall_app.
Qed.

Ltac epollFd_side :=
  first
    [ exact I
    | by (intros ? (x & ->); eexists)
    | by (intros ? ? (x & ->); eexists) ].

Lemma rebuildRequests_sound l0 rs :
  sound (upToEpollFd l0) isKernelEvent (rebuildRequests rs).
Proof.
  induction rs as [|[seq request] rs IH]; simpl.
  - apply sound_ret.
  - repeat first [apply IH | sound_step epollFd_side].
Qed.

Lemma rebuildEpollLocked_sound l0 :
  sound (upToEpollFd l0) isKernelEvent rebuildEpollLocked.
Proof.
  unfold rebuildEpollLocked.
  repeat first [apply rebuildRequests_sound | sound_step epollFd_side].
Qed.

Lemma set_mEpollRebuildRequired_id l :
  mEpollRebuildRequired l = false → set_mEpollRebuildRequired false l = l.
Proof. destruct l. simpl. by intros ->. Qed.

Lemma set_mEpollFd_id l : set_mEpollFd (mEpollFd l) l = l.
Proof. by destruct l. Qed.

Lemma pollWait_final t s :
  let waited := fst (epoll_wait (mEpollFd (looper s)) t (world s)) in
  let flag := mEpollRebuildRequired (looper s) in
  ∃ tr,
    trace (final (pollWait t s)) = trace s ++ EvEpollWait t waited :: tr
    ∧ Forall isKernelEvent tr
    ∧ ∀ r s', pollWait t s = Ok r s' →
        r = classify flag waited
        ∧ ∃ x, looper s'
               = set_mEpollFd x
                   (set_mEpollRebuildRequired false
                      (set_mPolling false
                         (set_mResponseIndex 0
                            (set_mResponses
                               (responsesOf flag waited (mRequests (looper s)))
                               (looper s))))).
Proof.
  unfold pollWait, classify, responsesOf. destruct s as [l w tr]. run.
  destruct (epoll_wait (mEpollFd l) t w) as [waited w1]. simpl.
  destruct (mEpollRebuildRequired l) eqn:Ef; simpl.
  - match goal with
    | |- context [rebuildEpollLocked ?s0] =>
        pose proof (rebuildEpollLocked_sound (looper s0) s0) as Hr
    end.
    destruct Hr as [(tr1 & Ht1 & HP1) Hok1]; [by eexists|].
    simpl in *. destruct (rebuildEpollLocked _) as [[] s1|s1|s1] eqn:Er;
      simpl in *; exists tr1; rewrite Ht1, <- app_assoc; simpl;
      (split; [done|]); (split; [done|]); try done.
    intros r s' [= <- <-]. split; [done|].
    destruct (Hok1 tt s1 eq_refl) as [x Hx]. exists x. by rewrite Hx.
  - destruct waited as [errno|items]; simpl.
    + exists []. split; [by destruct (errno =? EINTR)|]. split; [done|].
      intros r s' Hr. destruct (errno =? EINTR); simplify_eq; simpl;
        (split; [done|]); exists (mEpollFd l); destruct l; simpl in *; by subst.
    + destruct items as [|item items].
      * simpl. exists []. split; [done|]. split; [done|].
        intros r s' [= <- <-]. split; [done|].
        exists (mEpollFd l); destruct l; simpl in *; by subst.
      * change (eventCount (item :: items) =? 0) with false. cbv iota beta.
        match goal with
        | |- context [handleItems ?its ?s0] =>
            destruct (handleItems_Ok its s0) as (w2 & tr2 & H2 & HP2)
        end.
        rewrite H2. simpl. exists tr2. rewrite <- app_assoc. simpl.
        split; [done|]. split; [done|].
        intros r s' [= <- <-]. split; [done|].
        exists (mEpollFd l); destruct l; simpl in *; by subst.
Qed.

End Wait.

Section Dispatch.
Context {PF : Platform} {UC : UserCode} {TM : Timers}.

(** ** Dispatch *)

Lemma runUser_final code s :
  ∃ tr, trace (final (runUser code s)) = trace s ++ tr ∧ Forall isApiEvent tr.
Proof. by eapply triple_final; [apply (runUser_framed (pollState (looper s)))|]. Qed.

Lemma runUser_Ok code s r s' :
  runUser code s = Ok r s' →
  pollState (looper s') = pollState (looper s)
  ∧ ∃ tr, trace s' = trace s ++ tr ∧ Forall isApiEvent tr.
Proof.
  intros E.
  destruct (triple_Ok _ _ _ _ _ _ _
              (runUser_framed (pollState (looper s)) code) eq_refl E) as [Ht Hp].
  done.
Qed.

Lemma wake_is_api e : isWakeEvent e → isApiEvent e.
Proof. by destruct e. Qed.

Lemma removeSequenceNumberLocked_final seq s :
  ∃ tr, trace (final (removeSequenceNumberLocked seq s)) = trace s ++ tr
        ∧ Forall isWakeEvent tr.
Proof.
  by eapply triple_final;
    [apply (removeSequenceNumberLocked_framed (pollState (looper s)))|].
Qed.

Lemma removeSequenceNumberLocked_Ok seq s r s' :
  removeSequenceNumberLocked seq s = Ok r s' →
  pollState (looper s') = pollState (looper s)
  ∧ ∃ tr, trace s' = trace s ++ tr ∧ Forall isWakeEvent tr.
Proof.
  intros E.
  destruct (triple_Ok _ _ _ _ _ _ _
              (removeSequenceNumberLocked_framed (pollState (looper s)) seq)
              eq_refl E) as [Ht Hp].
  done.
Qed.

Lemma existsb_isDispatch_api tr :
  Forall isApiEvent tr → existsb isDispatch tr = false.
Proof.
  induction 1 as [|e tr He _ IH]; simpl; [done|].
  rewrite IH. by destruct e.
Qed.

Lemma api_is_drain e : isApiEvent e → isDrainEvent e.
Proof. by destruct e. Qed.

Lemma pollState_mResponses l l' :
  pollState l' = pollState l →
  mResponses l' = mResponses l ∧ mResponseIndex l' = mResponseIndex l.
Proof. destruct l, l'. unfold pollState. simpl. by intros [= -> -> -> -> -> -> -> ->]. Qed.

(** The drain of the message queue: its actions, its result and the
    responses, which it leaves alone. *)
Lemma drainMessages_spec fuel : ∀ result s,
  ∃ tr,
    trace (final (drainMessages fuel result s)) = trace s ++ tr
    ∧ Forall isDrainEvent tr
    ∧ ∀ r s', drainMessages fuel result s = Ok r s' →
        r = (if existsb isDispatch tr then POLL_CALLBACK else result)
        ∧ mResponses (looper s') = mResponses (looper s)
        ∧ mResponseIndex (looper s') = mResponseIndex (looper s).
Proof.
  induction fuel as [|fuel IH]; intros result s; simpl.
  { exists []. rewrite app_nil_r. done. }
  destruct s as [l w t]. run.
  destruct (mMessageEnvelopes l) as [|e rest] eqn:Eq; simpl.
  { exists []. rewrite app_nil_r. split; [done|]. split; [done|].
    by intros r s' [= <- <-]. }
  destruct (systemTime w) as [now w1]. simpl.
  destruct (MessageEnvelope.uptime e <=? now); simpl.
  - match goal with
    | |- context [runUser ?c ?s0] =>
        pose proof (runUser_final c s0) as (tru & Htu & HPu);
        pose proof (runUser_Ok c s0) as Hok;
        destruct (runUser c s0) as [ru su|su|su] eqn:Eu
    end; simpl in *.
    + destruct (Hok _ _ eq_refl) as [Hp _]. apply pollState_mResponses in Hp as [Hp1 Hp2].
      simpl in *.
      destruct (IH POLL_CALLBACK
                  (mkSys (set_mSendingMessage false (looper su)) (world su)
                     (trace su))) as (tr2 & Ht2 & HP2 & Hok2).
      simpl in *.
      exists (EvHandleMessage (MessageEnvelope.handler e)
                (MessageEnvelope.message e) :: tru ++ tr2).
      split; [rewrite Ht2, Htu, <- !app_assoc; done|].
      split.
      { constructor; [done|]. apply Forall_app. split; [|done].
        eapply Forall_impl; [exact HPu|apply api_is_drain]. }
      intros r s' E. destruct (Hok2 r s' E) as (-> & Hr1 & Hr2). simpl.
      split; [by destruct (existsb isDispatch tr2)|].
      by rewrite Hr1, Hr2.
    + exists (EvHandleMessage (MessageEnvelope.handler e)
                (MessageEnvelope.message e) :: tru).
      split; [rewrite Htu, <- !app_assoc; done|]. split; [|done].
      constructor; [done|]. eapply Forall_impl; [exact HPu|apply api_is_drain].
    + exists (EvHandleMessage (MessageEnvelope.handler e)
                (MessageEnvelope.message e) :: tru).
      split; [rewrite Htu, <- !app_assoc; done|]. split; [|done].
      constructor; [done|]. eapply Forall_impl; [exact HPu|apply api_is_drain].
  - exists []. rewrite app_nil_r. split; [done|]. split; [done|].
    by intros r s' [= <- <-].
Qed.

Lemma api_is_callback qs e : isApiEvent e → isCallbackEventOf qs e.
Proof. by destruct e. Qed.

Lemma seq_insert_clear rs i r :
  rs !! i = Some r →
  map Response.seq (<[i := clearCallback r]> rs) = map Response.seq rs.
Proof.
  revert i. induction rs as [|x rs IH]; intros [|i] H; simpl in *; try done.
  - by simplify_eq.
  - f_equal. by apply IH.
Qed.

Lemma filter_insert_clear rs i r :
  rs !! i = Some r → isIdent r = false →
  List.filter isIdent (<[i := clearCallback r]> rs) = List.filter isIdent rs.
Proof.
  revert i. induction rs as [|x rs IH]; intros [|i] H Hr; simpl in *; try done.
  - simplify_eq. unfold isIdent in *. simpl. by rewrite Hr.
  - destruct (isIdent x); [f_equal|]; by apply IH.
Qed.

(** The delivery of the responses to callbacks: its actions, its result and
    what it leaves of the responses. *)
Lemma invokeCallbacks_spec n : ∀ i result s,
  ∃ tr,
    trace (final (invokeCallbacks n i result s)) = trace s ++ tr
    ∧ Forall (isCallbackEventOf (map Response.seq (mResponses (looper s)))) tr
    ∧ ∀ r s', invokeCallbacks n i result s = Ok r s' →
        r = (if existsb isDispatch tr then POLL_CALLBACK else result)
        ∧ List.filter isIdent (mResponses (looper s'))
          = List.filter isIdent (mResponses (looper s))
        ∧ map Response.seq (mResponses (looper s'))
          = map Response.seq (mResponses (looper s))
        ∧ mResponseIndex (looper s') = mResponseIndex (looper s).
Proof.
  induction n as [|n IH]; intros i result s; simpl.
  { exists []. rewrite app_nil_r. split; [done|]. split; [done|].
    by intros r s' [= <- <-]. }
  destruct s as [l w t]. run.
  destruct (mResponses l !! i) as [response|] eqn:Er; simpl.
  2:{ exists []. rewrite app_nil_r. split; [done|]. split; [done|].
      by intros r s' [= <- <-]. }
  destruct (Request.ident (Response.request response) =? POLL_CALLBACK) eqn:Ei.
  2:{ exact (IH (S i) result (mkSys l w t)). }
  destruct (Request.callback (Response.request response)) as [cb|]; simpl.
  2:{ exists []. rewrite app_nil_r. done. }
  assert (Hin : Response.seq response ∈ map Response.seq (mResponses l)).
  { apply list_elem_of_fmap. exists response. split; [done|].
    apply list_elem_of_lookup. eauto. }
  assert (Hid : isIdent response = false).
  { unfold isIdent. apply Z.eqb_eq in Ei. rewrite Ei. done. }
  set (ev := EvHandleEvent (Response.seq response) cb
               (Request.fd (Response.request response))
               (Response.events response)
               (Request.data (Response.request response))).
  match goal with
  | |- context [runUser ?c ?s0] =>
      pose proof (runUser_final c s0) as (tru & Htu & HPu);
      pose proof (runUser_Ok c s0) as Hok;
      destruct (runUser c s0) as [ru su|su|su] eqn:Eu
  end; simpl in *.
  2,3: exists (ev :: tru); (split; [rewrite Htu, <- !app_assoc; done|]);
       (split; [|done]); (constructor; [done|]);
       (eapply Forall_impl; [exact HPu|apply api_is_callback]).
  destruct (Hok _ _ eq_refl) as [Hp _].
  apply pollState_mResponses in Hp as [Hp1 Hp2]. simpl in *.
  assert (Hrest : ∀ s1 trr,
    mResponses (looper s1) = mResponses l →
    mResponseIndex (looper s1) = mResponseIndex l →
    trace s1 = trace su ++ trr → Forall isApiEvent trr →
    ∃ tr,
      trace (final (invokeCallbacks n (S i) POLL_CALLBACK
                      (mkSys
                         (set_mResponses
                            (<[i := clearCallback response]> (mResponses (looper s1)))
                            (looper s1))
                         (world s1) (trace s1))))
      = t ++ tr
      ∧ Forall (isCallbackEventOf (map Response.seq (mResponses l))) tr
      ∧ ∀ r s',
          invokeCallbacks n (S i) POLL_CALLBACK
            (mkSys
               (set_mResponses
                  (<[i := clearCallback response]> (mResponses (looper s1)))
                  (looper s1))
               (world s1) (trace s1)) = Ok r s' →
          r = (if existsb isDispatch tr then POLL_CALLBACK else result)
          ∧ List.filter isIdent (mResponses (looper s'))
            = List.filter isIdent (mResponses l)
          ∧ map Response.seq (mResponses (looper s'))
            = map Response.seq (mResponses l)
          ∧ mResponseIndex (looper s') = mResponseIndex l).
  { intros s1 trr Hr1 Hr2 Hts HPr.
    destruct (IH (S i) POLL_CALLBACK
                (mkSys
                   (set_mResponses
                      (<[i := clearCallback response]> (mResponses (looper s1)))
                      (looper s1))
                   (world s1) (trace s1))) as (tr2 & Ht2 & HP2 & Hok2).
    simpl in *. rewrite Hr1 in *. rewrite (seq_insert_clear _ _ _ Er) in *.
    exists (ev :: tru ++ trr ++ tr2). split.
    { rewrite Ht2, Hts, Htu, <- !app_assoc. done. }
    split.
    { constructor; [done|]. apply Forall_app. split.
      { eapply Forall_impl; [exact HPu|apply api_is_callback]. }
      apply Forall_app. split; [|done].
      eapply Forall_impl; [exact HPr|apply api_is_callback]. }
    intros r s' E. destruct (Hok2 r s' E) as (-> & Hf & Hs & Hi). simpl.
    split; [by destruct (existsb isDispatch _)|].
    rewrite Hf, Hs, Hi, (filter_insert_clear _ _ _ Er Hid). done. }
  destruct (ru =? 0).
  - pose proof (removeSequenceNumberLocked_final (Response.seq response) su)
      as (trr & Htr & HPr).
    pose proof (Forall_impl _ _ _ HPr wake_is_api) as HPr'. clear HPr.
    rename HPr' into HPr.
    pose proof (removeSequenceNumberLocked_Ok (Response.seq response) su) as Hokr.
    destruct (removeSequenceNumberLocked (Response.seq response) su)
      as [rr sr|sr|sr] eqn:Err; simpl in *.
    2,3: exists (ev :: tru ++ trr);
         (split; [rewrite Htr, Htu, <- !app_assoc; done|]);
         (split; [|done]); (constructor; [done|]);
         apply Forall_app; split;
         (eapply Forall_impl; [eassumption|apply api_is_callback]).
    destruct (Hokr _ _ eq_refl) as [Hpr _].
    apply pollState_mResponses in Hpr as [Hpr1 Hpr2].
    apply (Hrest sr trr); congruence.
  - apply (Hrest su []); [done|done|by rewrite app_nil_r|done].
Qed.

Lemma kernel_is_inner qs e : isKernelEvent e → isInnerEventOf qs e.
Proof. by destruct e. Qed.

Lemma drain_is_inner qs e : isDrainEvent e → isInnerEventOf qs e.
Proof. by destruct e. Qed.

Lemma callback_is_inner qs e : isCallbackEventOf qs e → isInnerEventOf qs e.
Proof. by destruct e. Qed.

Lemma existsb_isDispatch_kernel tr :
  Forall isKernelEvent tr → existsb isDispatch tr = false.
Proof.
  induction 1 as [|e tr He _ IH]; simpl; [done|].
  rewrite IH. by destruct e.
Qed.

(** The inner poll as a whole. *)
Lemma pollInner_spec fuel t s :
  let l := looper s in
  let flag := mEpollRebuildRequired l in
  let passed := effectiveTimeout t (mNextMessageUptime l)
                  (fst (systemTime (world s))) in
  ∃ waited tr,
    trace (final (pollInner fuel t s))
    = trace s ++ EvEpollWait passed waited :: tr
    ∧ Forall (isInnerEventOf
                (map Response.seq (responsesOf flag waited (mRequests l)))) tr
    ∧ ∀ r s', pollInner fuel t s = Ok r s' →
        r = (if existsb isDispatch tr then POLL_CALLBACK
             else classify flag waited)
        ∧ pending (looper s')
          = List.filter isIdent (responsesOf flag waited (mRequests l))
        ∧ mResponseIndex (looper s') = 0%nat.
Proof.
  intros l flag passed. unfold pollInner.
  destruct (adjustTimeout_Ok t s) as [w1 Ha].
  rewrite (bind_Ok_intro _ _ _ _ _ Ha). fold l passed.
  set (s1 := mkSys l w1 (trace s)).
  destruct (pollWait_final passed s1) as (tr1 & Ht1 & HP1 & Hok1).
  simpl in Ht1, Hok1. fold flag in Hok1.
  set (waited := (epoll_wait (mEpollFd l) passed w1).1) in *.
  set (qs := map Response.seq (responsesOf flag waited (mRequests l))).
  exists waited. unfold bind, modL, getL.
  destruct (pollWait passed s1) as [r0 s2|s2|s2] eqn:Ew; simpl in Ht1.
  2,3: by (exists tr1; split; [done|]; split; [|done];
           eapply Forall_impl; [exact HP1|apply kernel_is_inner]).
  destruct (Hok1 r0 s2 eq_refl) as (-> & x & Hl2).
  set (s3 := mkSys (set_mNextMessageUptime LLONG_MAX (looper s2)) (world s2)
               (trace s2)).
  destruct (drainMessages_spec fuel (classify flag waited) s3)
    as (tr2 & Ht2 & HP2 & Hok2).
  destruct (drainMessages fuel (classify flag waited) s3) as [r1 s4|s4|s4]
    eqn:Ed; simpl in Ht2.
  2,3: by (exists (tr1 ++ tr2); split;
           [simpl; rewrite Ht2, Ht1, <- app_assoc; done|];
           split; [|done]; apply Forall_app; split;
           [eapply Forall_impl; [exact HP1|apply kernel_is_inner]
           |eapply Forall_impl; [exact HP2|apply drain_is_inner]]).
  destruct (Hok2 r1 s4 eq_refl) as (-> & Hr4 & Hi4).
  subst s3. simpl in Hr4, Hi4, Ht2. rewrite Hl2 in Hr4, Hi4. simpl in Hr4, Hi4.
  destruct (invokeCallbacks_spec (length (mResponses (looper s4))) 0
              (if existsb isDispatch tr2 then POLL_CALLBACK
               else classify flag waited) s4) as (tr3 & Ht3 & HP3 & Hok3).
  rewrite Hr4 in HP3. fold qs in HP3.
  exists (tr1 ++ tr2 ++ tr3). split.
  { rewrite Ht3, Ht2, Ht1, <- !app_assoc. done. }
  split.
  { apply Forall_app. split.
    { eapply Forall_impl; [exact HP1|apply kernel_is_inner]. }
    apply Forall_app. split.
    { eapply Forall_impl; [exact HP2|apply drain_is_inner]. }
    eapply Forall_impl; [exact HP3|apply callback_is_inner]. }
  intros r s' E. destruct (Hok3 r s' E) as (-> & Hf & _ & Hi).
  rewrite !existsb_app, (existsb_isDispatch_kernel tr1 HP1). simpl.
  split; [by destruct (existsb isDispatch tr2), (existsb isDispatch tr3)|].
  unfold pending. rewrite Hi, Hi4, drop_0, Hf, Hr4. done.
Qed.

End Dispatch.

Section PollOnce.
Context {PF : Platform} {UC : UserCode} {TM : Timers}.

(** ** pollOnce *)

Lemma set_mResponseIndex_id l : set_mResponseIndex (mResponseIndex l) l = l.
Proof. by destruct l. Qed.

Lemma pending_set_index k l :
  pending (set_mResponseIndex k l) = List.filter isIdent (drop k (mResponses l)).
Proof. done. Qed.

(** The replay loop: it returns the first pending response and steps past
    it, or finds none and leaves the index at the end. *)
Lemma replayResponses_spec n : ∀ s,
  n = (length (mResponses (looper s)) - mResponseIndex (looper s))%nat →
  ∃ k,
    replayResponses n s
    = Ok (deliver <$> head (pending (looper s)))
        (mkSys (set_mResponseIndex k (looper s)) (world s) (trace s))
    ∧ pending (set_mResponseIndex k (looper s)) = tail (pending (looper s))
    ∧ (pending (looper s) = [] → (length (mResponses (looper s)) ≤ k)%nat).
Proof.
  induction n as [|n IH]; intros s Hn; simpl.
  - exists (mResponseIndex (looper s)). rewrite set_mResponseIndex_id.
    unfold pending. rewrite drop_ge by lia. simpl. split; [by destruct s|].
    split; [done|]. intros _. lia.
  - destruct s as [l w t]. run.
    destruct (mResponses l !! mResponseIndex l) as [response|] eqn:Er.
    2:{ apply lookup_ge_None in Er. lia. }
    unfold pending at 1 3 4. rewrite (drop_S _ _ _ Er). simpl.
    fold (isIdent response).
    destruct (isIdent response) eqn:Ei; simpl.
    + exists (S (mResponseIndex l)). split; [done|]. split; [done|]. done.
    + destruct (IH (mkSys (set_mResponseIndex (S (mResponseIndex l)) l) w t))
        as (k & Hk & Hp & Hl); [simpl; lia|].
      simpl in *. exists k. rewrite Hk. split; [done|]. split; [done|]. done.
Qed.

Lemma classify_nonzero flag waited : classify flag waited ≠ 0.
Proof.
  unfold classify. destruct flag; [done|].
  destruct waited as [e|[|]]; [by destruct (e =? EINTR)|done|done].
Qed.

Lemma classify_codes flag waited :
  classify flag waited ∈ [POLL_WAKE; POLL_ERROR; POLL_TIMEOUT].
Proof.
  unfold classify. rewrite !elem_of_cons.
  destruct flag; [tauto|].
  destruct waited as [e|[|]]; [destruct (e =? EINTR)|..]; tauto.
Qed.

(** One call of [pollOnce] with a response pending. *)
Lemma pollOnce_pending fuel t s r rest :
  pending (looper s) = r :: rest →
  ∃ k,
    pollOnce (S fuel) t s
    = Ok (deliver r) (mkSys (set_mResponseIndex k (looper s)) (world s) (trace s))
    ∧ pending (set_mResponseIndex k (looper s)) = rest.
Proof.
  intros Hp. unfold pollOnce. simpl. unfold bind at 1. unfold getL at 1.
  destruct (replayResponses_spec _ s eq_refl) as (k & Hk & Hpk & _).
  rewrite (bind_Ok_intro _ _ _ _ _ Hk). rewrite Hp in *. simpl in *.
  exists k. done.
Qed.

(** One call of [pollOnce] with nothing pending: one inner poll, then its
    first response, or its result when it has none. *)
Lemma pollOnce_idle fuel t s res s' :
  pending (looper s) = [] →
  pollOnce fuel t s = Ok res s' →
  ∃ fuel' k r1 s2 k',
    pollInner fuel' t (mkSys (set_mResponseIndex k (looper s)) (world s) (trace s))
    = Ok r1 s2
    ∧ s' = mkSys (set_mResponseIndex k' (looper s2)) (world s2) (trace s2)
    ∧ pending (looper s') = tail (pending (looper s2))
    ∧ res = match head (pending (looper s2)) with
            | Some r => deliver r
            | None => mkPollResult r1 0 0 0
            end.
Proof.
  intros Hp. unfold pollOnce. destruct fuel as [|fuel]; [done|]. simpl.
  unfold bind at 1. unfold getL at 1.
  destruct (replayResponses_spec _ s eq_refl) as (k & Hk & Hpk & _).
  rewrite (bind_Ok_intro _ _ _ _ _ Hk). rewrite Hp in *. simpl in *.
  intros H. apply bind_Ok in H as (r1 & s2 & Hin & H).
  exists fuel, k, r1, s2.
  destruct fuel as [|fuel]; [done|]. simpl in H.
  unfold bind at 1 in H. unfold getL at 1 in H.
  destruct (replayResponses_spec _ s2 eq_refl) as (k' & Hk' & Hpk' & _).
  rewrite (bind_Ok_intro _ _ _ _ _ Hk') in H.
  exists k'. split; [done|].
  destruct (pollInner_spec (S fuel) t
              (mkSys (set_mResponseIndex k (looper s)) (world s) (trace s)))
    as (waited & tr & _ & _ & Hok).
  destruct (Hok r1 s2 Hin) as (Hr1 & _ & _).
  destruct (pending (looper s2)) as [|r rest]; simpl in *.
  - assert (r1 ≠ 0) as Hnz.
    { rewrite Hr1. destruct (existsb isDispatch tr); [done|].
      apply classify_nonzero. }
    apply Z.eqb_neq in Hnz. rewrite Hnz in H. simpl in H.
    injection H as <- <-. done.
  - injection H as <- <-. done.
Qed.

End PollOnce.

Section Results.
Context {PF : Platform} {UC : UserCode} {TM : Timers}.

Lemma pending_isIdent l r : r ∈ pending l → isIdent r = true.
Proof.
  unfold pending. rewrite list_elem_of_In, filter_In. tauto.
Qed.

Lemma pending_elem l r : r ∈ pending l → r ∈ mResponses l.
Proof.
  unfold pending. rewrite list_elem_of_In, filter_In. intros [H _].
  apply list_elem_of_In in H. apply list_elem_of_lookup in H as [i Hi].
  rewrite lookup_drop in Hi. apply list_elem_of_lookup. eauto.
Qed.

Lemma deliver_nonneg r : isIdent r = true → 0 ≤ pr_result (deliver r).
Proof. unfold isIdent, deliver. simpl. intros H. by apply Z.leb_le. Qed.

Lemma pollOnceMany_pending calls : ∀ s,
  Forall (λ c, fst c ≠ 0%nat) calls →
  (length calls ≤ length (pending (looper s)))%nat →
  ∃ k,
    pollOnceMany calls s
    = Ok (deliver <$> take (length calls) (pending (looper s)))
        (mkSys (set_mResponseIndex k (looper s)) (world s) (trace s))
    ∧ pending (set_mResponseIndex k (looper s))
      = drop (length calls) (pending (looper s)).
Proof.
  induction calls as [|[fuel t] calls IH]; intros s Hf Hlen; simpl.
  - exists (mResponseIndex (looper s)). rewrite set_mResponseIndex_id.
    split; [by destruct s|done].
  - apply Forall_cons in Hf as [Hfuel Hf]. simpl in Hfuel, Hlen.
    destruct fuel as [|fuel]; [done|].
    destruct (pending (looper s)) as [|r rest] eqn:Hp; simpl in Hlen; [lia|].
    destruct (pollOnce_pending fuel t s r rest Hp) as (k & Hk & Hpk).
    rewrite (bind_Ok_intro _ _ _ _ _ Hk).
    destruct (IH (mkSys (set_mResponseIndex k (looper s)) (world s) (trace s)) Hf)
      as (k' & Hk' & Hpk'); [simpl; rewrite Hpk; lia|].
    simpl in *. rewrite (bind_Ok_intro _ _ _ _ _ Hk'). unfold ret.
    rewrite Hpk in *. exists k'. done.
Qed.

Lemma pollInner_codes fuel t s r s' :
  pollInner fuel t s = Ok r s' →
  r ∈ [POLL_WAKE; POLL_CALLBACK; POLL_TIMEOUT; POLL_ERROR].
Proof.
  intros H. destruct (pollInner_spec fuel t s) as (waited & tr & _ & _ & Hok).
  destruct (Hok r s' H) as (-> & _).
  destruct (existsb isDispatch tr); [by right; left|].
  pose proof (classify_codes (mEpollRebuildRequired (looper s)) waited) as Hc.
  rewrite !elem_of_cons in *. tauto.
Qed.

(** C7: the result of the inner poll is [POLL_CALLBACK] when a handler or a
    callback was invoked; otherwise it is [POLL_WAKE] when a rebuild was
    required, and else follows the kernel wait: [POLL_WAKE] for [EINTR],
    [POLL_ERROR] for any other failure, [POLL_TIMEOUT] for no event and
    [POLL_WAKE] for events.  A non-negative value returned by [pollOnce] is
    the [ident] of one of the responses. *)
Theorem pollInner_result_codes :
  (∀ fuel t s r s',
     pollInner fuel t s = Ok r s' →
     ∃ passed waited tr,
       trace s' = trace s ++ EvEpollWait passed waited :: tr
       ∧ r = (if existsb isDispatch tr then POLL_CALLBACK
              else classify (mEpollRebuildRequired (looper s)) waited))
  ∧ (∀ waited, classify true waited = POLL_WAKE)
  ∧ classify false (WaitError EINTR) = POLL_WAKE
  ∧ (∀ errno, errno ≠ EINTR → classify false (WaitError errno) = POLL_ERROR)
  ∧ classify false (WaitEvents []) = POLL_TIMEOUT
  ∧ (∀ item items, classify false (WaitEvents (item :: items)) = POLL_WAKE)
  ∧ (POLL_WAKE = -1 ∧ POLL_CALLBACK = -2 ∧ POLL_TIMEOUT = -3 ∧ POLL_ERROR = -4)
  ∧ (∀ fuel t s res s',
       pollOnce fuel t s = Ok res s' → 0 ≤ pr_result res →
       ∃ response,
         response ∈ mResponses (looper s')
         ∧ pr_result res = Request.ident (Response.request response)
         ∧ res = deliver response).
Proof.
  split.
  { intros fuel t s r s' H.
    destruct (pollInner_spec fuel t s) as (waited & tr & Ht & _ & Hok).
    rewrite H in Ht. destruct (Hok r s' H) as (Hr & _). eauto. }
  split; [done|]. split; [done|].
  split. { intros errno Hne. simpl. apply Z.eqb_neq in Hne. by rewrite Hne. }
  split; [done|]. split; [done|]. split; [done|].
  intros fuel t s res s' H Hpos.
  destruct (pending (looper s)) as [|r rest] eqn:Hp.
  - destruct (pollOnce_idle fuel t s res s' Hp H)
      as (fuel' & k & r1 & s2 & k' & Hin & -> & Hps' & Hres).
    destruct (pending (looper s2)) as [|r rest] eqn:Hp2; simpl in *.
    + subst res. simpl in Hpos. pose proof (pollInner_codes _ _ _ _ _ Hin) as Hc.
      unfold POLL_WAKE, POLL_CALLBACK, POLL_TIMEOUT, POLL_ERROR in Hc.
      rewrite !elem_of_cons, elem_of_nil in Hc. lia.
    + subst res. exists r. split; [|done].
      apply (pending_elem (looper s2)). rewrite Hp2. left.
  - destruct fuel as [|fuel]; [done|].
    destruct (pollOnce_pending fuel t s r rest Hp) as (k & Hk & _).
    rewrite Hk in H. injection H as <- <-. exists r. split; [|done].
    simpl. apply (pending_elem (looper s)). rewrite Hp. left.
Qed.

(** ** pollAll *)

Lemma pollAllBlocking_chain fuel : ∀ t s res s',
  pollAllBlocking fuel t s = Ok res s' → pollsUntil t s res s'.
Proof.
  induction fuel as [|fuel IH]; intros t s res s' H; simpl in H; [done|].
  apply bind_Ok in H as (r1 & s1 & H1 & H).
  destruct (pr_result r1 =? POLL_CALLBACK) eqn:E.
  - apply Z.eqb_eq in E. eapply pollsUntil_more; eauto.
  - apply Z.eqb_neq in E. injection H as <- <-. eapply pollsUntil_last; eauto.
Qed.

Lemma pollAllUntil_chain fuel : ∀ endTime t s res s',
  pollAllUntil fuel endTime t s = Ok res s' → pollsBefore endTime t s res s'.
Proof.
  induction fuel as [|fuel IH]; intros endTime t s res s' H; simpl in H; [done|].
  apply bind_Ok in H as (r1 & s1 & H1 & H).
  destruct (pr_result r1 =? POLL_CALLBACK) eqn:E; simpl in H.
  - apply Z.eqb_eq in E. unfold bind, sys in H.
    destruct (systemTime (world s1)) as [now w] eqn:Es.
    destruct (toMillisecondTimeoutDelay now endTime =? 0) eqn:Et.
    + apply Z.eqb_eq in Et. injection H as <- <-.
      eapply pollsBefore_timeout; eauto.
    + apply Z.eqb_neq in Et. eapply pollsBefore_more; eauto.
  - apply Z.eqb_neq in E. injection H as <- <-. eapply pollsBefore_last; eauto.
Qed.

Lemma pollsUntil_result t s res s' :
  pollsUntil t s res s' → pr_result res ≠ POLL_CALLBACK.
Proof. induction 1; done. Qed.

Lemma pollsBefore_result endTime t s res s' :
  pollsBefore endTime t s res s' → pr_result res ≠ POLL_CALLBACK.
Proof. induction 1; done. Qed.

Lemma pollAllUntil_elapsed fuel endTime t s r1 s1 :
  (∀ now deadline, deadline ≤ now → toMillisecondTimeoutDelay now deadline = 0) →
  pollOnce fuel t s = Ok r1 s1 →
  pr_result r1 = POLL_CALLBACK →
  endTime ≤ fst (systemTime (world s1)) →
  pollAllUntil (S fuel) endTime t s
  = Ok (mkPollResult POLL_TIMEOUT (pr_outFd r1) (pr_outEvents r1) (pr_outData r1))
      (mkSys (looper s1) (snd (systemTime (world s1))) (trace s1)).
Proof.
  intros Htm H1 Hcb Hel. simpl. rewrite (bind_Ok_intro _ _ _ _ _ H1).
  rewrite Hcb. simpl. unfold bind, sys.
  destruct (systemTime (world s1)) as [now w]. simpl in *.
  by rewrite (Htm now endTime Hel).
Qed.

End Results.

Section Order.
Context {PF : Platform} {UC : UserCode} {TM : Timers}.

(** ** The order of dispatch *)

Lemma wake_queue q : sound (queueIs q) isApiEvent wake.
Proof. unfold wake. repeat sound_step frame_side. Qed.

Lemma scheduleEpollRebuildLocked_queue q :
  sound (queueIs q) isApiEvent scheduleEpollRebuildLocked.
Proof.
  unfold scheduleEpollRebuildLocked.
  repeat first [apply wake_queue | sound_step frame_side].
Qed.

Lemma addFd_queue q fd ident events cb data :
  sound (queueIs q) isApiEvent (addFd fd ident events cb data).
Proof.
  unfold addFd.
  repeat first [apply scheduleEpollRebuildLocked_queue | sound_step frame_side].
Qed.

Lemma removeSequenceNumberLocked_queue q seq :
  sound (queueIs q) isApiEvent (removeSequenceNumberLocked seq).
Proof.
  unfold removeSequenceNumberLocked.
  repeat first [apply scheduleEpollRebuildLocked_queue | sound_step frame_side].
Qed.

Lemma removeFd_queue q fd : sound (queueIs q) isApiEvent (removeFd fd).
Proof.
  unfold removeFd.
  repeat first [apply removeSequenceNumberLocked_queue | sound_step frame_side].
Qed.

Lemma repoll_queue q fd : sound (queueIs q) isApiEvent (repoll fd).
Proof. unfold repoll. repeat sound_step frame_side. Qed.

Lemma exec_queue q c :
  touchesQueue c = false → sound (queueIs q) isApiEvent (exec c).
Proof.
  destruct c; simpl; try done; intros _;
    repeat first
      [ apply addFd_queue | apply removeFd_queue | apply repoll_queue
      | apply wake_queue | sound_step frame_side ].
Qed.

Lemma runProg_queue q p :
  queueQuiet p → sound (queueIs q) isApiEvent (runProg p).
Proof.
  induction 1 as [r|c k Hc Hk IH]; simpl.
  - apply sound_ret.
  - repeat first [by apply exec_queue | apply IH | sound_step frame_side].
Qed.

Lemma dispatchedMessages_app tr1 tr2 :
  dispatchedMessages (tr1 ++ tr2)
  = dispatchedMessages tr1 ++ dispatchedMessages tr2.
Proof. unfold dispatchedMessages. apply omap_app. Qed.

Lemma dispatchedMessages_cons e tr :
  dispatchedMessages (e :: tr)
  = match e with
    | EvHandleMessage h m => [(h, m)]
    | _ => []
    end ++ dispatchedMessages tr.
Proof. by destruct e. Qed.

Lemma dispatchedMessages_api tr :
  Forall isApiEvent tr → dispatchedMessages tr = [].
Proof.
  induction 1 as [|e tr He _ IH]; [done|].
  rewrite dispatchedMessages_cons, IH. by destruct e.
Qed.

Lemma dispatchedMessages_kernel tr :
  Forall isKernelEvent tr → dispatchedMessages tr = [].
Proof.
  induction 1 as [|e tr He _ IH]; [done|].
  rewrite dispatchedMessages_cons, IH. by destruct e.
Qed.

Lemma dispatchedMessages_callback qs tr :
  Forall (isCallbackEventOf qs) tr → dispatchedMessages tr = [].
Proof.
  induction 1 as [|e tr He _ IH]; [done|].
  rewrite dispatchedMessages_cons, IH. by destruct e.
Qed.

(** With handlers that leave the queue alone, the drain hands out a prefix
    of the queue, head first. *)
Lemma drainMessages_order :
  (∀ h m w, queueQuiet (fst (handleMessage h m w))) →
  ∀ fuel result s r s',
    drainMessages fuel result s = Ok r s' →
    ∃ k tr,
      trace s' = trace s ++ tr
      ∧ dispatchedMessages tr
        = addressed <$> take k (mMessageEnvelopes (looper s))
      ∧ mMessageEnvelopes (looper s') = drop k (mMessageEnvelopes (looper s)).
Proof.
  intros Hq. induction fuel as [|fuel IH]; intros result s r s' H; simpl in H;
    [done|].
  destruct s as [l w t]. run.
  destruct (mMessageEnvelopes l) as [|e rest] eqn:Eq; simpl in *.
  { injection H as <- <-. exists 0%nat, []. simpl. by rewrite app_nil_r. }
  destruct (systemTime w) as [now w1]. simpl in *.
  destruct (MessageEnvelope.uptime e <=? now); simpl in *.
  - unfold runUser, bind, sys in H. simpl in H.
    specialize (Hq (MessageEnvelope.handler e) (MessageEnvelope.message e) w1).
    destruct (handleMessage (MessageEnvelope.handler e)
                (MessageEnvelope.message e) w1) as [p w2] eqn:Eh.
    simpl in Hq, H.
    match type of H with
    | context [runProg p ?s0] =>
        destruct (runProg p s0) as [ru su|su|su] eqn:Eu; try done;
        destruct (triple_Ok _ _ _ _ s0 _ _ (runProg_queue rest p Hq) eq_refl Eu)
          as [(tru & Htu & HPu) Hqu]
    end.
    simpl in *. apply IH in H as (k & tr2 & Ht2 & Hd2 & Hq2). simpl in *.
    unfold queueIs in Hqu. rewrite Hqu in *.
    exists (S k), (EvHandleMessage (MessageEnvelope.handler e)
                     (MessageEnvelope.message e) :: tru ++ tr2).
    split; [rewrite Ht2, Htu, <- !app_assoc; done|]. split; [|done].
    rewrite dispatchedMessages_cons, dispatchedMessages_app,
      (dispatchedMessages_api tru HPu), Hd2.
    done.
  - injection H as <- <-. exists 0%nat, []. simpl. by rewrite app_nil_r.
Qed.

(** A run of the inner poll that returns, phase by phase. *)
Lemma pollInner_Ok fuel t s r s' :
  pollInner fuel t s = Ok r s' →
  ∃ w1 r0 s2 r1 s4,
    pollWait (effectiveTimeout t (mNextMessageUptime (looper s))
                (fst (systemTime (world s))))
      (mkSys (looper s) w1 (trace s)) = Ok r0 s2
    ∧ drainMessages fuel r0
        (mkSys (set_mNextMessageUptime LLONG_MAX (looper s2)) (world s2)
           (trace s2)) = Ok r1 s4
    ∧ invokeCallbacks (length (mResponses (looper s4))) 0 r1 s4 = Ok r s'.
Proof.
  unfold pollInner. destruct (adjustTimeout_Ok t s) as [w1 Ha].
  rewrite (bind_Ok_intro _ _ _ _ _ Ha). intros H.
  apply bind_Ok in H as (r0 & s2 & Hw & H).
  apply bind_Ok in H as ([] & s3 & Hm & H). injection Hm as <-.
  apply bind_Ok in H as (r1 & s4 & Hd & H).
  apply bind_Ok in H as (l4 & s5 & Hg & H). injection Hg as <- <-.
  eauto 10.
Qed.

Lemma pollInner_order :
  (∀ h m w, queueQuiet (fst (handleMessage h m w))) →
  ∀ fuel t s r s',
    pollInner fuel t s = Ok r s' →
    ∃ k tr,
      trace s' = trace s ++ tr
      ∧ dispatchedMessages tr
        = addressed <$> take k (mMessageEnvelopes (looper s)).
Proof.
  intros Hq fuel t s r s' H.
  apply pollInner_Ok in H as (w1 & r0 & s2 & r1 & s4 & Hw & Hd & Hc).
  match type of Hw with
  | pollWait ?p ?s1 = _ =>
      destruct (pollWait_final p s1) as (tr1 & Ht1 & HP1 & Hok1)
  end.
  rewrite Hw in Ht1. simpl in Ht1, Hok1.
  destruct (Hok1 r0 s2 Hw) as (_ & x & Hl2).
  apply (drainMessages_order Hq) in Hd as (k & tr2 & Ht2 & Hd2 & _).
  simpl in Ht2, Hd2. rewrite Hl2 in Hd2. simpl in Hd2.
  destruct (invokeCallbacks_spec (length (mResponses (looper s4))) 0 r1 s4)
    as (tr3 & Ht3 & HP3 & _).
  rewrite Hc in Ht3. simpl in Ht3.
  exists k.
  match type of Ht1 with
  | _ = _ ++ ?ev :: _ => exists (ev :: tr1 ++ tr2 ++ tr3)
  end.
  split.
  { rewrite Ht3, Ht2, Ht1, <- !app_assoc. reflexivity. }
  rewrite dispatchedMessages_cons, !dispatchedMessages_app,
    (dispatchedMessages_kernel _ HP1), (dispatchedMessages_callback _ _ HP3), Hd2.
  simpl. by rewrite app_nil_r.
Qed.

End Order.

Section Tables.
Context {PF : Platform} {UC : UserCode} {TM : Timers}.

(** ** The two tables *)

Lemma indexAgrees_insert rq ix seq fd r :
  indexAgrees rq ix → rq !! seq = None → ix !! fd = None →
  Request.fd r = fd →
  indexAgrees (<[seq := r]> rq) (<[fd := seq]> ix).
Proof.
  intros (H1 & H2 & H3) Hseq Hfd Hr. split; [|split].
  - intros fd' s Hs. apply lookup_insert_Some in Hs as [[<- <-]|[Hne Hs]].
    + exists r. by rewrite lookup_insert_eq.
    + destruct (H1 fd' s Hs) as (r' & Hr' & Hf').
      exists r'. rewrite lookup_insert_ne; [done|]. congruence.
  - intros fd' s s' r' Hs Hr' Hf'.
    apply lookup_insert_Some in Hs as [[<- <-]|[Hne Hs]];
      apply lookup_insert_Some in Hr' as [[<- <-]|[Hne' Hr']];
      try done; try congruence; try (by eauto).
    apply H3 in Hr'. congruence.
  - intros s r' Hr'.
    apply lookup_insert_Some in Hr' as [[<- <-]|[Hne' Hr']].
    + rewrite Hr. apply lookup_insert_eq.
    + rewrite lookup_insert_ne; [by apply H3|].
      intros E. apply H3 in Hr'. congruence.
Qed.

Lemma indexAgrees_replace rq ix seq old fd r :
  indexAgrees rq ix → ix !! fd = Some old → rq !! seq = None →
  Request.fd r = fd →
  indexAgrees (<[seq := r]> (delete old rq)) (<[fd := seq]> ix).
Proof.
  intros (H1 & H2 & H3) Hfd Hseq Hr. split; [|split].
  - intros fd' s Hs. apply lookup_insert_Some in Hs as [[<- <-]|[Hne Hs]].
    + exists r. by rewrite lookup_insert_eq.
    + destruct (H1 fd' s Hs) as (r' & Hr' & Hf').
      exists r'. split; [|done].
      rewrite lookup_insert_ne by congruence.
      rewrite lookup_delete_ne; [done|]. intros <-.
      destruct (H1 fd old Hfd) as (ro & Hro & Hfo). congruence.
  - intros fd' s s' r' Hs Hr' Hf'.
    apply lookup_insert_Some in Hs as [[<- <-]|[Hne Hs]];
      apply lookup_insert_Some in Hr' as [[<- <-]|[Hne' Hr']];
      try done; try congruence.
    + apply lookup_delete_Some in Hr' as [Hne Hr'].
      pose proof (H2 _ _ _ _ Hfd Hr' Hf'). congruence.
    + apply lookup_delete_Some in Hr' as [Hne'' Hr']. eauto.
  - intros s r' Hr'.
    apply lookup_insert_Some in Hr' as [[<- <-]|[Hne' Hr']].
    + rewrite Hr. apply lookup_insert_eq.
    + apply lookup_delete_Some in Hr' as [Hne Hr'].
      rewrite lookup_insert_ne; [by apply H3|].
      intros E. pose proof (H2 _ _ _ _ Hfd Hr' (eq_sym E)). congruence.
Qed.

Lemma indexAgrees_remove rq ix seq r :
  indexAgrees rq ix → rq !! seq = Some r →
  indexAgrees (delete seq rq) (delete (Request.fd r) ix).
Proof.
  intros (H1 & H2 & H3) Hseq. split; [|split].
  - intros fd' s Hs. apply lookup_delete_Some in Hs as [Hne Hs].
    destruct (H1 fd' s Hs) as (r' & Hr' & Hf'). exists r'. split; [|done].
    rewrite lookup_delete_ne; [done|]. intros <-. congruence.
  - intros fd' s s' r' Hs Hr' Hf'.
    apply lookup_delete_Some in Hs as [Hne Hs].
    apply lookup_delete_Some in Hr' as [Hne' Hr']. eauto.
  - intros s r' Hr'. apply lookup_delete_Some in Hr' as [Hne Hr'].
    rewrite lookup_delete_ne; [by apply H3|].
    intros E. apply H3 in Hseq, Hr'. congruence.
Qed.

Lemma incr_u64_small x : 0 ≤ x < UINT64_MOD - 1 → incr_u64 x = x + 1.
Proof. intros H. unfold incr_u64. apply Z.mod_small. lia. Qed.

(** What [addFd] does to the tables when it returns. *)
Lemma addFd_effect fd ident events cb data s r s' :
  addFd fd ident events cb data s = Ok r s' →
  let l := looper s in
  let seq := nextSeq l in
  let request := Request.mk fd (storedIdent ident cb) events cb data in
  (r = -1
   ∧ mRequests (looper s') = mRequests l
   ∧ mSequenceNumberByFd (looper s') = mSequenceNumberByFd l
   ∧ (mNextRequestSeq (looper s') = mNextRequestSeq l
      ∨ mNextRequestSeq (looper s') = incr_u64 seq))
  ∨ (r = 1
     ∧ mNextRequestSeq (looper s') = incr_u64 seq
     ∧ match mSequenceNumberByFd l !! fd with
       | None =>
           mRequests (looper s') = emplace seq request (mRequests l)
           ∧ mSequenceNumberByFd (looper s')
             = emplace fd seq (mSequenceNumberByFd l)
       | Some oldSeq =>
           mRequests (looper s')
           = emplace seq request (delete oldSeq (mRequests l))
           ∧ mSequenceNumberByFd (looper s')
             = <[fd := seq]> (mSequenceNumberByFd l)
       end).
Proof.
  unfold addFd, scheduleEpollRebuildLocked, wake, nextSeq, storedIdent.
  destruct s as [l w t]. run. intros H.
  repeat case_match; simplify_eq; simpl in *; simplify_eq; auto 10.
Qed.

(** What [removeSequenceNumberLocked] does to the tables when it returns. *)
Lemma removeSequenceNumberLocked_effect seq s r s' :
  removeSequenceNumberLocked seq s = Ok r s' →
  let l := looper s in
  mNextRequestSeq (looper s') = mNextRequestSeq l
  ∧ match mRequests l !! seq with
    | None =>
        r = 0 ∧ mRequests (looper s') = mRequests l
        ∧ mSequenceNumberByFd (looper s') = mSequenceNumberByFd l
    | Some request =>
        mRequests (looper s') = delete seq (mRequests l)
        ∧ mSequenceNumberByFd (looper s')
          = delete (Request.fd request) (mSequenceNumberByFd l)
    end.
Proof.
  unfold removeSequenceNumberLocked, scheduleEpollRebuildLocked, wake.
  destruct s as [l w t]. run. intros H.
  repeat case_match; simplify_eq; simpl in *; simplify_eq; auto 10.
Qed.

Lemma nextSeq_allocated l : seqsAllocated l → nextSeq l = mNextRequestSeq l.
Proof.
  intros [[H _] _]. unfold nextSeq, WAKE_EVENT_FD_SEQ.
  destruct (mNextRequestSeq l =? 1) eqn:E; [|done]. apply Z.eqb_eq in E. lia.
Qed.

Lemma addFd_tablesOk fd ident events cb data s r s' :
  tablesOk (looper s) →
  mNextRequestSeq (looper s) < UINT64_MOD - 1 →
  addFd fd ident events cb data s = Ok r s' →
  tablesOk (looper s')
  ∧ mNextRequestSeq (looper s') ≤ mNextRequestSeq (looper s) + 1.
Proof.
  intros [Hag Hsq] Hn H. apply addFd_effect in H. simpl in H.
  rewrite (nextSeq_allocated _ Hsq) in H.
  pose proof Hsq as [[Hlo Hhi] Hkeys].
  rewrite incr_u64_small in H by lia.
  assert (Hfresh : mRequests (looper s) !! mNextRequestSeq (looper s) = None).
  { destruct (mRequests (looper s) !! mNextRequestSeq (looper s)) eqn:E; [|done].
    apply Hkeys in E. lia. }
  unfold tablesOk, tablesAgree, seqsAllocated.
  destruct H as [(-> & Hrq & Hix & Hnx)|(-> & Hnx & H)].
  - rewrite Hrq, Hix. split; [|lia]. split; [done|].
    split; [lia|]. intros s0 r0 E. apply Hkeys in E. lia.
  - rewrite Hnx. split; [|lia].
    destruct (mSequenceNumberByFd (looper s) !! fd) as [old|] eqn:Efd;
      destruct H as [Hrq Hix]; rewrite Hrq, Hix.
    + destruct Hag as (H1 & H2 & H3). destruct (H1 fd old Efd) as (ro & Hro & Hfo).
      rewrite emplace_fresh by (rewrite lookup_delete_ne; [done|];
                                intros Heq; rewrite Heq in Hro; congruence).
      split; [by apply indexAgrees_replace|]. split; [lia|].
      intros s0 r0 E. apply lookup_insert_Some in E as [[<- <-]|[_ E]]; [lia|].
      apply lookup_delete_Some in E as [_ E]. apply Hkeys in E. lia.
    + rewrite !emplace_fresh by done.
      split; [by apply indexAgrees_insert|]. split; [lia|].
      intros s0 r0 E. apply lookup_insert_Some in E as [[<- <-]|[_ E]]; [lia|].
      apply Hkeys in E. lia.
Qed.

Lemma removeSequenceNumberLocked_tablesOk seq s r s' :
  tablesOk (looper s) →
  removeSequenceNumberLocked seq s = Ok r s' →
  tablesOk (looper s')
  ∧ mNextRequestSeq (looper s') = mNextRequestSeq (looper s).
Proof.
  intros [Hag Hsq] H. apply removeSequenceNumberLocked_effect in H.
  simpl in H. destruct H as [Hnx H]. split; [|done].
  unfold tablesOk, tablesAgree, seqsAllocated. rewrite Hnx.
  destruct Hsq as [Hb Hkeys].
  destruct (mRequests (looper s) !! seq) as [request|] eqn:E.
  - destruct H as [-> ->]. split; [by apply indexAgrees_remove|].
    split; [done|]. intros s0 r0 E0.
    apply lookup_delete_Some in E0 as [_ E0]. eauto.
  - destruct H as (_ & -> & ->). done.
Qed.

Lemma removeFd_tablesOk fd s r s' :
  tablesOk (looper s) →
  removeFd fd s = Ok r s' →
  tablesOk (looper s')
  ∧ mNextRequestSeq (looper s') = mNextRequestSeq (looper s).
Proof.
  intros Hok. unfold removeFd, bind, getL.
  destruct (mSequenceNumberByFd (looper s) !! fd).
  - by apply removeSequenceNumberLocked_tablesOk.
  - by intros [= <- <-].
Qed.

(** The other public methods leave the tables alone. *)
Ltac tables_side :=
  first [ exact I | by intros | by (intros ? ?) ].

Lemma wake_tables rq ix n : sound (tablesAre rq ix n) isWakeEvent wake.
Proof. unfold wake. repeat sound_step tables_side. Qed.

Lemma repoll_tables rq ix n fd : sound (tablesAre rq ix n) isWakeEvent (repoll fd).
Proof. unfold repoll. repeat sound_step tables_side. Qed.

Lemma sendMessageAtTime_tables rq ix n t h m :
  sound (tablesAre rq ix n) isWakeEvent (sendMessageAtTime t h m).
Proof.
  unfold sendMessageAtTime.
  repeat first [apply wake_tables | sound_step tables_side].
Qed.

Lemma removeMessages_tables rq ix n h w :
  sound (tablesAre rq ix n) isWakeEvent (removeMessages h w).
Proof. unfold removeMessages. repeat sound_step tables_side. Qed.

Lemma exec_other_tables rq ix n c :
  match c with
  | CAddFd _ _ _ _ _ | CRemoveFd _ => True
  | _ => sound (tablesAre rq ix n) isWakeEvent (exec c)
  end.
Proof.
  destruct c; simpl; try done; unfold sendMessage, sendMessageDelayed;
    repeat first
      [ apply repoll_tables | apply sendMessageAtTime_tables
      | apply removeMessages_tables | apply wake_tables
      | sound_step tables_side ].
Qed.

Lemma tablesOk_same l l' :
  mRequests l' = mRequests l →
  mSequenceNumberByFd l' = mSequenceNumberByFd l →
  mNextRequestSeq l' = mNextRequestSeq l →
  tablesOk l → tablesOk l'.
Proof.
  unfold tablesOk, tablesAgree, seqsAllocated. by intros -> -> ->.
Qed.

(** One call of user code keeps the tables in order, and only [addFd]
    moves the counter, by one. *)
Lemma exec_tablesOk c s r s' :
  tablesOk (looper s) →
  (isAddFd c = true → mNextRequestSeq (looper s) < UINT64_MOD - 1) →
  exec c s = Ok r s' →
  tablesOk (looper s')
  ∧ mNextRequestSeq (looper s')
    ≤ mNextRequestSeq (looper s) + (if isAddFd c then 1 else 0).
Proof.
  intros Hok Hn H.
  pose proof (exec_other_tables (mRequests (looper s))
                (mSequenceNumberByFd (looper s)) (mNextRequestSeq (looper s)) c)
    as Hc.
  destruct c; simpl in *;
    try (destruct (triple_Ok _ _ _ _ s _ _ Hc (conj eq_refl (conj eq_refl eq_refl)) H)
           as [_ (Hrq & Hix & Hnx)];
         split; [by apply (tablesOk_same (looper s))|lia]).
  - by apply addFd_tablesOk in H; [|done|by apply Hn].
  - apply removeFd_tablesOk in H as [? ?]; [|done]. split; [done|lia].
Qed.

End Tables.

Section Budget.
Context {PF : Platform} {UC : UserCode} {TM : Timers}.

(** ** The tables along a poll *)

Lemma allocations_app a b : allocations (a ++ b) = allocations a + allocations b.
Proof.
  unfold allocations. rewrite List.filter_app, length_app. lia.
Qed.

Lemma allocations_nonneg tr : 0 ≤ allocations tr.
Proof. unfold allocations. lia. Qed.

Lemma allocations_call c r :
  allocations [EvCall c r] = if isAddFd c then 1 else 0.
Proof. by destruct c. Qed.

Lemma allocations_none (P : Event → Prop) tr :
  (∀ c r, ¬ P (EvCall c r)) → Forall P tr → allocations tr = 0.
Proof.
  intros HP. induction 1 as [|e tr He _ IH]; [done|].
  change (e :: tr) with ([e] ++ tr). rewrite allocations_app, IH.
  destruct e; try reflexivity. exfalso. eapply HP, He.
Qed.

Lemma allocations_wake tr : Forall isWakeEvent tr → allocations tr = 0.
Proof. apply allocations_none. intros c r H. exact H. Qed.

Lemma allocations_kernel tr : Forall isKernelEvent tr → allocations tr = 0.
Proof. apply allocations_none. intros c r H. exact H. Qed.

Lemma exec_allocations c s r s' :
  exec c s = Ok r s' → allocations (trace s') = allocations (trace s).
Proof.
  intros H.
  destruct (triple_Ok _ _ _ _ s _ _ (exec_framed (pollState (looper s)) c)
              eq_refl H) as [(tr & -> & HP) _].
  rewrite allocations_app, (allocations_wake tr HP). lia.
Qed.

Lemma withinBudget_same C s s' :
  mRequests (looper s') = mRequests (looper s) →
  mSequenceNumberByFd (looper s') = mSequenceNumberByFd (looper s) →
  mNextRequestSeq (looper s') = mNextRequestSeq (looper s) →
  allocations (trace s') = allocations (trace s) →
  withinBudget C s → withinBudget C s'.
Proof.
  unfold withinBudget. intros Hrq Hix Hnx Hal H Hb. rewrite Hal, Hnx in *.
  destruct (H Hb) as [Hok Hle]. split; [|done].
  by apply (tablesOk_same (looper s)).
Qed.

Lemma runProg_budget C p : ∀ s r s',
  withinBudget C s → runProg p s = Ok r s' → withinBudget C s'.
Proof.
  induction p as [r0|c k IH]; intros s r s' Hb H; simpl in H.
  - by injection H as <- <-.
  - apply bind_Ok in H as (r1 & s1 & Hx & H).
    apply bind_Ok in H as ([] & s2 & He & H).
    injection He as <-. refine (IH r1 _ r s' _ H).
    intros Hlt. simpl in *.
    rewrite allocations_app, allocations_call, (exec_allocations _ _ _ _ Hx) in *.
    pose proof (allocations_nonneg (trace s)) as Hnn.
    destruct Hb as [Hok Hle]; [destruct (isAddFd c); lia|].
    destruct (exec_tablesOk c s r1 s1 Hok) as [Hok1 Hle1]; [|done|].
    { intros Hc. rewrite Hc in Hlt. lia. }
    split; [done|]. lia.
Qed.

Lemma runUser_budget C code s r s' :
  withinBudget C s → runUser code s = Ok r s' → withinBudget C s'.
Proof.
  intros Hb H. unfold runUser, bind, sys in H.
  destruct (code (world s)) as [p w]. by apply (runProg_budget C) in H.
Qed.

Lemma removeSequenceNumberLocked_budget C seq s r s' :
  withinBudget C s → removeSequenceNumberLocked seq s = Ok r s' →
  withinBudget C s'.
Proof.
  intros Hb H Hlt.
  destruct (removeSequenceNumberLocked_Ok _ _ _ _ H) as [_ (tr & Ht & HP)].
  rewrite Ht, allocations_app, (allocations_wake tr HP), Z.add_0_r in *.
  destruct (Hb Hlt) as [Hok Hle].
  destruct (removeSequenceNumberLocked_tablesOk _ _ _ _ Hok H) as [Hok' Hn].
  split; [done|]. lia.
Qed.

Lemma drainMessages_budget C fuel : ∀ result s r s',
  withinBudget C s → drainMessages fuel result s = Ok r s' →
  withinBudget C s'.
Proof.
  induction fuel as [|fuel IH]; intros result s r s' Hb H; simpl in H; [done|].
  destruct s as [l w t]. run.
  destruct (mMessageEnvelopes l) as [|e rest] eqn:Eq; simpl in *.
  { by injection H as <- <-. }
  destruct (systemTime w) as [now w1]. simpl in *.
  destruct (MessageEnvelope.uptime e <=? now); simpl in *.
  - match type of H with
    | context [runUser ?c ?s0] =>
        destruct (runUser c s0) as [ru su|su|su] eqn:Eu; try done;
        assert (withinBudget C s0) as Hb0
    end.
    { eapply withinBudget_same; [..|exact Hb]; try done. simpl.
      rewrite allocations_app. simpl. unfold allocations at 2. simpl. lia. }
    apply (runUser_budget C) in Eu; [|done].
    eapply IH; [|exact H].
    eapply withinBudget_same; [..|exact Eu]; done.
  - injection H as <- <-.
    eapply withinBudget_same; [..|exact Hb]; done.
Qed.

Lemma invokeCallbacks_budget C n : ∀ i result s r s',
  withinBudget C s → invokeCallbacks n i result s = Ok r s' →
  withinBudget C s'.
Proof.
  induction n as [|n IH]; intros i result s r s' Hb H; simpl in H.
  { by injection H as <- <-. }
  destruct s as [l w t]. run.
  destruct (mResponses l !! i) as [response|] eqn:Er; simpl in *.
  2:{ by injection H as <- <-. }
  destruct (Request.ident (Response.request response) =? POLL_CALLBACK).
  2:{ by eapply IH. }
  destruct (Request.callback (Response.request response)) as [cb|]; [|done].
  simpl in *.
  match type of H with
  | context [runUser ?c ?s0] =>
      destruct (runUser c s0) as [ru su|su|su] eqn:Eu; try done;
      assert (withinBudget C s0) as Hb0
  end.
  { eapply withinBudget_same; [..|exact Hb]; try done. simpl.
    rewrite allocations_app. simpl. unfold allocations at 2. simpl. lia. }
  apply (runUser_budget C) in Eu; [|done]. simpl in *.
  destruct (ru =? 0).
  - destruct (removeSequenceNumberLocked (Response.seq response) su)
      as [rr sr|sr|sr] eqn:Err; try done; simpl in *.
    apply (removeSequenceNumberLocked_budget C) in Err; [|done].
    eapply IH; [|exact H].
    eapply withinBudget_same; [..|exact Err]; done.
  - eapply IH; [|exact H].
    eapply withinBudget_same; [..|exact Eu]; done.
Qed.

Lemma pollInner_budget C fuel t s r s' :
  withinBudget C s → pollInner fuel t s = Ok r s' → withinBudget C s'.
Proof.
  intros Hb H.
  apply pollInner_Ok in H as (w1 & r0 & s2 & r1 & s4 & Hw & Hd & Hc).
  match type of Hw with
  | pollWait ?p ?s1 = _ =>
      destruct (pollWait_final p s1) as (tr1 & Ht1 & HP1 & Hok1)
  end.
  rewrite Hw in Ht1. simpl in Ht1, Hok1.
  destruct (Hok1 r0 s2 Hw) as (_ & x & Hl2).
  eapply invokeCallbacks_budget; [|exact Hc].
  eapply drainMessages_budget; [|exact Hd].
  eapply withinBudget_same; [..|exact Hb]; simpl; try (by rewrite Hl2).
  rewrite Ht1, allocations_app.
  change (EvEpollWait ?a ?b :: tr1) with ([EvEpollWait a b] ++ tr1).
  rewrite allocations_app, (allocations_kernel tr1 HP1).
  unfold allocations at 2. simpl. lia.
Qed.

Lemma pollOnce_budget C fuel t s res s' :
  withinBudget C s → pollOnce fuel t s = Ok res s' → withinBudget C s'.
Proof.
  intros Hb H. destruct (pending (looper s)) as [|r rest] eqn:Hp.
  - destruct (pollOnce_idle fuel t s res s' Hp H)
      as (fuel' & k & r1 & s2 & k' & Hin & -> & _).
    apply (pollInner_budget C) in Hin.
    + eapply withinBudget_same; [..|exact Hin]; done.
    + eapply withinBudget_same; [..|exact Hb]; done.
  - destruct fuel as [|fuel]; [done|].
    destruct (pollOnce_pending fuel t s r rest Hp) as (k & Hk & _).
    rewrite Hk in H. injection H as <- <-.
    eapply withinBudget_same; [..|exact Hb]; done.
Qed.

Lemma newLooper_tablesOk allow w s :
  newLooper allow w = Ok tt s → tablesOk (looper s).
Proof.
  unfold newLooper. destruct (eventfd w) as [wakeFd w1].
  destruct (wakeFd <? 0); [done|]. intros H.
  match type of H with
  | rebuildEpollLocked ?s0 = _ =>
      destruct (triple_Ok _ _ _ _ s0 _ _
                  (rebuildEpollLocked_sound (looper s0)) (ex_intro _ (-1) eq_refl) H)
        as [_ [x Hx]]
  end.
  rewrite Hx. simpl. split.
  - split; [|split]; intros *; by rewrite ?lookup_empty.
  - split; [done|]. intros s0 r0 E. simpl in E. by rewrite lookup_empty in E.
Qed.

(** C4: [addFd], [removeFd], [removeSequenceNumberLocked] and [pollOnce]
    keep the agreement of the index with the table of requests: every entry
    of the index points to a request with that descriptor, no other request
    has it, and every request's descriptor is indexed to its sequence number.
    The agreement holds for a new Looper.  The sequence counter is assumed
    not to wrap: for [pollOnce] it stays below 2^64 even after one
    allocation per [addFd] call of the user code run by the poll. *)
Theorem tables_agree_preserved :
  (∀ allow w s, newLooper allow w = Ok tt s → tablesOk (looper s))
  ∧ (∀ fd ident events cb data s r s',
       tablesOk (looper s) →
       mNextRequestSeq (looper s) < UINT64_MOD - 1 →
       addFd fd ident events cb data s = Ok r s' →
       tablesOk (looper s'))
  ∧ (∀ fd s r s',
       tablesOk (looper s) → removeFd fd s = Ok r s' → tablesOk (looper s'))
  ∧ (∀ seq s r s',
       tablesOk (looper s) → removeSequenceNumberLocked seq s = Ok r s' →
       tablesOk (looper s'))
  ∧ (∀ fuel t s res s',
       tablesOk (looper s) →
       pollOnce fuel t s = Ok res s' →
       mNextRequestSeq (looper s)
       + (allocations (trace s') - allocations (trace s)) < UINT64_MOD →
       tablesOk (looper s'))
  ∧ (∀ l, tablesOk l →
       (∀ fd s, mSequenceNumberByFd l !! fd = Some s →
                ∃ r, mRequests l !! s = Some r ∧ Request.fd r = fd)
       ∧ (∀ fd s s' r', mSequenceNumberByFd l !! fd = Some s →
                        mRequests l !! s' = Some r' → Request.fd r' = fd →
                        s' = s)
       ∧ (∀ s r, mRequests l !! s = Some r →
                 mSequenceNumberByFd l !! Request.fd r = Some s)).
Proof.
  split; [exact newLooper_tablesOk|].
  split.
  { intros fd ident events cb data s r s' Hok Hn H.
    by destruct (addFd_tablesOk _ _ _ _ _ _ _ _ Hok Hn H). }
  split.
  { intros fd s r s' Hok H. by destruct (removeFd_tablesOk _ _ _ _ Hok H). }
  split.
  { intros seq s r s' Hok H.
    by destruct (removeSequenceNumberLocked_tablesOk _ _ _ _ Hok H). }
  split.
  { intros fuel t s res s' Hok H Hlt.
    assert (Hb : withinBudget (mNextRequestSeq (looper s) - allocations (trace s)) s).
    { intros _. split; [done|lia]. }
    apply (pollOnce_budget _ _ _ _ _ _ Hb) in H.
    destruct H as [Hok' _]; [lia|done]. }
  intros l [Hag _]. exact Hag.
Qed.

End Budget.

Section Staleness.
Context {PF : Platform} {UC : UserCode} {TM : Timers}.

(** ** What a poll can invoke and how long it may wait *)

(** The trace of a call of [pollOnce], however it ends: nothing, or the
    trace of its one inner poll. *)
Lemma pollOnce_trace fuel t s :
  trace (final (pollOnce fuel t s)) = trace s
  ∨ ∃ fuel' k,
      trace (final (pollOnce fuel t s))
      = trace (final (pollInner fuel' t
                        (mkSys (set_mResponseIndex k (looper s)) (world s)
                           (trace s)))).
Proof.
  remember (pollOnce fuel t s) as R eqn:ER. unfold pollOnce in ER.
  destruct fuel as [|fuel]; [subst R; by left|]. simpl in ER.
  unfold bind at 1 in ER. unfold getL at 1 in ER.
  destruct (replayResponses_spec _ s eq_refl) as (k & Hk & _).
  rewrite (bind_Ok_intro _ _ _ _ _ Hk) in ER.
  destruct (head (pending (looper s))); simpl in ER; [subst R; by left|].
  right. exists fuel, k. unfold bind at 1 in ER.
  set (s1 := mkSys (set_mResponseIndex k (looper s)) (world s) (trace s)) in *.
  destruct (pollInner_spec fuel t s1) as (waited & tr & _ & _ & Hok).
  destruct (pollInner fuel t s1) as [r1 s2|s2|s2] eqn:Ein;
    [|by subst R|by subst R].
  destruct (Hok r1 s2 eq_refl) as (Hr1 & _).
  destruct fuel as [|fuel]; [by subst R|]. simpl in ER.
  unfold bind at 1 in ER. unfold getL at 1 in ER.
  destruct (replayResponses_spec _ s2 eq_refl) as (k' & Hk' & _).
  rewrite (bind_Ok_intro _ _ _ _ _ Hk') in ER.
  destruct (head (pending (looper s2))); simpl in ER; [by subst R|].
  assert (r1 ≠ 0) as Hnz.
  { rewrite Hr1. destruct (existsb isDispatch tr); [done|].
    apply classify_nonzero. }
  apply Z.eqb_neq in Hnz. rewrite Hnz in ER. by subst R.
Qed.

Lemma responseOf_registered requests item r :
  responseOf requests item = Some r →
  Response.seq r = ee_u64 item
  ∧ requests !! Response.seq r = Some (Response.request r).
Proof.
  unfold responseOf. destruct (ee_u64 item =? WAKE_EVENT_FD_SEQ); [done|].
  destruct (requests !! ee_u64 item) eqn:E; [|done]. by intros [= <-].
Qed.

Lemma responsesOf_registered flag waited requests q :
  q ∈ map Response.seq (responsesOf flag waited requests) →
  is_Some (requests !! q).
Proof.
  unfold responsesOf. intros H. apply list_elem_of_fmap in H as (r & -> & Hr).
  destruct flag; [by apply elem_of_nil in Hr|].
  destruct waited as [e|items]; [by apply elem_of_nil in Hr|].
  apply list_elem_of_omap in Hr as (item & _ & Hi).
  apply responseOf_registered in Hi as [_ Hi]. eauto.
Qed.

Lemma inner_not_invoked qs q tr :
  q ∉ qs → Forall (isInnerEventOf qs) tr →
  ∀ cb fd ev d, EvHandleEvent q cb fd ev d ∉ tr.
Proof.
  intros Hq HP cb fd ev d Hin. rewrite Forall_forall in HP.
  apply HP in Hin. simpl in Hin. done.
Qed.

Lemma inner_not_wait qs tr :
  Forall (isInnerEventOf qs) tr → Forall (λ e, ¬ isWait e) tr.
Proof. intros H. eapply Forall_impl; [exact H|]. intros [] He; simpl in *; tauto. Qed.

Lemma pollInner_not_invoked fuel t s q :
  mRequests (looper s) !! q = None →
  ∃ tr, trace (final (pollInner fuel t s)) = trace s ++ tr
        ∧ ∀ cb fd ev d, EvHandleEvent q cb fd ev d ∉ tr.
Proof.
  intros Hq. destruct (pollInner_spec fuel t s) as (waited & tr & Ht & HP & _).
  eexists. split; [exact Ht|]. intros cb fd ev d Hin.
  apply elem_of_cons in Hin as [?|Hin]; [done|].
  eapply inner_not_invoked; [|exact HP|exact Hin].
  intros Hq'. apply responsesOf_registered in Hq' as [r Hr]. congruence.
Qed.

Lemma pollOnce_not_invoked fuel t s q :
  mRequests (looper s) !! q = None →
  ∃ tr, trace (final (pollOnce fuel t s)) = trace s ++ tr
        ∧ ∀ cb fd ev d, EvHandleEvent q cb fd ev d ∉ tr.
Proof.
  intros Hq. destruct (pollOnce_trace fuel t s) as [H|(fuel' & k & H)].
  - exists []. rewrite app_nil_r. split; [done|]. intros *. apply not_elem_of_nil.
  - rewrite H.
    apply (pollInner_not_invoked fuel' t
             (mkSys (set_mResponseIndex k (looper s)) (world s) (trace s)) q).
    by destruct s as [[] ? ?].
Qed.

Lemma addFd_replaces fd ident events cb data oldSeq s s' :
  tablesOk (looper s) →
  mNextRequestSeq (looper s) < UINT64_MOD - 1 →
  mSequenceNumberByFd (looper s) !! fd = Some oldSeq →
  addFd fd ident events cb data s = Ok 1 s' →
  let seq := mNextRequestSeq (looper s) in
  mRequests (looper s')
  = <[seq := Request.mk fd (storedIdent ident cb) events cb data]>
      (delete oldSeq (mRequests (looper s)))
  ∧ mSequenceNumberByFd (looper s') = <[fd := seq]> (mSequenceNumberByFd (looper s))
  ∧ oldSeq ≠ seq
  ∧ mRequests (looper s') !! oldSeq = None.
Proof.
  intros [Hag Hsq] Hn Hfd H. apply addFd_effect in H. simpl in H.
  rewrite (nextSeq_allocated _ Hsq), Hfd in H.
  destruct H as [(? & _)|(_ & _ & Hrq & Hix)]; [done|].
  destruct Hsq as [_ Hkeys]. destruct Hag as (H1 & _).
  destruct (H1 fd oldSeq Hfd) as (ro & Hro & _).
  pose proof (Hkeys _ _ Hro) as Hlt.
  assert (Hne : oldSeq ≠ mNextRequestSeq (looper s)) by lia.
  rewrite emplace_fresh in Hrq.
  2:{ rewrite lookup_delete_ne by done.
      destruct (mRequests (looper s) !! mNextRequestSeq (looper s)) eqn:E; [|done].
      apply Hkeys in E. lia. }
  simpl. rewrite Hrq, Hix. split; [done|]. split; [done|]. split; [done|].
  rewrite lookup_insert_ne by done. apply lookup_delete_eq.
Qed.

(** C2 (as amended): a second [addFd] on a registered descriptor erases the
    old request and points the index at the new sequence number; a ready
    item whose sequence number is not in the table of requests produces no
    response; and a poll that starts when a sequence number is not in the
    table never invokes a callback for it. *)
Theorem stale_registration_discarded :
  (∀ fd ident events cb data oldSeq s s',
     tablesOk (looper s) →
     mNextRequestSeq (looper s) < UINT64_MOD - 1 →
     mSequenceNumberByFd (looper s) !! fd = Some oldSeq →
     addFd fd ident events cb data s = Ok 1 s' →
     let seq := mNextRequestSeq (looper s) in
     mRequests (looper s')
     = <[seq := Request.mk fd (storedIdent ident cb) events cb data]>
         (delete oldSeq (mRequests (looper s)))
     ∧ mSequenceNumberByFd (looper s')
       = <[fd := seq]> (mSequenceNumberByFd (looper s))
     ∧ oldSeq ≠ seq
     ∧ mRequests (looper s') !! oldSeq = None)
  ∧ (∀ requests item,
       requests !! ee_u64 item = None → responseOf requests item = None)
  ∧ (∀ items s,
       ∃ w tr,
         handleItems items s
         = Ok tt (mkSys
                    (set_mResponses
                       (mResponses (looper s)
                        ++ omap (responseOf (mRequests (looper s))) items)
                       (looper s))
                    w (trace s ++ tr))
         ∧ Forall isKernelEvent tr)
  ∧ (∀ fuel t s q,
       mRequests (looper s) !! q = None →
       ∃ tr, trace (final (pollInner fuel t s)) = trace s ++ tr
             ∧ ∀ cb fd ev d, EvHandleEvent q cb fd ev d ∉ tr)
  ∧ (∀ fuel t s q,
       mRequests (looper s) !! q = None →
       ∃ tr, trace (final (pollOnce fuel t s)) = trace s ++ tr
             ∧ ∀ cb fd ev d, EvHandleEvent q cb fd ev d ∉ tr).
Proof.
  split; [exact addFd_replaces|].
  split.
  { intros requests item H. unfold responseOf. rewrite H.
    by destruct (ee_u64 item =? WAKE_EVENT_FD_SEQ). }
  split; [exact handleItems_Ok|].
  split; [exact pollInner_not_invoked|exact pollOnce_not_invoked].
Qed.

(** The drain records the deadline of the head it leaves in the queue. *)
Lemma drainMessages_records fuel : ∀ result s r s',
  mNextMessageUptime (looper s) = LLONG_MAX →
  drainMessages fuel result s = Ok r s' →
  mNextMessageUptime (looper s')
  = match mMessageEnvelopes (looper s') with
    | [] => LLONG_MAX
    | e :: _ => MessageEnvelope.uptime e
    end.
Proof.
  induction fuel as [|fuel IH]; intros result s r s' Hn H; simpl in H; [done|].
  destruct s as [l w t]. run.
  destruct (mMessageEnvelopes l) as [|e rest] eqn:Eq; simpl in *.
  { injection H as <- <-. simpl. by rewrite Eq. }
  destruct (systemTime w) as [now w1]. simpl in *.
  destruct (MessageEnvelope.uptime e <=? now); simpl in *.
  - match type of H with
    | context [runUser ?c ?s0] =>
        pose proof (runUser_Ok c s0) as Hok;
        destruct (runUser c s0) as [ru su|su|su] eqn:Eu; try done
    end.
    destruct (Hok _ _ eq_refl) as [Hp _].
    apply IH in H; [done|]. simpl.
    assert (mNextMessageUptime (pollState (looper su))
            = mNextMessageUptime (pollState
                (set_mSendingMessage true (set_mMessageEnvelopes rest l))))
      as Hm by (by rewrite Hp).
    simpl in Hm. by rewrite Hm.
  - injection H as <- <-. simpl. by rewrite Eq.
Qed.

Lemma nearestTimeout_cases a b :
  (b < 0 → nearestTimeout a b = a)
  ∧ (0 ≤ b → a < 0 → nearestTimeout a b = b)
  ∧ (0 ≤ b → 0 ≤ a → nearestTimeout a b = Z.min a b).
Proof.
  unfold nearestTimeout.
  destruct (b <? 0) eqn:E1, (a <? 0) eqn:E2; repeat split; intros; try done; lia.
Qed.

(** C9 (as amended): the timeout of the kernel wait of an inner poll is [0]
    for a timeout of [0]; it is the timeout of the caller when no deadline is
    recorded in [mNextMessageUptime]; otherwise it is the smaller of the
    timeout of the caller and the delay until the recorded deadline, a
    negative one meaning no limit.  The deadline is recorded by the drain of
    the previous inner poll, as that of the head it left in the queue.  A
    call of [pollOnce] with timeout [0] passes [0] to every kernel wait. *)
Theorem kernel_wait_timeout :
  (∀ fuel t s,
     ∃ waited tr,
       trace (final (pollInner fuel t s))
       = trace s
         ++ EvEpollWait
              (effectiveTimeout t (mNextMessageUptime (looper s))
                 (fst (systemTime (world s)))) waited :: tr
       ∧ Forall (λ e, ¬ isWait e) tr)
  ∧ (∀ next now, effectiveTimeout 0 next now = 0)
  ∧ (∀ t now, effectiveTimeout t LLONG_MAX now = t)
  ∧ (∀ t next now,
       t ≠ 0 → next ≠ LLONG_MAX →
       effectiveTimeout t next now
       = nearestTimeout t (toMillisecondTimeoutDelay now next))
  ∧ (∀ a b,
       (b < 0 → nearestTimeout a b = a)
       ∧ (0 ≤ b → a < 0 → nearestTimeout a b = b)
       ∧ (0 ≤ b → 0 ≤ a → nearestTimeout a b = Z.min a b))
  ∧ (∀ fuel result s r s',
       mNextMessageUptime (looper s) = LLONG_MAX →
       drainMessages fuel result s = Ok r s' →
       mNextMessageUptime (looper s')
       = match mMessageEnvelopes (looper s') with
         | [] => LLONG_MAX
         | e :: _ => MessageEnvelope.uptime e
         end)
  ∧ (∀ fuel s,
       ∃ tr, trace (final (pollOnce fuel 0 s)) = trace s ++ tr
             ∧ ∀ t' waited, EvEpollWait t' waited ∈ tr → t' = 0).
Proof.
  split.
  { intros fuel t s.
    destruct (pollInner_spec fuel t s) as (waited & tr & Ht & HP & _).
    exists waited, tr. split; [done|]. by eapply inner_not_wait. }
  split; [done|].
  split.
  { intros t now. unfold effectiveTimeout.
    destruct (t =? 0) eqn:E; [by apply Z.eqb_eq in E|done]. }
  split.
  { intros t next now Ht Hn. unfold effectiveTimeout.
    apply Z.eqb_neq in Ht, Hn. by rewrite Ht, Hn. }
  split; [exact nearestTimeout_cases|].
  split; [exact drainMessages_records|].
  intros fuel s. destruct (pollOnce_trace fuel 0 s) as [H|(fuel' & k & H)].
  - exists []. rewrite app_nil_r. split; [done|]. intros * Hin.
    by apply elem_of_nil in Hin.
  - rewrite H.
    match goal with
    | |- context [pollInner fuel' 0 ?s1] =>
        destruct (pollInner_spec fuel' 0 s1) as (waited & tr & Ht & HP & _)
    end.
    eexists. split; [exact Ht|]. intros t' waited' Hin.
    apply elem_of_cons in Hin as [[= -> _]|Hin]; [done|].
    rewrite Forall_forall in HP. apply HP in Hin. done.
Qed.

End Staleness.

Section MoreFuel.
Context {PF : Platform} {UC : UserCode} {TM : Timers}.

(** ** More fuel changes no result *)

Lemma drainMessages_mono fuel : ∀ fuel' result s r s',
  (fuel ≤ fuel')%nat →
  drainMessages fuel result s = Ok r s' →
  drainMessages fuel' result s = Ok r s'.
Proof.
  induction fuel as [|fuel IH]; intros fuel' result s r s' Hle H; [done|].
  destruct fuel' as [|fuel']; [lia|]. simpl in *.
  destruct s as [l w t]. run.
  destruct (mMessageEnvelopes l) as [|e rest]; simpl in *; [done|].
  destruct (systemTime w) as [now w1]. simpl in *.
  destruct (MessageEnvelope.uptime e <=? now); simpl in *; [|done].
  match type of H with
  | context [runUser ?c ?s0] =>
      destruct (runUser c s0) as [ru su|su|su]; try done
  end.
  simpl in *. apply (IH fuel'); [lia|done].
Qed.

Lemma pollInner_mono fuel fuel' t s r s' :
  (fuel ≤ fuel')%nat →
  pollInner fuel t s = Ok r s' → pollInner fuel' t s = Ok r s'.
Proof.
  intros Hle H. unfold pollInner in *.
  destruct (adjustTimeout_Ok t s) as [w1 Ha].
  rewrite (bind_Ok_intro _ _ _ _ _ Ha) in H.
  rewrite (bind_Ok_intro _ _ _ _ _ Ha).
  apply bind_Ok in H as (r0 & s2 & Hw & H).
  rewrite (bind_Ok_intro _ _ _ _ _ Hw).
  apply bind_Ok in H as ([] & s3 & Hm & H).
  rewrite (bind_Ok_intro _ _ _ _ _ Hm).
  apply bind_Ok in H as (r1 & s4 & Hd & H).
  by rewrite (bind_Ok_intro _ _ _ _ _ (drainMessages_mono _ _ _ _ _ _ Hle Hd)).
Qed.

Lemma pollOnceLoop_mono fuel : ∀ fuel' t result s res s',
  (fuel ≤ fuel')%nat →
  pollOnceLoop fuel t result s = Ok res s' →
  pollOnceLoop fuel' t result s = Ok res s'.
Proof.
  induction fuel as [|fuel IH]; intros fuel' t result s res s' Hle H; [done|].
  destruct fuel' as [|fuel']; [lia|]. simpl in *.
  apply bind_Ok in H as (l & s0 & Hg & H). rewrite (bind_Ok_intro _ _ _ _ _ Hg).
  apply bind_Ok in H as (rp & s1 & Hr & H). rewrite (bind_Ok_intro _ _ _ _ _ Hr).
  destruct rp as [rp|]; [done|].
  destruct (negb (result =? 0)); [done|].
  apply bind_Ok in H as (r1 & s2 & Hin & H).
  rewrite (bind_Ok_intro _ _ _ _ _ (pollInner_mono fuel fuel' _ _ _ _ ltac:(lia) Hin)).
  apply (IH fuel'); [lia|done].
Qed.

Lemma pollOnce_mono fuel fuel' t s res s' :
  (fuel ≤ fuel')%nat →
  pollOnce fuel t s = Ok res s' → pollOnce fuel' t s = Ok res s'.
Proof. apply pollOnceLoop_mono. Qed.

Lemma pollAllBlocking_mono fuel : ∀ fuel' t s res s',
  (fuel ≤ fuel')%nat →
  pollAllBlocking fuel t s = Ok res s' →
  pollAllBlocking fuel' t s = Ok res s'.
Proof.
  induction fuel as [|fuel IH]; intros fuel' t s res s' Hle H; [done|].
  destruct fuel' as [|fuel']; [lia|]. simpl in *.
  apply bind_Ok in H as (r1 & s1 & H1 & H).
  rewrite (bind_Ok_intro _ _ _ _ _ (pollOnce_mono fuel fuel' _ _ _ _ ltac:(lia) H1)).
  destruct (pr_result r1 =? POLL_CALLBACK); [|done].
  apply (IH fuel'); [lia|done].
Qed.

Lemma pollAllUntil_mono fuel : ∀ fuel' endTime t s res s',
  (fuel ≤ fuel')%nat →
  pollAllUntil fuel endTime t s = Ok res s' →
  pollAllUntil fuel' endTime t s = Ok res s'.
Proof.
  induction fuel as [|fuel IH]; intros fuel' endTime t s res s' Hle H; [done|].
  destruct fuel' as [|fuel']; [lia|]. simpl in *.
  apply bind_Ok in H as (r1 & s1 & H1 & H).
  rewrite (bind_Ok_intro _ _ _ _ _ (pollOnce_mono fuel fuel' _ _ _ _ ltac:(lia) H1)).
  destruct (negb (pr_result r1 =? POLL_CALLBACK)); [done|].
  apply bind_Ok in H as (now & s2 & Hn & H).
  rewrite (bind_Ok_intro _ _ _ _ _ Hn).
  destruct (toMillisecondTimeoutDelay now endTime =? 0); [done|].
  apply (IH fuel'); [lia|done].
Qed.

(** ** Every chain of calls is a run of pollAll *)

Lemma pollsUntil_run t s res s' :
  pollsUntil t s res s' → ∃ fuel, pollAllBlocking fuel t s = Ok res s'.
Proof.
  induction 1 as [fuel s res s' H1 Hne|fuel s r1 s1 res s' H1 Hcb _ [fuel0 IH]].
  - exists (S fuel). simpl. rewrite (bind_Ok_intro _ _ _ _ _ H1).
    apply Z.eqb_neq in Hne. by rewrite Hne.
  - exists (S (fuel `max` fuel0)). simpl.
    rewrite (bind_Ok_intro _ _ _ _ _
               (pollOnce_mono fuel (fuel `max` fuel0) _ _ _ _ ltac:(lia) H1)).
    rewrite Hcb. simpl.
    apply (pollAllBlocking_mono fuel0); [lia|done].
Qed.

Lemma pollsBefore_run endTime t s res s' :
  pollsBefore endTime t s res s' →
  ∃ fuel, pollAllUntil fuel endTime t s = Ok res s'.
Proof.
  induction 1 as [fuel t s res s' H1 Hne
                 |fuel t s r1 s1 now w H1 Hcb Hs Ht
                 |fuel t s r1 s1 now w res s' H1 Hcb Hs Ht _ [fuel0 IH]].
  - exists (S fuel). simpl. rewrite (bind_Ok_intro _ _ _ _ _ H1).
    apply Z.eqb_neq in Hne. by rewrite Hne.
  - exists (S fuel). simpl. rewrite (bind_Ok_intro _ _ _ _ _ H1).
    rewrite Hcb. simpl. unfold bind, sys. rewrite Hs, Ht. done.
  - exists (S (fuel `max` fuel0)). simpl.
    rewrite (bind_Ok_intro _ _ _ _ _
               (pollOnce_mono fuel (fuel `max` fuel0) _ _ _ _ ltac:(lia) H1)).
    rewrite Hcb. simpl. unfold bind at 1, sys at 1. rewrite Hs.
    apply Z.eqb_neq in Ht. rewrite Ht.
    apply (pollAllUntil_mono fuel0); [lia|done].
Qed.

Lemma pollAll_run_blocking t s res s' :
  t ≤ 0 → pollsUntil t s res s' → ∃ fuel, pollAll fuel t s = Ok res s'.
Proof.
  intros Ht H. destruct (pollsUntil_run t s res s' H) as [fuel Hf].
  exists fuel. unfold pollAll. apply Z.leb_le in Ht. by rewrite Ht.
Qed.

Lemma pollAll_run_until t s res s' :
  0 < t →
  pollsBefore
    (add_i64 (fst (systemTime (world s))) (milliseconds_to_nanoseconds t))
    t (mkSys (looper s) (snd (systemTime (world s))) (trace s)) res s' →
  ∃ fuel, pollAll fuel t s = Ok res s'.
Proof.
  intros Ht H. destruct (pollsBefore_run _ _ _ _ _ H) as [fuel Hf].
  exists fuel. unfold pollAll. apply Z.leb_gt in Ht. rewrite Ht.
  unfold bind, sys. by destruct (systemTime (world s)).
Qed.

End MoreFuel.

Section EventBits.
Context {PF : Platform} {UC : UserCode} {TM : Timers}.

(** ** The event bits *)

Lemma land_pow2 e k :
  0 ≤ k → Z.land e (2 ^ k) = if Z.testbit e k then 2 ^ k else 0.
Proof.
  intros Hk. apply Z.bits_inj'. intros n Hn.
  rewrite Z.land_spec, Z.pow2_bits_eqb by done.
  destruct (Z.eqb_spec k n) as [->|Hne].
  - destruct (Z.testbit e n) eqn:E; simpl.
    + by rewrite Z.pow2_bits_true.
    + by rewrite Z.bits_0.
  - rewrite andb_false_r. destruct (Z.testbit e k).
    + by rewrite Z.pow2_bits_false.
    + by rewrite Z.bits_0.
Qed.

Lemma getEpollEvents_bits r :
  getEpollEvents r
  = Z.lor (if Z.testbit (Request.events r) 0 then EPOLLIN else 0)
      (if Z.testbit (Request.events r) 1 then EPOLLOUT else 0).
Proof.
  unfold getEpollEvents.
  change EVENT_INPUT with (2 ^ 0). change EVENT_OUTPUT with (2 ^ 1).
  rewrite !land_pow2 by lia.
  by destruct (Z.testbit (Request.events r) 0),
       (Z.testbit (Request.events r) 1).
Qed.

Lemma translateEvents_bits x :
  translateEvents x
  = Z.lor (Z.lor (Z.lor (if Z.testbit x 0 then EVENT_INPUT else 0)
                    (if Z.testbit x 2 then EVENT_OUTPUT else 0))
             (if Z.testbit x 3 then EVENT_ERROR else 0))
      (if Z.testbit x 4 then EVENT_HANGUP else 0).
Proof.
  unfold translateEvents.
  change EPOLLIN with (2 ^ 0). change EPOLLOUT with (2 ^ 2).
  change EPOLLERR with (2 ^ 3). change EPOLLHUP with (2 ^ 4).
  rewrite !land_pow2 by lia.
  by destruct (Z.testbit x 0), (Z.testbit x 2), (Z.testbit x 3),
       (Z.testbit x 4).
Qed.

(** X1: the epoll mask of a request asks for [EPOLLIN] and [EPOLLOUT] only,
    by the bits [EVENT_INPUT] and [EVENT_OUTPUT] of its events, and
    translating that mask back gives those two bits of the events again.
    The translation of whatever the kernel reports keeps the four bits for
    input, output, error and hangup and nothing else. *)
Theorem event_bits_round_trip :
  (∀ r, translateEvents (getEpollEvents r)
        = Z.land (Request.events r) (Z.lor EVENT_INPUT EVENT_OUTPUT))
  ∧ (∀ r, Z.land (getEpollEvents r) (Z.lnot (Z.lor EPOLLIN EPOLLOUT)) = 0)
  ∧ (∀ x, 0 ≤ translateEvents x < 16
          ∧ Z.testbit (translateEvents x) 0 = Z.testbit x 0
          ∧ Z.testbit (translateEvents x) 1 = Z.testbit x 2
          ∧ Z.testbit (translateEvents x) 2 = Z.testbit x 3
          ∧ Z.testbit (translateEvents x) 3 = Z.testbit x 4).
Proof.
  split; [|split].
  - intros r. rewrite getEpollEvents_bits, translateEvents_bits.
    rewrite Z.land_lor_distr_r.
    change EVENT_INPUT with (2 ^ 0). change EVENT_OUTPUT with (2 ^ 1).
    rewrite !land_pow2 by lia.
    by destruct (Z.testbit (Request.events r) 0),
         (Z.testbit (Request.events r) 1).
  - intros r. rewrite getEpollEvents_bits.
    by destruct (Z.testbit (Request.events r) 0),
         (Z.testbit (Request.events r) 1).
  - intros x. rewrite translateEvents_bits.
    by destruct (Z.testbit x 0), (Z.testbit x 2), (Z.testbit x 3),
         (Z.testbit x 4).
Qed.

End EventBits.

Section Removal.
Context {PF : Platform} {UC : UserCode} {TM : Timers}.

(** ** removeMessages *)

Lemma removeMessagesFrom_filter matches i : ∀ q,
  (i ≤ length q)%nat →
  removeMessagesFrom matches i q
  = List.filter (λ e, negb (matches e)) (take i q) ++ drop i q.
Proof.
  induction i as [|i IH]; intros q Hi; simpl; [by rewrite drop_0|].
  destruct (lookup_lt_is_Some_2 q i) as [e He]; [lia|].
  rewrite He. rewrite (take_S_r _ _ _ He), List.filter_app. simpl.
  destruct (matches e) eqn:Em; simpl.
  - rewrite IH by (rewrite length_delete by eauto; lia).
    assert (length (take i q) = i) as Hl by (rewrite length_take; lia).
    rewrite app_nil_r, delete_take_drop.
    by rewrite take_app_length', drop_app_length'.
  - rewrite IH by lia. rewrite <- app_assoc. simpl.
    by rewrite (drop_S _ _ _ He).
Qed.

Lemma filter_sublist_list {A : Type} (f : A → bool) (l : list A) :
  List.filter f l `sublist_of` l.
Proof.
  induction l as [|x l IH]; simpl; [done|].
  destruct (f x); [by apply sublist_skip | by apply sublist_cons].
Qed.

Lemma filter_elem {A : Type} (f : A → bool) (l : list A) x :
  x ∈ List.filter f l ↔ x ∈ l ∧ f x = true.
Proof. rewrite !list_elem_of_In. apply filter_In. Qed.

Lemma sortedQueue_filter f q :
  sortedQueue q → sortedQueue (List.filter f q).
Proof.
  unfold sortedQueue. induction q as [|e q IH]; simpl; [done|].
  intros H. apply StronglySorted_inv in H as [Hs Hall].
  destruct (f e); simpl; [|by apply IH].
  constructor; [by apply IH|].
  rewrite Forall_forall in *. intros t Ht.
  apply list_elem_of_fmap in Ht as (e' & -> & He').
  apply filter_elem in He' as [He' _].
  apply Hall, list_elem_of_fmap. eauto.
Qed.

Lemma removeMessages_Ok h w s :
  removeMessages h w s
  = Ok tt (mkSys
             (set_mMessageEnvelopes
                (List.filter (λ e, negb (removalMatches h w e))
                   (mMessageEnvelopes (looper s)))
                (looper s))
             (world s) (trace s)).
Proof.
  unfold removeMessages, modL. do 3 f_equal.
  rewrite removeMessagesFrom_filter by done.
  rewrite firstn_all, drop_all, app_nil_r.
  by destruct w.
Qed.

(** X2: [removeMessages] always returns; it takes out of the queue exactly
    the envelopes of the handler (with the given [what], when one is
    given), leaves the others in their order, so that a queue in order of
    deadline stays so, and it touches nothing else: no wake, no other
    member, no call of the kernel. *)
Theorem removeMessages_filters :
  ∀ h w s,
    let q := mMessageEnvelopes (looper s) in
    let q' := List.filter (λ e, negb (removalMatches h w e)) q in
    removeMessages h w s
    = Ok tt (mkSys (set_mMessageEnvelopes q' (looper s)) (world s) (trace s))
    ∧ (∀ e, e ∈ q' ↔ e ∈ q ∧ removalMatches h w e = false)
    ∧ q' `sublist_of` q
    ∧ (sortedQueue q → sortedQueue q').
Proof.
  intros h w s q q'. split; [apply removeMessages_Ok|].
  split; [|split].
  - intros e. unfold q'. rewrite filter_elem.
    destruct (removalMatches h w e); simpl; split; intros [? ?]; done.
  - apply filter_sublist_list.
  - apply sortedQueue_filter.
Qed.

Lemma pollOnce_order :
  (∀ h m w, queueQuiet (fst (handleMessage h m w))) →
  ∀ fuel t s res s',
    pollOnce fuel t s = Ok res s' →
    ∃ k tr,
      trace s' = trace s ++ tr
      ∧ dispatchedMessages tr
        = addressed <$> take k (mMessageEnvelopes (looper s)).
Proof.
  intros Hq fuel t s res s' H.
  destruct (pending (looper s)) as [|r rest] eqn:Hp.
  - destruct (pollOnce_idle fuel t s res s' Hp H)
      as (fuel' & k & r1 & s2 & k' & Hin & -> & _).
    by apply (pollInner_order Hq) in Hin.
  - destruct fuel as [|fuel]; [done|].
    destruct (pollOnce_pending fuel t s r rest Hp) as (k & Hk & _).
    rewrite Hk in H. injection H as <- <-.
    exists 0%nat, []. simpl. by rewrite app_nil_r.
Qed.

End Removal.

Section FuelRules.
Context {PF : Platform} {UC : UserCode} {TM : Timers}.

(** ** Which computations need fuel *)

Lemma nof_ret {A : Type} (a : A) : neverOutOfFuel (ret a).
Proof. by intros s s'. Qed.

Lemma nof_bind {A B : Type} (m : M A) (f : A → M B) :
  neverOutOfFuel m → (∀ a, neverOutOfFuel (f a)) → neverOutOfFuel (bind m f).
Proof.
  intros Hm Hf s s'. unfold bind. specialize (Hm s).
  destruct (m s) as [a s1|s1|s1]; [apply Hf | done | by destruct (Hm s1)].
Qed.

Lemma nof_getL : neverOutOfFuel getL.
Proof. by intros s s'. Qed.

Lemma nof_modL f : neverOutOfFuel (modL f).
Proof. by intros s s'. Qed.

Lemma nof_sys {A : Type} (f : World → A * World) : neverOutOfFuel (sys f).
Proof. intros s s'. unfold sys. by destruct (f (world s)). Qed.

Lemma nof_sys_ (f : World → World) : neverOutOfFuel (sys_ f).
Proof. by intros s s'. Qed.

Lemma nof_emit e : neverOutOfFuel (emit e).
Proof. by intros s s'. Qed.

Lemma nof_fatal {A : Type} : neverOutOfFuel (@fatal _ A).
Proof. by intros s s'. Qed.

End FuelRules.

Ltac nof_step :=
  first
    [ apply nof_ret
    | apply nof_getL
    | apply nof_fatal
    | apply nof_modL
    | apply nof_sys
    | apply nof_sys_
    | apply nof_emit
    | apply nof_bind; [|intros ?]
    | match goal with
      | |- neverOutOfFuel (match ?x with _ => _ end) => destruct x eqn:?
      | |- neverOutOfFuel (let _ := ?x in _) => cbv zeta
      end ].

Section Fuel.
Context {PF : Platform} {UC : UserCode} {TM : Timers}.

Lemma wake_nof : neverOutOfFuel wake.
Proof. unfold wake. repeat nof_step. Qed.

Lemma scheduleEpollRebuildLocked_nof : neverOutOfFuel scheduleEpollRebuildLocked.
Proof. unfold scheduleEpollRebuildLocked. repeat (first [ apply wake_nof | nof_step ]). Qed.

Lemma addFd_nof fd ident events cb data :
  neverOutOfFuel (addFd fd ident events cb data).
Proof.
  unfold addFd. repeat (first [ apply scheduleEpollRebuildLocked_nof | nof_step ]).
Qed.

Lemma removeSequenceNumberLocked_nof seq :
  neverOutOfFuel (removeSequenceNumberLocked seq).
Proof.
  unfold removeSequenceNumberLocked.
  repeat (first [ apply scheduleEpollRebuildLocked_nof | nof_step ]).
Qed.

Lemma removeFd_nof fd : neverOutOfFuel (removeFd fd).
Proof.
  unfold removeFd. repeat (first [ apply removeSequenceNumberLocked_nof | nof_step ]).
Qed.

Lemma repoll_nof fd : neverOutOfFuel (repoll fd).
Proof. unfold repoll. repeat nof_step. Qed.

Lemma sendMessageAtTime_nof t h m : neverOutOfFuel (sendMessageAtTime t h m).
Proof. unfold sendMessageAtTime. repeat (first [ apply wake_nof | nof_step ]). Qed.

Lemma removeMessages_nof h w : neverOutOfFuel (removeMessages h w).
Proof. unfold removeMessages. repeat nof_step. Qed.

Lemma exec_nof c : neverOutOfFuel (exec c).
Proof.
  destruct c; simpl; unfold sendMessage, sendMessageDelayed;
    repeat (first [ apply addFd_nof | apply removeFd_nof | apply repoll_nof | apply sendMessageAtTime_nof | apply removeMessages_nof | apply wake_nof | nof_step ]).
Qed.

Lemma runProg_nof p : neverOutOfFuel (runProg p).
Proof.
  induction p as [r|c k IH]; simpl; repeat (first [ apply exec_nof | nof_step ]).
  apply IH.
Qed.

Lemma runUser_nof code : neverOutOfFuel (runUser code).
Proof. unfold runUser. repeat (first [ apply runProg_nof | nof_step ]). Qed.

Lemma rebuildRequests_nof rs : neverOutOfFuel (rebuildRequests rs).
Proof.
  induction rs as [|[seq request] rs IH]; simpl; repeat nof_step. apply IH.
Qed.

Lemma rebuildEpollLocked_nof : neverOutOfFuel rebuildEpollLocked.
Proof.
  unfold rebuildEpollLocked. repeat (first [ apply rebuildRequests_nof | nof_step ]).
Qed.

Lemma handleItems_nof items : neverOutOfFuel (handleItems items).
Proof.
  induction items as [|item items IH]; simpl; [apply nof_ret|].
  apply nof_bind; [|intros _; apply IH].
  unfold handleItem, awoken. repeat nof_step.
Qed.

Lemma pollWait_nof t : neverOutOfFuel (pollWait t).
Proof.
  unfold pollWait.
  repeat (first [ apply rebuildEpollLocked_nof | apply handleItems_nof | nof_step ]).
Qed.

Lemma adjustTimeout_nof t : neverOutOfFuel (adjustTimeout t).
Proof. unfold adjustTimeout. repeat nof_step. Qed.

Lemma invokeCallbacks_nof n : ∀ i result,
  neverOutOfFuel (invokeCallbacks n i result).
Proof.
  induction n as [|n IH]; intros i result; simpl; [apply nof_ret|].
  repeat (first [ apply runUser_nof | apply removeSequenceNumberLocked_nof | apply IH | nof_step ]).
Qed.

Lemma replayResponses_nof n : neverOutOfFuel (replayResponses n).
Proof.
  induction n as [|n IH]; simpl; [apply nof_ret|].
  repeat (first [ apply IH | nof_step ]).
Qed.

End Fuel.

Section Deadlines.
Context {PF : Platform} {UC : UserCode} {TM : Timers}.

(** ** The drain against the clock *)

Lemma dueCount_le_length t q : (dueCount t q ≤ length q)%nat.
Proof.
  induction q as [|e q IH]; simpl; [done|].
  destruct (MessageEnvelope.uptime e <=? t); simpl; lia.
Qed.

Lemma drainMessages_due lo hi :
  (∀ h m w, queueQuiet (fst (handleMessage h m w))) →
  clockWithin lo hi →
  ∀ fuel result s r s',
    drainMessages fuel result s = Ok r s' →
    ∃ k tr,
      trace s' = trace s ++ tr
      ∧ dispatchedMessages tr
        = addressed <$> take k (mMessageEnvelopes (looper s))
      ∧ mMessageEnvelopes (looper s') = drop k (mMessageEnvelopes (looper s))
      ∧ (dueCount lo (mMessageEnvelopes (looper s)) ≤ k
         ≤ dueCount hi (mMessageEnvelopes (looper s)))%nat.
Proof.
  intros Hq Hclock.
  induction fuel as [|fuel IH]; intros result s r s' H; simpl in H; [done|].
  destruct s as [l w t]. run.
  destruct (mMessageEnvelopes l) as [|e rest] eqn:Eq; simpl in *.
  { injection H as <- <-. exists 0%nat, []. simpl. by rewrite app_nil_r. }
  pose proof (Hclock w) as Hnow.
  destruct (systemTime w) as [now w1]. simpl in *.
  destruct (MessageEnvelope.uptime e <=? now) eqn:Edue; simpl in *.
  - apply Z.leb_le in Edue.
    unfold runUser, bind, sys in H. simpl in H.
    specialize (Hq (MessageEnvelope.handler e) (MessageEnvelope.message e) w1).
    destruct (handleMessage (MessageEnvelope.handler e)
                (MessageEnvelope.message e) w1) as [p w2] eqn:Eh.
    simpl in Hq, H.
    match type of H with
    | context [runProg p ?s0] =>
        destruct (runProg p s0) as [ru su|su|su] eqn:Eu; try done;
        destruct (triple_Ok _ _ _ _ s0 _ _ (runProg_queue rest p Hq) eq_refl Eu)
          as [(tru & Htu & HPu) Hqu]
    end.
    simpl in *. apply IH in H as (k & tr2 & Ht2 & Hd2 & Hq2 & Hk). simpl in *.
    unfold queueIs in Hqu. rewrite Hqu in *.
    exists (S k), (EvHandleMessage (MessageEnvelope.handler e)
                     (MessageEnvelope.message e) :: tru ++ tr2).
    split; [rewrite Ht2, Htu, <- !app_assoc; done|].
    split.
    { rewrite dispatchedMessages_cons, dispatchedMessages_app,
        (dispatchedMessages_api tru HPu), Hd2. done. }
    split; [done|].
    assert ((MessageEnvelope.uptime e <=? hi) = true) as ->
      by (apply Z.leb_le; lia).
    destruct (MessageEnvelope.uptime e <=? lo); lia.
  - apply Z.leb_gt in Edue. injection H as <- <-.
    exists 0%nat, []. simpl. rewrite app_nil_r.
    assert ((MessageEnvelope.uptime e <=? lo) = false) as ->
      by (apply Z.leb_gt; lia).
    repeat split; try done. lia.
Qed.

Lemma drainMessages_fuel :
  (∀ h m w, queueQuiet (fst (handleMessage h m w))) →
  ∀ fuel result s s',
    (length (mMessageEnvelopes (looper s)) < fuel)%nat →
    drainMessages fuel result s ≠ OutOfFuel s'.
Proof.
  intros Hq. induction fuel as [|fuel IH]; intros result s s' Hlen; [lia|].
  simpl. destruct s as [l w t]. run.
  destruct (mMessageEnvelopes l) as [|e rest] eqn:Eq; simpl in *; [done|].
  destruct (systemTime w) as [now w1]. simpl in *.
  destruct (MessageEnvelope.uptime e <=? now); simpl in *; [|done].
  unfold runUser, bind, sys. simpl.
  specialize (Hq (MessageEnvelope.handler e) (MessageEnvelope.message e) w1).
  destruct (handleMessage (MessageEnvelope.handler e)
              (MessageEnvelope.message e) w1) as [p w2] eqn:Eh.
  simpl in Hq |- *.
  match goal with
  | |- context [runProg p ?s0] =>
      pose proof (runProg_nof p s0) as Hnof;
      destruct (runProg p s0) as [ru su|su|su] eqn:Eu; [|done|by destruct (Hnof su)];
      destruct (triple_Ok _ _ _ _ s0 _ _ (runProg_queue rest p Hq) eq_refl Eu)
        as [_ Hqu]
  end.
  simpl. apply IH. simpl. unfold queueIs in Hqu. rewrite Hqu. lia.
Qed.

Lemma pollInner_fuel :
  (∀ h m w, queueQuiet (fst (handleMessage h m w))) →
  ∀ fuel t s s',
    (length (mMessageEnvelopes (looper s)) < fuel)%nat →
    pollInner fuel t s ≠ OutOfFuel s'.
Proof.
  intros Hq fuel t s s' Hlen. unfold pollInner.
  destruct (adjustTimeout_Ok t s) as [w1 Ha].
  rewrite (bind_Ok_intro _ _ _ _ _ Ha).
  unfold bind at 1.
  match goal with
  | |- context [pollWait ?p ?s1] =>
      pose proof (pollWait_nof p s1) as Hnof;
      destruct (pollWait_final p s1) as (tr1 & _ & _ & Hok1);
      destruct (pollWait p s1) as [r0 s2|s2|s2] eqn:Ew;
        [|done|by destruct (Hnof s2)]
  end.
  destruct (Hok1 r0 s2 eq_refl) as (_ & x & Hl2). simpl in Hl2.
  unfold bind at 1, modL at 1. unfold bind at 1.
  match goal with
  | |- context [drainMessages fuel r0 ?s3] =>
      pose proof (drainMessages_fuel Hq fuel r0 s3) as Hd;
      destruct (drainMessages fuel r0 s3) as [r1 s4|s4|s4] eqn:Ed; [|done|]
  end.
  - unfold bind, getL. apply invokeCallbacks_nof.
  - exfalso. apply (Hd s4); [|done]. simpl. by rewrite Hl2.
Qed.

Lemma pollOnce_fuel :
  (∀ h m w, queueQuiet (fst (handleMessage h m w))) →
  ∀ fuel t s s',
    (length (mMessageEnvelopes (looper s)) + 2 ≤ fuel)%nat →
    pollOnce fuel t s ≠ OutOfFuel s'.
Proof.
  intros Hq fuel t s s' Hlen. unfold pollOnce.
  destruct fuel as [|fuel]; [lia|]. simpl.
  unfold bind at 1. unfold getL at 1.
  destruct (replayResponses_spec _ s eq_refl) as (k & Hk & _).
  rewrite (bind_Ok_intro _ _ _ _ _ Hk).
  destruct (head (pending (looper s))); simpl; [done|].
  unfold bind at 1.
  set (s1 := mkSys (set_mResponseIndex k (looper s)) (world s) (trace s)).
  pose proof (pollInner_fuel Hq fuel t s1) as Hin.
  destruct (pollInner_spec fuel t s1) as (waited & tr & _ & _ & Hok).
  destruct (pollInner fuel t s1) as [r1 s2|s2|s2] eqn:Ein; [|done|].
  2:{ exfalso. apply (Hin s2); [|done]. simpl. lia. }
  destruct (Hok r1 s2 eq_refl) as (Hr1 & _).
  destruct fuel as [|fuel]; [lia|]. simpl.
  unfold bind at 1. unfold getL at 1.
  destruct (replayResponses_spec _ s2 eq_refl) as (k' & Hk' & _).
  rewrite (bind_Ok_intro _ _ _ _ _ Hk').
  destruct (head (pending (looper s2))); simpl; [done|].
  assert (r1 ≠ 0) as Hnz.
  { rewrite Hr1. destruct (existsb isDispatch tr); [done|].
    apply classify_nonzero. }
  apply Z.eqb_neq in Hnz. by rewrite Hnz.
Qed.

Lemma invokeCallbacks_deadline n : ∀ i result s r s',
  invokeCallbacks n i result s = Ok r s' →
  mNextMessageUptime (looper s') = mNextMessageUptime (looper s).
Proof.
  induction n as [|n IH]; intros i result s r s' H; simpl in H.
  { by injection H as <- <-. }
  destruct s as [l w t]. run.
  destruct (mResponses l !! i) as [response|] eqn:Er; simpl in *.
  2:{ by injection H as <- <-. }
  destruct (Request.ident (Response.request response) =? POLL_CALLBACK).
  2:{ by apply IH in H. }
  destruct (Request.callback (Response.request response)) as [cb|]; [|done].
  simpl in *.
  match type of H with
  | context [runUser ?c ?s0] =>
      destruct (runUser c s0) as [ru su|su|su] eqn:Eu; try done;
      apply runUser_Ok in Eu as [Hp _]
  end.
  assert (mNextMessageUptime (looper su) = mNextMessageUptime l) as Hsu.
  { change (mNextMessageUptime (pollState (looper su))
            = mNextMessageUptime (pollState l)).
    by rewrite Hp. }
  simpl in *. destruct (ru =? 0).
  - destruct (removeSequenceNumberLocked (Response.seq response) su)
      as [rr sr|sr|sr] eqn:Err; try done; simpl in *.
    apply removeSequenceNumberLocked_Ok in Err as [Hp2 _].
    apply IH in H. simpl in H. rewrite H, <- Hsu.
    change (mNextMessageUptime (pollState (looper sr))
            = mNextMessageUptime (pollState (looper su))).
    by rewrite Hp2.
  - apply IH in H. simpl in H. by rewrite H.
Qed.




End Deadlines.

Section Refusals.
Context {PF : Platform} {UC : UserCode} {TM : Timers}.

(** ** removeFd when the kernel refuses the delete *)

Lemma removeFd_refused fd seq request s :
  mSequenceNumberByFd (looper s) !! fd = Some seq →
  mRequests (looper s) !! seq = Some request →
  Request.fd request = fd →
  let res := removeFd fd s in
  let cr := epoll_ctl (mEpollFd (looper s)) EPOLL_CTL_DEL fd None (world s) in
  fst (fst cr) < 0 → snd (fst cr) ≠ EBADF → snd (fst cr) ≠ ENOENT →
  mEpollRebuildRequired (looper (final res)) = true
  ∧ ((∃ s', res = Ok (-1) s')
     ∨ (∃ s', res = Fatal s' ∧ mEpollRebuildRequired (looper s) = false
              ∧ wakeFails (mkSys (looper s) (snd cr) (trace s)))).
Proof.
  intros Hfd Hseq Hreq. unfold removeFd, removeSequenceNumberLocked,
    scheduleEpollRebuildLocked, wake, wakeFails.
  destruct s as [l w t]. subst fd. run. rewrite Hfd. simpl. rewrite Hseq. simpl.
  destruct (epoll_ctl _ _ _ _ _) as [[r e] w']. simpl.
  intros Hr H1 H2. apply Z.ltb_lt in Hr. rewrite Hr. simpl.
  apply Z.eqb_neq in H1. apply Z.eqb_neq in H2. rewrite H1, H2. simpl.
  destruct (mEpollRebuildRequired l) eqn:Ef; simpl.
  - split; [done|]. left. eauto.
  - destruct (write_u64 _ _) as [[n e'] w'']. simpl.
    destruct (n =? 8) eqn:En; simpl;
      [|destruct (e' =? EAGAIN) eqn:Eg; simpl].
    + split; [done|]. left. eauto.
    + split; [done|]. left. eauto.
    + split; [done|]. right. eexists. split; [done|].
      split; [done|]. split; [by apply Z.eqb_neq|by apply Z.eqb_neq].
Qed.

(** ** pollOnce with nothing pending returns *)

Lemma pollOnce_idle_run fuel t s :
  pending (looper s) = [] →
  ∃ k, ∀ r1 s2,
    pollInner fuel t (mkSys (set_mResponseIndex k (looper s)) (world s) (trace s))
    = Ok r1 s2 →
    ∃ k',
      pollOnce (S (S fuel)) t s
      = Ok (match head (pending (looper s2)) with
            | Some r => deliver r
            | None => mkPollResult r1 0 0 0
            end)
          (mkSys (set_mResponseIndex k' (looper s2)) (world s2) (trace s2))
      ∧ pending (set_mResponseIndex k' (looper s2)) = tail (pending (looper s2)).
Proof.
  intros Hp.
  destruct (replayResponses_spec _ s eq_refl) as (k & Hk & Hpk & _).
  exists k. intros r1 s2 Hin.
  destruct (replayResponses_spec _ s2 eq_refl) as (k' & Hk' & Hpk' & _).
  exists k'.
  apply (pollInner_mono fuel (S fuel)) in Hin as Hin'; [|lia].
  unfold pollOnce. simpl. unfold bind at 1. unfold getL at 1.
  rewrite (bind_Ok_intro _ _ _ _ _ Hk). rewrite Hp in *. simpl in *.
  rewrite (bind_Ok_intro _ _ _ _ _ Hin').
  unfold bind at 1. unfold getL at 1.
  rewrite (bind_Ok_intro _ _ _ _ _ Hk').
  destruct (pollInner_spec fuel t
              (mkSys (set_mResponseIndex k (looper s)) (world s) (trace s)))
    as (waited & tr & _ & _ & Hok).
  destruct (Hok r1 s2 Hin) as (Hr1 & _ & _).
  destruct (pending (looper s2)) as [|r rest]; simpl in *.
  - assert (r1 ≠ 0) as Hnz.
    { rewrite Hr1. destruct (existsb isDispatch tr); [done|].
      apply classify_nonzero. }
    apply Z.eqb_neq in Hnz. rewrite Hnz. simpl. done.
  - done.
Qed.

End Refusals.

Section UserCalls.
Context {PF : Platform} {UC : UserCode} {TM : Timers}.

(** ** The queue under user code *)

Lemma insertAt_sublist {A : Type} (x : A) i (l : list A) :
  l `sublist_of` insertAt x i l.
Proof.
  unfold insertAt. rewrite <- (take_drop i l) at 1.
  apply sublist_app; [done|]. by apply sublist_cons.
Qed.

Lemma enqueue_sublist e q : q `sublist_of` enqueue e q.
Proof. apply insertAt_sublist. Qed.

(** What one call does to the queue. *)
Lemma exec_queue_step c s r s' :
  exec c s = Ok r s' →
  (removesMessages c = false
   ∧ (mMessageEnvelopes (looper s') = mMessageEnvelopes (looper s)
      ∨ ∃ e, mMessageEnvelopes (looper s')
             = enqueue e (mMessageEnvelopes (looper s))))
  ∨ (removesMessages c = true
     ∧ ∃ f, mMessageEnvelopes (looper s')
            = List.filter f (mMessageEnvelopes (looper s))).
Proof.
  intros H.
  destruct (touchesQueue c) eqn:Et.
  - destruct c as [| | |h m|d h m|t h m|h w|]; try done; simpl in H.
    + left. split; [done|]. right.
      apply bind_Ok in H as ([] & s1 & H & Hr). injection Hr as <- <-. unfold sendMessage in H.
      apply bind_Ok in H as (now & s0 & H0 & H). unfold sys in H0.
      destruct (systemTime (world s)) as [now' w']. injection H0 as <- <-.
      pose proof (sendMessageAtTime_queue now' h m
                    (mkSys (looper s) w' (trace s))) as Hq.
      rewrite H in Hq. simpl in Hq. rewrite Hq. eauto.
    + left. split; [done|]. right.
      apply bind_Ok in H as ([] & s1 & H & Hr). injection Hr as <- <-. unfold sendMessageDelayed in H.
      apply bind_Ok in H as (now & s0 & H0 & H). unfold sys in H0.
      destruct (systemTime (world s)) as [now' w']. injection H0 as <- <-.
      pose proof (sendMessageAtTime_queue (add_i64 now' d) h m
                    (mkSys (looper s) w' (trace s))) as Hq.
      rewrite H in Hq. simpl in Hq. rewrite Hq. eauto.
    + left. split; [done|]. right.
      apply bind_Ok in H as ([] & s1 & H & Hr). injection Hr as <- <-.
      pose proof (sendMessageAtTime_queue t h m s) as Hq.
      rewrite H in Hq. simpl in Hq. rewrite Hq. eauto.
    + right. apply bind_Ok in H as ([] & s1 & H & Hr). injection Hr as <- <-.
      rewrite removeMessages_Ok in H. injection H as <-. simpl. eauto.
  - left. split; [by destruct c|]. left.
    destruct (triple_Ok _ _ _ _ s _ _
                (exec_queue (mMessageEnvelopes (looper s)) c Et) eq_refl H)
      as [_ Hq].
    exact Hq.
Qed.

Lemma exec_sorted c s r s' :
  exec c s = Ok r s' →
  sortedQueue (mMessageEnvelopes (looper s)) →
  sortedQueue (mMessageEnvelopes (looper s')).
Proof.
  intros H Hs. apply exec_queue_step in H as [[_ [->|[e ->]]]|[_ [f ->]]].
  - done.
  - by apply enqueue_sorted.
  - by apply sortedQueue_filter.
Qed.

Lemma exec_keeps_envelopes Q c s r s' :
  removesMessages c = false →
  exec c s = Ok r s' →
  Q `sublist_of` mMessageEnvelopes (looper s) →
  Q `sublist_of` mMessageEnvelopes (looper s').
Proof.
  intros Hc H HQ.
  assert (mMessageEnvelopes (looper s) `sublist_of` mMessageEnvelopes (looper s'))
    as Hsub.
  { destruct (touchesQueue c) eqn:Et.
    - apply exec_queue_step in H as [[_ [->|[e ->]]]|[Hr _]].
      + done.
      + apply enqueue_sublist.
      + congruence.
    - destruct (triple_Ok _ _ _ _ s _ _
                  (exec_queue (mMessageEnvelopes (looper s)) c Et) eq_refl H)
        as [_ Hq].
      unfold queueIs in Hq. by rewrite Hq. }
  by etrans.
Qed.

Lemma runProg_sorted p : ∀ s r s',
  runProg p s = Ok r s' →
  sortedQueue (mMessageEnvelopes (looper s)) →
  sortedQueue (mMessageEnvelopes (looper s')).
Proof.
  induction p as [r0|c k IH]; intros s r s' H Hs; simpl in H.
  { by injection H as <- <-. }
  apply bind_Ok in H as (rc & s1 & Hc & H).
  apply bind_Ok in H as ([] & s2 & He & H). injection He as <-.
  eapply IH; [exact H|]. simpl. by eapply exec_sorted.
Qed.

Lemma runProg_keeps_envelopes Q p : ∀ s r s',
  neverRemoves p →
  runProg p s = Ok r s' →
  Q `sublist_of` mMessageEnvelopes (looper s) →
  Q `sublist_of` mMessageEnvelopes (looper s').
Proof.
  induction p as [r0|c k IH]; intros s r s' Hp H HQ; simpl in H.
  { by injection H as <- <-. }
  inversion Hp as [|c' k' Hc Hk]; subst.
  apply bind_Ok in H as (rc & s1 & Hx & H).
  apply bind_Ok in H as ([] & s2 & He & H). injection He as <-.
  eapply IH; [apply Hk|exact H|]. simpl. by eapply exec_keeps_envelopes.
Qed.

Lemma runUser_sorted code s r s' :
  runUser code s = Ok r s' →
  sortedQueue (mMessageEnvelopes (looper s)) →
  sortedQueue (mMessageEnvelopes (looper s')).
Proof.
  unfold runUser. intros H Hs.
  apply bind_Ok in H as (p & s1 & Hp & H). unfold sys in Hp.
  destruct (code (world s)) as [p' w']. injection Hp as <- <-.
  by eapply runProg_sorted in H.
Qed.

Lemma runUser_keeps_envelopes Q code s r s' :
  (∀ w, neverRemoves (fst (code w))) →
  runUser code s = Ok r s' →
  Q `sublist_of` mMessageEnvelopes (looper s) →
  Q `sublist_of` mMessageEnvelopes (looper s').
Proof.
  unfold runUser. intros Hn H HQ.
  apply bind_Ok in H as (p & s1 & Hp & H). unfold sys in Hp.
  specialize (Hn (world s)).
  destruct (code (world s)) as [p' w']. injection Hp as <- <-.
  by eapply runProg_keeps_envelopes in H.
Qed.

End UserCalls.

Section Drain.
Context {PF : Platform} {UC : UserCode} {TM : Timers}.

(** ** The drain of the queue, whatever the handlers do *)

Lemma sortedQueue_tail e q : sortedQueue (e :: q) → sortedQueue q.
Proof. unfold sortedQueue. simpl. intros H. by apply StronglySorted_inv in H as [H _]. Qed.

Lemma sortedQueue_head e q x :
  sortedQueue (e :: q) → x ∈ q →
  MessageEnvelope.uptime e ≤ MessageEnvelope.uptime x.
Proof.
  unfold sortedQueue. simpl. intros H Hx.
  apply StronglySorted_inv in H as [_ H]. rewrite Forall_forall in H.
  apply H, list_elem_of_fmap. eauto.
Qed.

Lemma drainMessages_sorted fuel : ∀ result s r s',
  drainMessages fuel result s = Ok r s' →
  sortedQueue (mMessageEnvelopes (looper s)) →
  sortedQueue (mMessageEnvelopes (looper s')).
Proof.
  induction fuel as [|fuel IH]; intros result s r s' H Hs; simpl in H; [done|].
  destruct s as [l w t]. run.
  destruct (mMessageEnvelopes l) as [|e rest] eqn:Eq; simpl in *.
  { injection H as <- <-. simpl. by rewrite Eq. }
  destruct (systemTime w) as [now w1]. simpl in *.
  destruct (MessageEnvelope.uptime e <=? now); simpl in *.
  - match type of H with
    | context [runUser ?c ?s0] =>
        destruct (runUser c s0) as [ru su|su|su] eqn:Eu; try done
    end.
    simpl in *. apply IH in H; [done|]. simpl.
    apply runUser_sorted in Eu; [done|]. simpl. by eapply sortedQueue_tail.
  - injection H as <- <-. simpl. by rewrite Eq.
Qed.

(** The drain stops at an empty queue or at a head that is not due. *)
Lemma drainMessages_stops lo hi :
  clockWithin lo hi →
  ∀ fuel result s r s',
    drainMessages fuel result s = Ok r s' →
    match mMessageEnvelopes (looper s') with
    | [] => True
    | e :: _ => lo < MessageEnvelope.uptime e
    end.
Proof.
  intros Hclock.
  induction fuel as [|fuel IH]; intros result s r s' H; simpl in H; [done|].
  destruct s as [l w t]. run.
  destruct (mMessageEnvelopes l) as [|e rest] eqn:Eq; simpl in *.
  { injection H as <- <-. simpl. by rewrite Eq. }
  pose proof (Hclock w) as Hw.
  destruct (systemTime w) as [now w1]. simpl in *.
  destruct (MessageEnvelope.uptime e <=? now) eqn:Ed; simpl in *.
  - match type of H with
    | context [runUser ?c ?s0] =>
        destruct (runUser c s0) as [ru su|su|su] eqn:Eu; try done
    end.
    simpl in *. by apply IH in H.
  - injection H as <- <-. simpl. rewrite Eq. apply Z.leb_gt in Ed. lia.
Qed.

(** With handlers that remove no message, the envelopes [Q] of the queue
    are handed over in their order, up to some index, and the others stay
    in the queue. *)
Lemma drainMessages_keeps_order :
  (∀ h m w, neverRemoves (fst (handleMessage h m w))) →
  ∀ fuel Q result s r s',
    drainMessages fuel result s = Ok r s' →
    Q `sublist_of` mMessageEnvelopes (looper s) →
    ∃ k tr,
      trace s' = trace s ++ tr
      ∧ (addressed <$> take k Q) `sublist_of` dispatchedMessages tr
      ∧ drop k Q `sublist_of` mMessageEnvelopes (looper s').
Proof.
  intros Hn.
  induction fuel as [|fuel IH]; intros Q result s r s' H HQ; simpl in H; [done|].
  destruct s as [l w t]. run.
  destruct (mMessageEnvelopes l) as [|e rest] eqn:Eq; simpl in *.
  { injection H as <- <-. exists 0%nat, []. simpl. rewrite app_nil_r, Eq.
    split; [done|]. split; [apply sublist_nil_l|]. by rewrite drop_0. }
  destruct (systemTime w) as [now w1]. simpl in *.
  destruct (MessageEnvelope.uptime e <=? now); simpl in *.
  - match type of H with
    | context [runUser ?c ?s0] =>
        destruct (runUser c s0) as [ru su|su|su] eqn:Eu; try done;
        pose proof (runUser_Ok c s0 ru su Eu) as (_ & tru & Htu & HPu)
    end.
    simpl in *.
    apply sublist_cons_r in HQ as [HQ|(Q' & -> & HQ)].
    + eapply (runUser_keeps_envelopes Q) in Eu; [|apply Hn|exact HQ].
      apply (IH Q) in H as (k & tr2 & Ht2 & Hd2 & Hq2); [|exact Eu].
      simpl in *.
      exists k, (EvHandleMessage (MessageEnvelope.handler e)
                   (MessageEnvelope.message e) :: tru ++ tr2).
      split; [rewrite Ht2, Htu, <- !app_assoc; done|]. split; [|done].
      rewrite dispatchedMessages_cons, dispatchedMessages_app,
        (dispatchedMessages_api tru HPu).
      simpl. by apply sublist_cons.
    + eapply (runUser_keeps_envelopes Q') in Eu; [|apply Hn|exact HQ].
      apply (IH Q') in H as (k & tr2 & Ht2 & Hd2 & Hq2); [|exact Eu].
      simpl in *.
      exists (S k), (EvHandleMessage (MessageEnvelope.handler e)
                       (MessageEnvelope.message e) :: tru ++ tr2).
      split; [rewrite Ht2, Htu, <- !app_assoc; done|]. split; [|done].
      rewrite dispatchedMessages_cons, dispatchedMessages_app,
        (dispatchedMessages_api tru HPu).
      simpl. by apply sublist_skip.
  - injection H as <- <-. exists 0%nat, []. simpl. rewrite app_nil_r, Eq.
    split; [done|]. split; [apply sublist_nil_l|]. by rewrite drop_0.
Qed.

Lemma filter_none {A : Type} (f : A → bool) (l : list A) :
  (∀ x, x ∈ l → f x = false) → List.filter f l = [].
Proof.
  induction l as [|x l IH]; intros H; simpl; [done|].
  rewrite (H x) by left. apply IH. intros y Hy. apply H. by right.
Qed.

(** The envelopes at the head of a queue in order that are due at [t] are
    all the envelopes that are due at [t]. *)
Lemma dueCount_lookup t q i :
  (i < dueCount t q)%nat →
  ∃ e, q !! i = Some e ∧ MessageEnvelope.uptime e ≤ t.
Proof.
  revert i. induction q as [|e q IH]; intros i Hi; simpl in *; [lia|].
  destruct (MessageEnvelope.uptime e <=? t) eqn:E; [|lia].
  apply Z.leb_le in E. destruct i as [|i]; simpl; [eauto|].
  apply IH. lia.
Qed.

Lemma atDeadline_due t lo q :
  sortedQueue q → t ≤ lo →
  atDeadline t q `sublist_of` take (dueCount lo q) q.
Proof.
  intros Hs Ht. unfold atDeadline.
  induction q as [|e q IH]; simpl; [done|].
  destruct (MessageEnvelope.uptime e <=? lo) eqn:E.
  - simpl. destruct (MessageEnvelope.uptime e =? t).
    + apply sublist_skip, IH. by eapply sortedQueue_tail.
    + apply sublist_cons, IH. by eapply sortedQueue_tail.
  - apply Z.leb_gt in E.
    destruct (MessageEnvelope.uptime e =? t) eqn:Et.
    { apply Z.eqb_eq in Et. lia. }
    simpl. rewrite filter_none; [done|].
    intros x Hx. pose proof (sortedQueue_head e q x Hs Hx).
    apply Z.eqb_neq. lia.
Qed.

End Drain.

Section Handover.
Context {PF : Platform} {UC : UserCode} {TM : Timers}.

(** ** The queue along a poll *)

Lemma invokeCallbacks_sorted n : ∀ i result s r s',
  invokeCallbacks n i result s = Ok r s' →
  sortedQueue (mMessageEnvelopes (looper s)) →
  sortedQueue (mMessageEnvelopes (looper s')).
Proof.
  induction n as [|n IH]; intros i result s r s' H Hs; simpl in H.
  { by injection H as <- <-. }
  destruct s as [l w t]. run.
  destruct (mResponses l !! i) as [response|] eqn:Er; simpl in *.
  2:{ by injection H as <- <-. }
  destruct (Request.ident (Response.request response) =? POLL_CALLBACK).
  2:{ eapply IH; [exact H|]. exact Hs. }
  destruct (Request.callback (Response.request response)) as [cb|]; [|done].
  simpl in *.
  match type of H with
  | context [runUser ?c ?s0] =>
      destruct (runUser c s0) as [ru su|su|su] eqn:Eu; try done
  end.
  apply runUser_sorted in Eu; [|done]. simpl in *.
  destruct (ru =? 0).
  - destruct (removeSequenceNumberLocked (Response.seq response) su)
      as [rr sr|sr|sr] eqn:Err; try done; simpl in *.
    destruct (triple_Ok _ _ _ _ su _ _
                (removeSequenceNumberLocked_queue
                   (mMessageEnvelopes (looper su)) (Response.seq response))
                eq_refl Err) as [_ Hq].
    unfold queueIs in Hq.
    eapply IH; [exact H|]. simpl. by rewrite Hq.
  - eapply IH; [exact H|]. done.
Qed.

Lemma pollInner_sorted fuel t s r s' :
  pollInner fuel t s = Ok r s' →
  sortedQueue (mMessageEnvelopes (looper s)) →
  sortedQueue (mMessageEnvelopes (looper s')).
Proof.
  intros H Hs.
  apply pollInner_Ok in H as (w1 & r0 & s2 & r1 & s4 & Hw & Hd & Hc).
  match type of Hw with
  | pollWait ?p ?s1 = _ =>
      destruct (pollWait_final p s1) as (tr1 & Ht1 & HP1 & Hok1)
  end.
  destruct (Hok1 r0 s2 Hw) as (_ & x & Hl2). simpl in Hl2.
  eapply invokeCallbacks_sorted; [exact Hc|].
  eapply drainMessages_sorted; [exact Hd|].
  simpl. by rewrite Hl2.
Qed.

Lemma pollOnce_sorted fuel t s res s' :
  pollOnce fuel t s = Ok res s' →
  sortedQueue (mMessageEnvelopes (looper s)) →
  sortedQueue (mMessageEnvelopes (looper s')).
Proof.
  intros H Hs. destruct (pending (looper s)) as [|r rest] eqn:Hp.
  - destruct (pollOnce_idle fuel t s res s' Hp H)
      as (fuel' & k & r1 & s2 & k' & Hin & -> & _).
    apply pollInner_sorted in Hin; [done|done].
  - destruct fuel as [|fuel]; [done|].
    destruct (pollOnce_pending fuel t s r rest Hp) as (k & Hk & _).
    rewrite Hk in H. by injection H as <- <-.
Qed.

(** ** The head of the queue goes first *)

Lemma drainMessages_head fuel result s e rest :
  mMessageEnvelopes (looper s) = e :: rest →
  (MessageEnvelope.uptime e ≤ fst (systemTime (world s)) →
   ∃ tr,
     trace (final (drainMessages (S fuel) result s))
     = trace s ++ EvHandleMessage (MessageEnvelope.handler e)
                    (MessageEnvelope.message e) :: tr)
  ∧ (fst (systemTime (world s)) < MessageEnvelope.uptime e →
     drainMessages (S fuel) result s
     = Ok result
         (mkSys (set_mNextMessageUptime (MessageEnvelope.uptime e) (looper s))
            (snd (systemTime (world s))) (trace s))).
Proof.
  intros Eq. simpl. destruct s as [l w t]. run. rewrite Eq. simpl.
  destruct (systemTime w) as [now w1]. simpl. split.
  - intros Hd. apply Z.leb_le in Hd. rewrite Hd. simpl.
    match goal with
    | |- context [runUser ?c ?s0] =>
        pose proof (runUser_final c s0) as (tru & Htu & HPu);
        destruct (runUser c s0) as [ru su|su|su] eqn:Eu
    end; simpl in *.
    + destruct (drainMessages_spec fuel POLL_CALLBACK
                  (mkSys (set_mSendingMessage false (looper su)) (world su)
                     (trace su))) as (tr2 & Ht2 & _).
      simpl in *. exists (tru ++ tr2).
      rewrite Ht2, Htu, <- !app_assoc. done.
    + exists tru. rewrite Htu, <- !app_assoc. done.
    + exists tru. rewrite Htu, <- !app_assoc. done.
  - intros Hd. apply Z.leb_gt in Hd. rewrite Hd. done.
Qed.

Lemma drainMessages_first lo hi :
  clockWithin lo hi →
  ∀ fuel result s r s' e rest,
    drainMessages fuel result s = Ok r s' →
    mMessageEnvelopes (looper s) = e :: rest →
    ∃ tr,
      trace s' = trace s ++ tr
      ∧ (MessageEnvelope.uptime e ≤ lo →
         ∃ d, dispatchedMessages tr = addressed e :: d)
      ∧ (hi < MessageEnvelope.uptime e → tr = []).
Proof.
  intros Hclock fuel result s r s' e rest H Eq.
  destruct fuel as [|fuel]; [done|].
  destruct (drainMessages_head fuel result s e rest Eq) as [Hdue Hnot].
  pose proof (Hclock (world s)) as Hw.
  destruct (Z.le_gt_cases (MessageEnvelope.uptime e) (fst (systemTime (world s))))
    as [Hle|Hgt].
  - destruct (Hdue Hle) as (tr & Ht). rewrite H in Ht. simpl in Ht.
    eexists. split; [exact Ht|]. split.
    + intros _. rewrite dispatchedMessages_cons. simpl. eauto.
    + intros Hhi. lia.
  - rewrite (Hnot Hgt) in H. injection H as <- <-. exists []. simpl.
    rewrite app_nil_r. split; [done|]. split; [intros; lia|done].
Qed.

Lemma pollInner_first lo hi :
  clockWithin lo hi →
  ∀ fuel t s r s' e rest,
    pollInner fuel t s = Ok r s' →
    mMessageEnvelopes (looper s) = e :: rest →
    ∃ tr,
      trace s' = trace s ++ tr
      ∧ (MessageEnvelope.uptime e ≤ lo →
         ∃ d, dispatchedMessages tr = addressed e :: d)
      ∧ (hi < MessageEnvelope.uptime e → dispatchedMessages tr = []).
Proof.
  intros Hclock fuel t s r s' e rest H Eq.
  apply pollInner_Ok in H as (w1 & r0 & s2 & r1 & s4 & Hw & Hd & Hc).
  match type of Hw with
  | pollWait ?p ?s1 = _ =>
      destruct (pollWait_final p s1) as (tr1 & Ht1 & HP1 & Hok1)
  end.
  rewrite Hw in Ht1. simpl in Ht1, Hok1.
  destruct (Hok1 r0 s2 Hw) as (_ & x & Hl2).
  apply (drainMessages_first lo hi Hclock) with (e := e) (rest := rest) in Hd
    as (tr2 & Ht2 & Hdue & Hnot); [|by simpl; rewrite Hl2].
  simpl in Ht2.
  destruct (invokeCallbacks_spec (length (mResponses (looper s4))) 0 r1 s4)
    as (tr3 & Ht3 & HP3 & _).
  rewrite Hc in Ht3. simpl in Ht3.
  match type of Ht1 with
  | _ = _ ++ ?ev :: _ => exists (ev :: tr1 ++ tr2 ++ tr3)
  end.
  split.
  { rewrite Ht3, Ht2, Ht1, <- !app_assoc. reflexivity. }
  rewrite dispatchedMessages_cons, !dispatchedMessages_app,
    (dispatchedMessages_kernel _ HP1), (dispatchedMessages_callback _ _ HP3).
  simpl. rewrite app_nil_r. split.
  - intros Hlo. by apply Hdue.
  - intros Hhi. by rewrite (Hnot Hhi).
Qed.

(** ** What is due is handed over, in queue order *)

Lemma drainMessages_hands_due lo hi :
  clockWithin lo hi →
  (∀ h m w, neverRemoves (fst (handleMessage h m w))) →
  ∀ fuel result s r s',
    drainMessages fuel result s = Ok r s' →
    sortedQueue (mMessageEnvelopes (looper s)) →
    ∃ k tr,
      trace s' = trace s ++ tr
      ∧ (dueCount lo (mMessageEnvelopes (looper s)) ≤ k)%nat
      ∧ (addressed <$> take k (mMessageEnvelopes (looper s)))
          `sublist_of` dispatchedMessages tr.
Proof.
  intros Hclock Hn fuel result s r s' H Hs.
  pose proof (drainMessages_sorted _ _ _ _ _ H Hs) as Hs'.
  pose proof (drainMessages_stops lo hi Hclock _ _ _ _ _ H) as Hstop.
  destruct (drainMessages_keeps_order Hn fuel (mMessageEnvelopes (looper s))
              result s r s' H) as (k & tr & Ht & Hd & Hq); [done|].
  exists k, tr. split; [done|]. split; [|done].
  destruct (decide (dueCount lo (mMessageEnvelopes (looper s)) ≤ k)%nat)
    as [|Hlt]; [done|]. exfalso.
  destruct (dueCount_lookup lo (mMessageEnvelopes (looper s)) k) as (e & He & Hle);
    [lia|].
  assert (e ∈ mMessageEnvelopes (looper s')) as Hin.
  { eapply elem_of_sublist; [|exact Hq].
    apply (list_elem_of_lookup_2 _ 0%nat). rewrite lookup_drop.
    by rewrite Nat.add_0_r. }
  destruct (mMessageEnvelopes (looper s')) as [|e0 q'] eqn:Eq'.
  { by apply elem_of_nil in Hin. }
  apply elem_of_cons in Hin as [->|Hin]; [lia|].
  pose proof (sortedQueue_head e0 q' e Hs' Hin). lia.
Qed.

Lemma pollInner_hands_due lo hi :
  clockWithin lo hi →
  (∀ h m w, neverRemoves (fst (handleMessage h m w))) →
  ∀ fuel t s r s',
    pollInner fuel t s = Ok r s' →
    sortedQueue (mMessageEnvelopes (looper s)) →
    ∃ k tr,
      trace s' = trace s ++ tr
      ∧ (dueCount lo (mMessageEnvelopes (looper s)) ≤ k)%nat
      ∧ (addressed <$> take k (mMessageEnvelopes (looper s)))
          `sublist_of` dispatchedMessages tr.
Proof.
  intros Hclock Hn fuel t s r s' H Hs.
  apply pollInner_Ok in H as (w1 & r0 & s2 & r1 & s4 & Hw & Hd & Hc).
  match type of Hw with
  | pollWait ?p ?s1 = _ =>
      destruct (pollWait_final p s1) as (tr1 & Ht1 & HP1 & Hok1)
  end.
  rewrite Hw in Ht1. simpl in Ht1, Hok1.
  destruct (Hok1 r0 s2 Hw) as (_ & x & Hl2).
  apply (drainMessages_hands_due lo hi Hclock Hn) in Hd
    as (k & tr2 & Ht2 & Hk & Hd2); [|by simpl; rewrite Hl2].
  simpl in Ht2, Hd2, Hk. rewrite Hl2 in Hd2, Hk. simpl in Hd2, Hk.
  destruct (invokeCallbacks_spec (length (mResponses (looper s4))) 0 r1 s4)
    as (tr3 & Ht3 & HP3 & _).
  rewrite Hc in Ht3. simpl in Ht3.
  exists k.
  match type of Ht1 with
  | _ = _ ++ ?ev :: _ => exists (ev :: tr1 ++ tr2 ++ tr3)
  end.
  split.
  { rewrite Ht3, Ht2, Ht1, <- !app_assoc. reflexivity. }
  split; [done|].
  rewrite dispatchedMessages_cons, !dispatchedMessages_app,
    (dispatchedMessages_kernel _ HP1), (dispatchedMessages_callback _ _ HP3).
  simpl. by rewrite app_nil_r.
Qed.

(** Equal deadlines: sent one after the other and due, handed over in the
    order in which they were sent. *)
Lemma equal_deadlines_in_order lo hi :
  clockWithin lo hi →
  (∀ h m w, neverRemoves (fst (handleMessage h m w))) →
  ∀ es s0 s fuel t r s' d,
    sortedQueue (mMessageEnvelopes (looper s0)) →
    sendMessagesAtTime es s0 = Ok tt s →
    pollInner fuel t s = Ok r s' →
    d ≤ lo →
    ∃ tr,
      trace s' = trace s ++ tr
      ∧ (addressed <$> (atDeadline d (mMessageEnvelopes (looper s0))
                        ++ atDeadline d es))
          `sublist_of` dispatchedMessages tr.
Proof.
  intros Hclock Hn es s0 s fuel t r s' d Hs Hsend H Hd.
  pose proof (sendMessagesAtTime_queue es s0 s Hsend) as Hq.
  assert (sortedQueue (mMessageEnvelopes (looper s))) as Hs1.
  { rewrite Hq. by apply foldl_enqueue_sorted. }
  destruct (pollInner_hands_due lo hi Hclock Hn fuel t s r s' H Hs1)
    as (k & tr & Ht & Hk & Hsub).
  exists tr. split; [done|].
  etrans; [|exact Hsub]. apply fmap_sublist.
  rewrite <- (foldl_enqueue_stable d es (mMessageEnvelopes (looper s0)) Hs),
    <- Hq.
  etrans; [by apply (atDeadline_due d lo)|].
  rewrite <- (take_drop (dueCount lo (mMessageEnvelopes (looper s)))
               (take k (mMessageEnvelopes (looper s)))).
  rewrite take_take, Nat.min_l by done. by apply sublist_inserts_r.
Qed.

(** With handlers that leave the queue alone, what is handed over is a
    prefix of the queue: all that is due at [lo], nothing that is not due
    at [hi]. *)
Lemma pollInner_due lo hi :
  (∀ h m w, queueQuiet (fst (handleMessage h m w))) →
  clockWithin lo hi →
  ∀ fuel t s r s',
    pollInner fuel t s = Ok r s' →
    ∃ k tr,
      trace s' = trace s ++ tr
      ∧ dispatchedMessages tr
        = addressed <$> take k (mMessageEnvelopes (looper s))
      ∧ (dueCount lo (mMessageEnvelopes (looper s)) ≤ k
         ≤ dueCount hi (mMessageEnvelopes (looper s)))%nat.
Proof.
  intros Hq Hclock fuel t s r s' H.
  apply pollInner_Ok in H as (w1 & r0 & s2 & r1 & s4 & Hw & Hd & Hc).
  match type of Hw with
  | pollWait ?p ?s1 = _ =>
      destruct (pollWait_final p s1) as (tr1 & Ht1 & HP1 & Hok1)
  end.
  rewrite Hw in Ht1. simpl in Ht1, Hok1.
  destruct (Hok1 r0 s2 Hw) as (_ & x & Hl2).
  apply (drainMessages_due lo hi Hq Hclock) in Hd
    as (k & tr2 & Ht2 & Hd2 & Hq2 & Hk).
  simpl in Ht2, Hd2, Hq2, Hk. rewrite Hl2 in Hd2, Hq2, Hk. simpl in *.
  destruct (invokeCallbacks_spec (length (mResponses (looper s4))) 0 r1 s4)
    as (tr3 & Ht3 & HP3 & _).
  rewrite Hc in Ht3. simpl in Ht3.
  exists k.
  match type of Ht1 with
  | _ = _ ++ ?ev :: _ => exists (ev :: tr1 ++ tr2 ++ tr3)
  end.
  split.
  { rewrite Ht3, Ht2, Ht1, <- !app_assoc. reflexivity. }
  split; [|done].
  rewrite dispatchedMessages_cons, !dispatchedMessages_app,
    (dispatchedMessages_kernel _ HP1), (dispatchedMessages_callback _ _ HP3),
    Hd2.
  simpl. by rewrite app_nil_r.
Qed.

End Handover.

Section Replay.
Context {PF : Platform} {UC : UserCode} {TM : Timers}.

(** ** Result codes of pollOnce *)

Lemma pollOnce_code fuel t s res s' :
  pollOnce fuel t s = Ok res s' → pr_result res < 0 →
  pending (looper s) = [] ∧ pending (looper s') = []
  ∧ res = mkPollResult (pr_result res) 0 0 0
  ∧ pr_result res ∈ [POLL_WAKE; POLL_CALLBACK; POLL_TIMEOUT; POLL_ERROR]
  ∧ ∃ fuel' k s2,
      pollInner fuel' t
        (mkSys (set_mResponseIndex k (looper s)) (world s) (trace s))
      = Ok (pr_result res) s2
      ∧ pending (looper s2) = [].
Proof.
  intros H Hneg.
  assert (Hp : pending (looper s) = []).
  { destruct (pending (looper s)) as [|r rest] eqn:Hp; [done|].
    destruct fuel as [|fuel]; [done|].
    destruct (pollOnce_pending fuel t s r rest Hp) as (k & Hk & _).
    rewrite Hk in H. injection H as <- <-.
    pose proof (deliver_nonneg r) as Hr.
    rewrite (pending_isIdent (looper s) r) in Hr by (rewrite Hp; left).
    specialize (Hr eq_refl). lia. }
  split; [done|].
  destruct (pollOnce_idle fuel t s res s' Hp H)
    as (fuel' & k & r1 & s2 & k' & Hin & -> & Hps' & Hres).
  destruct (pending (looper s2)) as [|r rest] eqn:Hp2; simpl in *.
  + subst res. simpl. split; [done|]. split; [done|].
    split; [by eapply pollInner_codes|]. eauto 6.
  + subst res. pose proof (deliver_nonneg r) as Hr.
    rewrite (pending_isIdent (looper s2) r) in Hr by (rewrite Hp2; left).
    specialize (Hr eq_refl). lia.
Qed.

Lemma pollInner_pending fuel t s r s' :
  pollInner fuel t s = Ok r s' →
  ∃ passed waited tr,
    trace s' = trace s ++ EvEpollWait passed waited :: tr
    ∧ pending (looper s')
      = List.filter isIdent
          (responsesOf (mEpollRebuildRequired (looper s)) waited
             (mRequests (looper s))).
Proof.
  intros H.
  destruct (pollInner_spec fuel t s) as (waited & tr & Ht & _ & Hok).
  rewrite H in Ht. destruct (Hok r s' H) as (_ & Hp & _). eauto.
Qed.

(** The result code of an inner poll that leaves identifier responses is
    returned by no call: the calls return the responses and leave nothing
    pending, so that the next call polls anew. *)
Lemma pollOnce_code_dropped fuel t s :
  pending (looper s) = [] →
  ∃ k, ∀ code s2 r rest,
    pollInner fuel t (mkSys (set_mResponseIndex k (looper s)) (world s) (trace s))
    = Ok code s2 →
    pending (looper s2) = r :: rest →
    ∃ k',
      pollOnceMany (replicate (S (length rest)) (S (S fuel), t)) s
      = Ok (deliver <$> (r :: rest))
          (mkSys (set_mResponseIndex k' (looper s2)) (world s2) (trace s2))
      ∧ pending (set_mResponseIndex k' (looper s2)) = [].
Proof.
  intros Hp. destruct (pollOnce_idle_run fuel t s Hp) as (k & Hk).
  exists k. intros code s2 r rest Hin Hp2.
  destruct (Hk code s2 Hin) as (k1 & H1 & Hp1). rewrite Hp2 in H1, Hp1.
  simpl in H1, Hp1.
  destruct (pollOnceMany_pending (replicate (length rest) (S (S fuel), t))
              (mkSys (set_mResponseIndex k1 (looper s2)) (world s2) (trace s2)))
    as (k' & Hk' & Hpk').
  { apply Forall_replicate. done. }
  { simpl. rewrite Hp1, length_replicate. done. }
  simpl in Hk', Hpk'.
  rewrite length_replicate, Hp1, firstn_all in Hk'.
  rewrite length_replicate, Hp1, drop_all in Hpk'.
  exists k'. simpl.
  rewrite (bind_Ok_intro _ _ _ _ _ H1), (bind_Ok_intro _ _ _ _ _ Hk').
  split; [|exact Hpk']. done.
Qed.

(** ** The inner poll does not read the response index *)

Lemma pollWait_index p k l w tr :
  pollWait p (mkSys (set_mResponseIndex k l) w tr) = pollWait p (mkSys l w tr).
Proof. destruct l. reflexivity. Qed.

Lemma adjustTimeout_index t k l w tr :
  adjustTimeout t (mkSys (set_mResponseIndex k l) w tr)
  = match adjustTimeout t (mkSys l w tr) with
    | Ok a s1 =>
        Ok a (mkSys (set_mResponseIndex k (looper s1)) (world s1) (trace s1))
    | Fatal s1 => Fatal s1
    | OutOfFuel s1 => OutOfFuel s1
    end.
Proof.
  unfold adjustTimeout. run. destruct l as [? ? ? ? ? ? ? ? ? nmu ? ? ?]; simpl.
  destruct (negb (t =? 0) && negb (nmu =? LLONG_MAX)); simpl; [|done].
  destruct (systemTime w) as [now w1]. simpl.
  by destruct ((0 <=? _) && _).
Qed.

Lemma pollInner_index fuel t k s :
  pollInner fuel t (mkSys (set_mResponseIndex k (looper s)) (world s) (trace s))
  = pollInner fuel t s.
Proof.
  destruct s as [l w tr]. simpl. unfold pollInner.
  destruct (adjustTimeout_Ok t (mkSys l w tr)) as [w1 Ha].
  pose proof (adjustTimeout_index t k l w tr) as Hk. rewrite Ha in Hk.
  simpl in *.
  rewrite (bind_Ok_intro _ _ _ _ _ Ha), (bind_Ok_intro _ _ _ _ _ Hk).
  unfold bind at 1 5. by rewrite pollWait_index.
Qed.

(** A call with nothing pending runs one inner poll, from the state of the
    call. *)
Lemma pollOnce_polls fuel t s res s' :
  pending (looper s) = [] →
  pollOnce fuel t s = Ok res s' →
  ∃ fuel' r1 s2 k',
    pollInner fuel' t s = Ok r1 s2
    ∧ s' = mkSys (set_mResponseIndex k' (looper s2)) (world s2) (trace s2)
    ∧ pending (looper s') = tail (pending (looper s2))
    ∧ res = match head (pending (looper s2)) with
            | Some r => deliver r
            | None => mkPollResult r1 0 0 0
            end.
Proof.
  intros Hp H.
  destruct (pollOnce_idle fuel t s res s' Hp H)
    as (fuel' & k & r1 & s2 & k' & Hin & Hs' & Hps' & Hres).
  rewrite pollInner_index in Hin. eauto 10.
Qed.

Lemma pollOnce_returns fuel t s r1 s2 :
  pending (looper s) = [] →
  pollInner fuel t s = Ok r1 s2 →
  ∃ k',
    pollOnce (S (S fuel)) t s
    = Ok (match head (pending (looper s2)) with
          | Some r => deliver r
          | None => mkPollResult r1 0 0 0
          end)
        (mkSys (set_mResponseIndex k' (looper s2)) (world s2) (trace s2))
    ∧ pending (set_mResponseIndex k' (looper s2)) = tail (pending (looper s2)).
Proof.
  intros Hp Hin. destruct (pollOnce_idle_run fuel t s Hp) as (k & Hk).
  apply Hk. by rewrite pollInner_index.
Qed.

Lemma pollOnce_drops_code fuel t s code s2 r rest :
  pending (looper s) = [] →
  pollInner fuel t s = Ok code s2 →
  pending (looper s2) = r :: rest →
  ∃ k',
    pollOnceMany (replicate (S (length rest)) (S (S fuel), t)) s
    = Ok (deliver <$> (r :: rest))
        (mkSys (set_mResponseIndex k' (looper s2)) (world s2) (trace s2))
    ∧ pending (set_mResponseIndex k' (looper s2)) = [].
Proof.
  intros Hp Hin Hp2. destruct (pollOnce_code_dropped fuel t s Hp) as (k & Hk).
  apply (Hk code); [|done]. by rewrite pollInner_index.
Qed.

(** ** pollAll as a chain of calls *)

Lemma pollAll_blocking_chain fuel t s res s' :
  t ≤ 0 → pollAll fuel t s = Ok res s' → pollsUntil t s res s'.
Proof.
  intros Ht H. unfold pollAll in H.
  apply Z.leb_le in Ht. rewrite Ht in H. by eapply pollAllBlocking_chain.
Qed.

Lemma pollAll_until_chain fuel t s res s' :
  0 < t → pollAll fuel t s = Ok res s' →
  pollsBefore
    (add_i64 (fst (systemTime (world s))) (milliseconds_to_nanoseconds t))
    t (mkSys (looper s) (snd (systemTime (world s))) (trace s)) res s'.
Proof.
  intros Ht H. unfold pollAll in H.
  apply Z.leb_gt in Ht. rewrite Ht in H. unfold bind, sys in H.
  destruct (systemTime (world s)) as [now w]. simpl.
  by eapply pollAllUntil_chain.
Qed.

Lemma pollAll_not_callback fuel t s res s' :
  pollAll fuel t s = Ok res s' → pr_result res ≠ POLL_CALLBACK.
Proof.
  intros H. destruct (Z.le_gt_cases t 0) as [Ht|Ht].
  - eapply pollsUntil_result, pollAll_blocking_chain; eauto.
  - eapply pollsBefore_result, pollAll_until_chain; eauto.
Qed.

Lemma pollAll_mono fuel fuel' t s res s' :
  (fuel ≤ fuel')%nat →
  pollAll fuel t s = Ok res s' → pollAll fuel' t s = Ok res s'.
Proof.
  intros Hf. unfold pollAll. destruct (t <=? 0).
  - by apply pollAllBlocking_mono.
  - unfold bind, sys. destruct (systemTime (world s)) as [now w].
    by apply pollAllUntil_mono.
Qed.

End Replay.

Section Revised.
Context {PF : Platform} {UC : UserCode} {TM : Timers}.

(** ** pollOnce, removeFd, the message queue and pollAll *)

(** C1: a response with a non-negative [ident] that is pending is returned
    by the next call of [pollOnce], with its stored descriptor, events and
    data and without an inner poll; a run of calls returns the pending
    responses one per call in their order; the responses an inner poll
    leaves pending are those of the ready items, in the order in which the
    kernel returned them.  A call with nothing pending runs one inner poll
    and returns: the first response that poll left, or else the result code
    of that poll with zeroes in the out parameters.  So a result code is
    returned only by the call whose own inner poll left no response; the
    result code of an inner poll that left responses is returned by no
    call: the calls return the responses and leave nothing pending, and the
    call after them polls anew. *)
Theorem pollOnce_replays_responses :
  (∀ fuel t s r rest,
     pending (looper s) = r :: rest →
     ∃ k,
       pollOnce (S fuel) t s
       = Ok (deliver r)
           (mkSys (set_mResponseIndex k (looper s)) (world s) (trace s))
       ∧ pending (set_mResponseIndex k (looper s)) = rest)
  ∧ (∀ calls s,
       Forall (λ c, fst c ≠ 0%nat) calls →
       (length calls ≤ length (pending (looper s)))%nat →
       ∃ k,
         pollOnceMany calls s
         = Ok (deliver <$> take (length calls) (pending (looper s)))
             (mkSys (set_mResponseIndex k (looper s)) (world s) (trace s))
         ∧ pending (set_mResponseIndex k (looper s))
           = drop (length calls) (pending (looper s)))
  ∧ (∀ fuel t s res s',
       pollOnce fuel t s = Ok res s' → pr_result res < 0 →
       pending (looper s) = [] ∧ pending (looper s') = []
       ∧ res = mkPollResult (pr_result res) 0 0 0
       ∧ pr_result res ∈ [POLL_WAKE; POLL_CALLBACK; POLL_TIMEOUT; POLL_ERROR]
       ∧ ∃ fuel' k s2,
           pollInner fuel' t
             (mkSys (set_mResponseIndex k (looper s)) (world s) (trace s))
           = Ok (pr_result res) s2
           ∧ pending (looper s2) = [])
  ∧ (∀ fuel t s r s',
       pollInner fuel t s = Ok r s' →
       ∃ passed waited tr,
         trace s' = trace s ++ EvEpollWait passed waited :: tr
         ∧ pending (looper s')
           = List.filter isIdent
               (responsesOf (mEpollRebuildRequired (looper s)) waited
                  (mRequests (looper s))))
  ∧ (∀ fuel t s res s',
       pending (looper s) = [] →
       pollOnce fuel t s = Ok res s' →
       ∃ fuel' r1 s2 k',
         pollInner fuel' t s = Ok r1 s2
         ∧ s' = mkSys (set_mResponseIndex k' (looper s2)) (world s2) (trace s2)
         ∧ pending (looper s') = tail (pending (looper s2))
         ∧ res = match head (pending (looper s2)) with
                 | Some r => deliver r
                 | None => mkPollResult r1 0 0 0
                 end)
  ∧ (∀ fuel t s r1 s2,
       pending (looper s) = [] →
       pollInner fuel t s = Ok r1 s2 →
       ∃ k',
         pollOnce (S (S fuel)) t s
         = Ok (match head (pending (looper s2)) with
               | Some r => deliver r
               | None => mkPollResult r1 0 0 0
               end)
             (mkSys (set_mResponseIndex k' (looper s2)) (world s2) (trace s2))
         ∧ pending (set_mResponseIndex k' (looper s2))
           = tail (pending (looper s2)))
  ∧ (∀ fuel t s code s2 r rest,
       pending (looper s) = [] →
       pollInner fuel t s = Ok code s2 →
       pending (looper s2) = r :: rest →
       ∃ k',
         pollOnceMany (replicate (S (length rest)) (S (S fuel), t)) s
         = Ok (deliver <$> (r :: rest))
             (mkSys (set_mResponseIndex k' (looper s2)) (world s2) (trace s2))
         ∧ pending (set_mResponseIndex k' (looper s2)) = []).
Proof.
  split; [exact pollOnce_pending|].
  split; [exact pollOnceMany_pending|].
  split; [exact pollOnce_code|].
  split; [exact pollInner_pending|].
  split; [exact pollOnce_polls|].
  split; [exact pollOnce_returns|].
  exact pollOnce_drops_code.
Qed.


(** C5: [sendMessageAtTime] inserts at the first index whose [uptime] is
    greater than the new deadline; a queue in order of [uptime] stays in
    order under any run of enqueues, and the envelopes of one deadline stay
    in the order in which they were sent; enqueues return as long as the
    wake can be written.  The order is kept by every call of user code and
    by a whole [pollOnce].  The drain hands the head of the queue to its
    handler first when it is due, and hands over nothing when it is not.
    With handlers that may send but do not remove messages, the envelopes
    of the queue are handed over in queue order, those that are due all of
    them, and the others stay in the queue; so messages of one deadline
    that is due are handed over in the order in which they were sent.  With
    handlers that leave the queue alone, exactly a prefix of the queue is
    handed over, and fuel for one step more than the queue is long is not
    used up. *)
Theorem message_queue_sorted_stable :
  (∀ uptime h m s,
     let q := mMessageEnvelopes (looper s) in
     let i := insertionIndex uptime q in
     let q' := mMessageEnvelopes
                 (looper (final (sendMessageAtTime uptime h m s))) in
     q' = insertAt (MessageEnvelope.mk uptime h m) i q
     ∧ (∀ e, e ∈ take i q → MessageEnvelope.uptime e ≤ uptime)
     ∧ (∀ e, q !! i = Some e → uptime < MessageEnvelope.uptime e)
     ∧ (sortedQueue q → sortedQueue q'))
  ∧ (∀ es s s',
       sendMessagesAtTime es s = Ok tt s' →
       sortedQueue (mMessageEnvelopes (looper s)) →
       sortedQueue (mMessageEnvelopes (looper s'))
       ∧ ∀ t, atDeadline t (mMessageEnvelopes (looper s'))
              = atDeadline t (mMessageEnvelopes (looper s)) ++ atDeadline t es)
  ∧ (∀ es s,
       (∀ fd w, fst (fst (write_u64 fd w)) = 8) →
       ∃ s', sendMessagesAtTime es s = Ok tt s')
  ∧ (∀ c s r s',
       exec c s = Ok r s' →
       sortedQueue (mMessageEnvelopes (looper s)) →
       sortedQueue (mMessageEnvelopes (looper s')))
  ∧ (∀ fuel t s res s',
       pollOnce fuel t s = Ok res s' →
       sortedQueue (mMessageEnvelopes (looper s)) →
       sortedQueue (mMessageEnvelopes (looper s')))
  ∧ (∀ fuel result s e rest,
       mMessageEnvelopes (looper s) = e :: rest →
       (MessageEnvelope.uptime e ≤ fst (systemTime (world s)) →
        ∃ tr,
          trace (final (drainMessages (S fuel) result s))
          = trace s ++ EvHandleMessage (MessageEnvelope.handler e)
                         (MessageEnvelope.message e) :: tr)
       ∧ (fst (systemTime (world s)) < MessageEnvelope.uptime e →
          drainMessages (S fuel) result s
          = Ok result
              (mkSys
                 (set_mNextMessageUptime (MessageEnvelope.uptime e) (looper s))
                 (snd (systemTime (world s))) (trace s))))
  ∧ (∀ lo hi,
       clockWithin lo hi →
       ∀ fuel t s r s' e rest,
         pollInner fuel t s = Ok r s' →
         mMessageEnvelopes (looper s) = e :: rest →
         ∃ tr,
           trace s' = trace s ++ tr
           ∧ (MessageEnvelope.uptime e ≤ lo →
              ∃ d, dispatchedMessages tr = addressed e :: d)
           ∧ (hi < MessageEnvelope.uptime e → dispatchedMessages tr = []))
  ∧ ((∀ h m w, neverRemoves (fst (handleMessage h m w))) →
     ∀ fuel Q result s r s',
       drainMessages fuel result s = Ok r s' →
       Q `sublist_of` mMessageEnvelopes (looper s) →
       ∃ k tr,
         trace s' = trace s ++ tr
         ∧ (addressed <$> take k Q) `sublist_of` dispatchedMessages tr
         ∧ drop k Q `sublist_of` mMessageEnvelopes (looper s'))
  ∧ (∀ lo hi,
       clockWithin lo hi →
       (∀ h m w, neverRemoves (fst (handleMessage h m w))) →
       ∀ fuel t s r s',
         pollInner fuel t s = Ok r s' →
         sortedQueue (mMessageEnvelopes (looper s)) →
         ∃ k tr,
           trace s' = trace s ++ tr
           ∧ (dueCount lo (mMessageEnvelopes (looper s)) ≤ k)%nat
           ∧ (addressed <$> take k (mMessageEnvelopes (looper s)))
               `sublist_of` dispatchedMessages tr)
  ∧ (∀ lo hi,
       clockWithin lo hi →
       (∀ h m w, neverRemoves (fst (handleMessage h m w))) →
       ∀ es s0 s fuel t r s' d,
         sortedQueue (mMessageEnvelopes (looper s0)) →
         sendMessagesAtTime es s0 = Ok tt s →
         pollInner fuel t s = Ok r s' →
         d ≤ lo →
         ∃ tr,
           trace s' = trace s ++ tr
           ∧ (addressed <$> (atDeadline d (mMessageEnvelopes (looper s0))
                             ++ atDeadline d es))
               `sublist_of` dispatchedMessages tr)
  ∧ ((∀ h m w, queueQuiet (fst (handleMessage h m w))) →
     (∀ lo hi,
        clockWithin lo hi →
        ∀ fuel t s r s',
          pollInner fuel t s = Ok r s' →
          ∃ k tr,
            trace s' = trace s ++ tr
            ∧ dispatchedMessages tr
              = addressed <$> take k (mMessageEnvelopes (looper s))
            ∧ (dueCount lo (mMessageEnvelopes (looper s)) ≤ k
               ≤ dueCount hi (mMessageEnvelopes (looper s)))%nat)
     ∧ ∀ fuel t s s',
         (length (mMessageEnvelopes (looper s)) < fuel)%nat →
         pollInner fuel t s ≠ OutOfFuel s').
Proof.
  split.
  { intros uptime h m s q i q'. subst q'.
    rewrite sendMessageAtTime_queue. fold q.
    split; [done|]. split; [apply insertionIndex_before|].
    split; [apply insertionIndex_at|]. apply enqueue_sorted. }
  split.
  { intros es s s' H Hs. rewrite (sendMessagesAtTime_queue es s s' H).
    split; [by apply foldl_enqueue_sorted|].
    intros t. by apply foldl_enqueue_stable. }
  split; [exact sendMessagesAtTime_returns|].
  split; [exact exec_sorted|].
  split; [exact pollOnce_sorted|].
  split; [exact drainMessages_head|].
  split; [exact pollInner_first|].
  split; [exact drainMessages_keeps_order|].
  split; [exact pollInner_hands_due|].
  split; [exact equal_deadlines_in_order|].
  intros Hq. split.
  - intros lo hi Hclock. by apply (pollInner_due lo hi).
  - by apply pollInner_fuel.
Qed.

(** C10: [pollAll] never returns [POLL_CALLBACK].  With a timeout that is
    not positive it calls [pollOnce] again and again while the result is
    [POLL_CALLBACK] and returns the first other result.  With a positive
    timeout the deadline is fixed from the clock at the start; after every
    [POLL_CALLBACK] the remaining time becomes the next timeout, and
    [POLL_TIMEOUT] is returned when none remains, which is the case once
    the deadline has passed.  Conversely, whenever the calls of [pollOnce]
    of such a chain return, [pollAll] returns the result of the chain, and
    more fuel never changes what it returns. *)
Theorem pollAll_never_callback :
  (∀ fuel t s res s',
     pollAll fuel t s = Ok res s' → pr_result res ≠ POLL_CALLBACK)
  ∧ (∀ fuel t s res s',
       t ≤ 0 → pollAll fuel t s = Ok res s' → pollsUntil t s res s')
  ∧ (∀ fuel t s res s',
       0 < t → pollAll fuel t s = Ok res s' →
       pollsBefore
         (add_i64 (fst (systemTime (world s))) (milliseconds_to_nanoseconds t))
         t (mkSys (looper s) (snd (systemTime (world s))) (trace s)) res s')
  ∧ (∀ fuel endTime t s r1 s1,
       (∀ now deadline,
          deadline ≤ now → toMillisecondTimeoutDelay now deadline = 0) →
       pollOnce fuel t s = Ok r1 s1 →
       pr_result r1 = POLL_CALLBACK →
       endTime ≤ fst (systemTime (world s1)) →
       pollAllUntil (S fuel) endTime t s
       = Ok (mkPollResult POLL_TIMEOUT (pr_outFd r1) (pr_outEvents r1)
               (pr_outData r1))
           (mkSys (looper s1) (snd (systemTime (world s1))) (trace s1)))
  ∧ (∀ t s res s',
       t ≤ 0 → pollsUntil t s res s' → ∃ fuel, pollAll fuel t s = Ok res s')
  ∧ (∀ t s res s',
       0 < t →
       pollsBefore
         (add_i64 (fst (systemTime (world s))) (milliseconds_to_nanoseconds t))
         t (mkSys (looper s) (snd (systemTime (world s))) (trace s)) res s' →
       ∃ fuel, pollAll fuel t s = Ok res s')
  ∧ (∀ fuel fuel' t s res s',
       (fuel ≤ fuel')%nat →
       pollAll fuel t s = Ok res s' → pollAll fuel' t s = Ok res s').
Proof.
  split; [exact pollAll_not_callback|].
  split; [exact pollAll_blocking_chain|].
  split; [exact pollAll_until_chain|].
  split; [exact pollAllUntil_elapsed|].
  split; [exact pollAll_run_blocking|].
  split; [exact pollAll_run_until|].
  exact pollAll_mono.
Qed.

End Revised.

Section EpollSet.
Context {PF : Platform} {UC : UserCode} {TM : Timers}.

(** ** Building the epoll set *)

Lemma rebuildRequests_Ok rs : ∀ s,
  ∃ w, rebuildRequests rs s = Ok tt (mkSys (looper s) w (trace s)).
Proof.
  induction rs as [|[seq request] rs IH]; intros s; simpl.
  - exists (world s). by destruct s.
  - run.
    destruct (epoll_ctl (mEpollFd (looper s)) EPOLL_CTL_ADD (Request.fd request)
                (Some (createEpollEvent (getEpollEvents request) seq))
                (world s)) as [cr w1].
    apply (IH (mkSys (looper s) w1 (trace s))).
Qed.

(** The world in which [rebuildEpollLocked] creates the new epoll
    instance: the old one is closed first, when there is one. *)
Lemma rebuildEpollLocked_run s :
  let l := looper s in
  let w0 := if 0 <=? mEpollFd l then close_fd (mEpollFd l) (world s)
            else world s in
  let epfd := fst (epoll_create1 w0) in
  let cr := epoll_ctl epfd EPOLL_CTL_ADD (mWakeEventFd l)
              (Some (createEpollEvent EPOLLIN WAKE_EVENT_FD_SEQ))
              (snd (epoll_create1 w0)) in
  if (epfd <? 0) || negb (fst (fst cr) =? 0)
  then ∃ s', rebuildEpollLocked s = Fatal s'
             ∧ trace s' = trace s ++ [EvRebuild]
  else ∃ w, rebuildEpollLocked s
            = Ok tt (mkSys (set_mEpollFd epfd l) w (trace s ++ [EvRebuild])).
Proof.
  destruct s as [l w t]. unfold rebuildEpollLocked. run.
  destruct (0 <=? mEpollFd l); simpl.
  - destruct (epoll_create1 (close_fd (mEpollFd l) w)) as [epfd w1]. simpl.
    destruct (epfd <? 0); simpl; [eauto|].
    destruct (epoll_ctl epfd EPOLL_CTL_ADD (mWakeEventFd l) _ w1) as [cr w2].
    simpl. destruct (fst cr =? 0); simpl; [|eauto].
    match goal with
    | |- ∃ w, rebuildRequests ?rs ?s0 = _ =>
        destruct (rebuildRequests_Ok rs s0) as [w3 ->]
    end.
    exists w3. by destruct l.
  - destruct (epoll_create1 w) as [epfd w1]. simpl.
    destruct (epfd <? 0); simpl; [eauto|].
    destruct (epoll_ctl epfd EPOLL_CTL_ADD (mWakeEventFd l) _ w1) as [cr w2].
    simpl. destruct (fst cr =? 0); simpl; [|eauto].
    match goal with
    | |- ∃ w, rebuildRequests ?rs ?s0 = _ =>
        destruct (rebuildRequests_Ok rs s0) as [w3 ->]
    end.
    exists w3. by destruct l.
Qed.

Lemma rebuildEpollLocked_cases :
  ∀ s,
    let l := looper s in
    let w0 := if 0 <=? mEpollFd l then close_fd (mEpollFd l) (world s)
              else world s in
    let epfd := fst (epoll_create1 w0) in
    let cr := epoll_ctl epfd EPOLL_CTL_ADD (mWakeEventFd l)
                (Some (createEpollEvent EPOLLIN WAKE_EVENT_FD_SEQ))
                (snd (epoll_create1 w0)) in
    (epfd < 0 ∨ fst (fst cr) ≠ 0 → ∃ s', rebuildEpollLocked s = Fatal s')
    ∧ (0 ≤ epfd → fst (fst cr) = 0 →
       ∃ w, rebuildEpollLocked s
            = Ok tt (mkSys (set_mEpollFd epfd l) w (trace s ++ [EvRebuild]))).
Proof.
  intros s l w0 epfd cr. pose proof (rebuildEpollLocked_run s) as H.
  cbv zeta in H. fold l w0 epfd cr in H.
  split.
  - intros Hbad.
    assert ((epfd <? 0) || negb (fst (fst cr) =? 0) = true) as E.
    { destruct Hbad as [Hb|Hb].
      - apply Z.ltb_lt in Hb. by rewrite Hb.
      - apply Z.eqb_neq in Hb. rewrite Hb. by rewrite orb_true_r. }
    rewrite E in H. destruct H as (s' & H & _). eauto.
  - intros Hfd Hcr.
    assert ((epfd <? 0) || negb (fst (fst cr) =? 0) = false) as E.
    { apply Z.ltb_ge in Hfd. apply Z.eqb_eq in Hcr. by rewrite Hfd, Hcr. }
    by rewrite E in H.
Qed.

(** X6: [rebuildEpollLocked] ends the process when the epoll instance
    cannot be created or the wake descriptor cannot be added to it, and in
    no other case: a request that the kernel refuses is passed over.  When
    it returns it has written [mEpollFd] and no other member. *)
Theorem rebuild_tolerates_request_errors :
  ∀ s,
    let l := looper s in
    let w0 := if 0 <=? mEpollFd l then close_fd (mEpollFd l) (world s)
              else world s in
    let epfd := fst (epoll_create1 w0) in
    let cr := epoll_ctl epfd EPOLL_CTL_ADD (mWakeEventFd l)
                (Some (createEpollEvent EPOLLIN WAKE_EVENT_FD_SEQ))
                (snd (epoll_create1 w0)) in
    (epfd < 0 ∨ fst (fst cr) ≠ 0 → ∃ s', rebuildEpollLocked s = Fatal s')
    ∧ (0 ≤ epfd → fst (fst cr) = 0 →
       ∃ w, rebuildEpollLocked s
            = Ok tt (mkSys (set_mEpollFd epfd l) w (trace s ++ [EvRebuild]))).
Proof. exact rebuildEpollLocked_cases. Qed.

Lemma newLooper_state allow w s :
  newLooper allow w = Ok tt s →
  ∃ epfd,
    looper s
    = mkLooper allow (fst (eventfd w)) epfd false false false
        (WAKE_EVENT_FD_SEQ + 1) [] 0%nat LLONG_MAX [] ∅ ∅
    ∧ 0 ≤ fst (eventfd w) ∧ 0 ≤ epfd
    ∧ trace s = [EvRebuild].
Proof.
  unfold newLooper.
  destruct (eventfd w) as [wakeFd w1]. simpl.
  destruct (wakeFd <? 0) eqn:Efd; [done|]. apply Z.ltb_ge in Efd.
  intros H.
  match type of H with
  | rebuildEpollLocked ?s0 = _ =>
      pose proof (rebuildEpollLocked_run s0) as Hr
  end.
  cbv zeta in Hr. simpl in Hr.
  destruct (epoll_create1 w1) as [epfd w2] eqn:Ec. simpl in Hr.
  destruct ((epfd <? 0) || _) eqn:E.
  + destruct Hr as (s' & Hr & _). congruence.
  + destruct Hr as (w3 & Hr). rewrite Hr in H. injection H as <-.
    apply orb_false_elim in E as [E _]. apply Z.ltb_ge in E.
    exists epfd. done.
Qed.


End EpollSet.

Section Registration.
Context {PF : Platform} {UC : UserCode} {TM : Timers}.

(** ** The kernel refuses a registration *)

Lemma addFd_refused_new fd ident events cb data s :
  let l := looper s in
  let seq := nextSeq l in
  let request := Request.mk fd (storedIdent ident cb) events cb data in
  let item := Some (createEpollEvent (getEpollEvents request) seq) in
  let cr := epoll_ctl (mEpollFd l) EPOLL_CTL_ADD fd item (world s) in
  (cb = None → mAllowNonCallbacks l = true ∧ 0 ≤ ident) →
  mSequenceNumberByFd l !! fd = None →
  fst (fst cr) < 0 →
  addFd fd ident events cb data s
  = Ok (-1) (mkSys (set_mNextRequestSeq (incr_u64 seq) l) (snd cr) (trace s)).
Proof.
  unfold addFd, nextSeq, storedIdent. destruct s as [l w t]. run.
  intros Hargs Hfd Hk.
  assert (match cb with
          | Some _ => Some POLL_CALLBACK
          | None => if negb (mAllowNonCallbacks l) then None
                    else if ident <? 0 then None else Some ident
          end = Some (match cb with Some _ => POLL_CALLBACK | None => ident end))
    as ->.
  { destruct cb; [done|]. destruct (Hargs eq_refl) as [-> Hid]. simpl.
    apply Z.ltb_ge in Hid. by rewrite Hid. }
  destruct (mNextRequestSeq l =? WAKE_EVENT_FD_SEQ); simpl in *;
    rewrite Hfd; simpl;
    destruct (epoll_ctl _ _ _ _ _) as [[r e] w']; simpl in *;
    apply Z.ltb_lt in Hk; rewrite Hk; by destruct l.
Qed.

Lemma addFd_refused_old fd ident events cb data oldSeq s :
  let l := looper s in
  let seq := nextSeq l in
  let request := Request.mk fd (storedIdent ident cb) events cb data in
  let item := Some (createEpollEvent (getEpollEvents request) seq) in
  let cr := epoll_ctl (mEpollFd l) EPOLL_CTL_MOD fd item (world s) in
  let cr2 := epoll_ctl (mEpollFd l) EPOLL_CTL_ADD fd item (snd cr) in
  let res := addFd fd ident events cb data s in
  (cb = None → mAllowNonCallbacks l = true ∧ 0 ≤ ident) →
  mSequenceNumberByFd l !! fd = Some oldSeq →
  fst (fst cr) < 0 →
  (snd (fst cr) ≠ ENOENT →
   res = Ok (-1) (mkSys (set_mNextRequestSeq (incr_u64 seq) l) (snd cr)
                    (trace s)))
  ∧ (snd (fst cr) = ENOENT → fst (fst cr2) < 0 →
     res = Ok (-1) (mkSys (set_mNextRequestSeq (incr_u64 seq) l) (snd cr2)
                      (trace s)))
  ∧ (snd (fst cr) = ENOENT → 0 ≤ fst (fst cr2) →
     mEpollRebuildRequired (looper (final res)) = true
     ∧ ∀ r s', res = Ok r s' →
         r = 1
         ∧ mRequests (looper s')
           = emplace seq request (delete oldSeq (mRequests l))
         ∧ mSequenceNumberByFd (looper s')
           = <[fd := seq]> (mSequenceNumberByFd l)).
Proof.
  unfold addFd, nextSeq, storedIdent, scheduleEpollRebuildLocked, wake.
  destruct s as [l w t]. run.
  intros Hargs Hfd Hk.
  assert (match cb with
          | Some _ => Some POLL_CALLBACK
          | None => if negb (mAllowNonCallbacks l) then None
                    else if ident <? 0 then None else Some ident
          end = Some (match cb with Some _ => POLL_CALLBACK | None => ident end))
    as ->.
  { destruct cb; [done|]. destruct (Hargs eq_refl) as [-> Hid]. simpl.
    apply Z.ltb_ge in Hid. by rewrite Hid. }
  destruct (mNextRequestSeq l =? WAKE_EVENT_FD_SEQ); simpl in *;
    rewrite Hfd; simpl;
    destruct (epoll_ctl _ EPOLL_CTL_MOD _ _ _) as [[r e] w']; simpl in *;
    apply Z.ltb_lt in Hk; rewrite Hk;
    (split; [|split]).
  all: try (intros He; apply Z.eqb_neq in He; rewrite He; by destruct l).
  all: try (intros -> Hk2; simpl;
            destruct (epoll_ctl _ EPOLL_CTL_ADD _ _ _) as [[r2 e2] w2];
            simpl in *; apply Z.ltb_lt in Hk2; rewrite Hk2; by destruct l).
  all: intros -> Hk2; simpl;
    destruct (epoll_ctl _ EPOLL_CTL_ADD _ _ _) as [[r2 e2] w2]; simpl in *;
    apply Z.ltb_ge in Hk2; rewrite Hk2; simpl;
    destruct (mEpollRebuildRequired l) eqn:Ef; simpl;
    [ split; [done|]; by intros ? ? [= <- <-]
    | destruct (write_u64 (mWakeEventFd l) w2) as [[n e3] w3]; simpl;
      destruct (n =? 8); simpl;
      [ split; [done|]; by intros ? ? [= <- <-]
      | destruct (e3 =? EAGAIN); simpl;
        [ split; [done|]; by intros ? ? [= <- <-] | split; done ] ] ].
Qed.

(** X8: when the kernel refuses the registration, [addFd] returns [-1]
    with both tables as they were, though the sequence number is spent: for
    a new descriptor when [EPOLL_CTL_ADD] fails; for a registered one when
    [EPOLL_CTL_MOD] fails with an error other than [ENOENT], or with
    [ENOENT] and the [EPOLL_CTL_ADD] that follows fails too.  When that
    [EPOLL_CTL_ADD] succeeds the registration goes on, [1] is returned and a
    rebuild of the epoll set is scheduled. *)
Theorem addFd_kernel_refusals :
  ∀ fd ident events cb data s,
    let l := looper s in
    let seq := nextSeq l in
    let request := Request.mk fd (storedIdent ident cb) events cb data in
    let item := Some (createEpollEvent (getEpollEvents request) seq) in
    let res := addFd fd ident events cb data s in
    let spent w := mkSys (set_mNextRequestSeq (incr_u64 seq) l) w (trace s) in
    (cb = None → mAllowNonCallbacks l = true ∧ 0 ≤ ident) →
    (mSequenceNumberByFd l !! fd = None →
     let cr := epoll_ctl (mEpollFd l) EPOLL_CTL_ADD fd item (world s) in
     fst (fst cr) < 0 → res = Ok (-1) (spent (snd cr)))
    ∧ (∀ oldSeq,
         mSequenceNumberByFd l !! fd = Some oldSeq →
         let cr := epoll_ctl (mEpollFd l) EPOLL_CTL_MOD fd item (world s) in
         let cr2 := epoll_ctl (mEpollFd l) EPOLL_CTL_ADD fd item (snd cr) in
         fst (fst cr) < 0 →
         (snd (fst cr) ≠ ENOENT → res = Ok (-1) (spent (snd cr)))
         ∧ (snd (fst cr) = ENOENT → fst (fst cr2) < 0 →
            res = Ok (-1) (spent (snd cr2)))
         ∧ (snd (fst cr) = ENOENT → 0 ≤ fst (fst cr2) →
            mEpollRebuildRequired (looper (final res)) = true
            ∧ ∀ r s', res = Ok r s' →
                r = 1
                ∧ mRequests (looper s')
                  = emplace seq request (delete oldSeq (mRequests l))
                ∧ mSequenceNumberByFd (looper s')
                  = <[fd := seq]> (mSequenceNumberByFd l))).
Proof.
  intros fd ident events cb data s l seq request item res spent Hargs.
  split.
  - intros Hfd cr Hk. by apply addFd_refused_new.
  - intros oldSeq Hfd cr cr2 Hk.
    by apply (addFd_refused_old fd ident events cb data oldSeq s).
Qed.

(** ** repoll *)

Lemma repoll_unregistered fd s :
  mSequenceNumberByFd (looper s) !! fd = None → repoll fd s = Ok 0 s.
Proof. intros H. unfold repoll. run. by rewrite H. Qed.

Lemma repoll_unchanged fd s r s' :
  repoll fd s = Ok r s' →
  looper s' = looper s ∧ trace s' = trace s ∧ (r = 0 ∨ r = 1).
Proof.
  unfold repoll. destruct s as [l w t]. run. intros H.
  repeat case_match; simplify_eq; auto.
Qed.

Lemma repoll_registered fd seq s :
  tablesAgree (looper s) →
  mSequenceNumberByFd (looper s) !! fd = Some seq →
  ∃ request,
    mRequests (looper s) !! seq = Some request
    ∧ let cr := epoll_ctl (mEpollFd (looper s)) EPOLL_CTL_MOD fd
                  (Some (createEpollEvent (getEpollEvents request) seq))
                  (world s) in
      repoll fd s
      = Ok (if fst (fst cr) =? -1 then 0 else 1)
          (mkSys (looper s) (snd cr) (trace s)).
Proof.
  intros (H1 & _) Hfd. destruct (H1 fd seq Hfd) as (request & Hr & Hrfd).
  exists request. split; [done|]. unfold repoll. destruct s as [l w t]. run.
  rewrite Hfd, Hr, Hrfd, Z.eqb_refl.
  destruct (epoll_ctl _ _ _ _ _) as [[r e] w']. simpl.
  by destruct (r =? -1).
Qed.

(** X9: [repoll] returns [0] for a descriptor that is not registered.
    For a registered one, in a Looper whose tables agree, it asks the
    kernel once to modify the descriptor with the mask and the sequence
    number of the stored request, and returns [0] when that call returns
    [-1] and [1] otherwise; it does not end the process.  It never changes
    the Looper. *)
Theorem repoll_behaviour :
  (∀ fd s,
     mSequenceNumberByFd (looper s) !! fd = None → repoll fd s = Ok 0 s)
  ∧ (∀ fd s r s',
       repoll fd s = Ok r s' →
       looper s' = looper s ∧ trace s' = trace s ∧ (r = 0 ∨ r = 1))
  ∧ (∀ fd seq s,
       tablesAgree (looper s) →
       mSequenceNumberByFd (looper s) !! fd = Some seq →
       ∃ request,
         mRequests (looper s) !! seq = Some request
         ∧ let cr := epoll_ctl (mEpollFd (looper s)) EPOLL_CTL_MOD fd
                       (Some (createEpollEvent (getEpollEvents request) seq))
                       (world s) in
           repoll fd s
           = Ok (if fst (fst cr) =? -1 then 0 else 1)
               (mkSys (looper s) (snd cr) (trace s))).
Proof.
  split; [exact repoll_unregistered|].
  split; [exact repoll_unchanged | exact repoll_registered].
Qed.

(** ** getFdStateDebug *)

Lemma getFdStateDebug_returns fd s :
  ∃ r, getFdStateDebug fd s = Ok r s.
Proof. unfold getFdStateDebug. repeat case_match; eauto. Qed.

Lemma getFdStateDebug_added fd ident events cb data s s' :
  tablesOk (looper s) →
  mNextRequestSeq (looper s) < UINT64_MOD - 1 →
  addFd fd ident events cb data s = Ok 1 s' →
  getFdStateDebug fd s'
  = Ok (Some (mkFdState (storedIdent ident cb) events cb data)) s'.
Proof.
  intros Hok Hn H.
  assert (mRequests (looper s) !! nextSeq (looper s) = None) as Hfresh.
  { destruct Hok as [_ Hsq]. rewrite (nextSeq_allocated _ Hsq).
    destruct Hsq as [_ Hkeys].
    destruct (mRequests (looper s) !! mNextRequestSeq (looper s)) eqn:E;
      [|done].
    apply Hkeys in E. lia. }
  destruct (addFd_stores _ _ _ _ _ _ _ Hfresh H) as [Hix Hrq].
  unfold getFdStateDebug. by rewrite Hix, Hrq.
Qed.

Lemma getFdStateDebug_removed fd s r s' :
  removeFd fd s = Ok r s' → getFdStateDebug fd s' = Ok None s'.
Proof.
  unfold removeFd. run.
  destruct (mSequenceNumberByFd (looper s) !! fd) as [seq|] eqn:Hfd.
  - intros H. pose proof (removeSequenceNumberLocked_effect _ _ _ _ H) as He.
    simpl in He. destruct He as [_ He]. unfold getFdStateDebug.
    destruct (mRequests (looper s) !! seq) as [request|] eqn:Hr.
    + destruct He as [Hrq Hix]. rewrite Hix, Hrq.
      destruct (decide (Request.fd request = fd)) as [->|Hne].
      * by rewrite lookup_delete_eq.
      * rewrite lookup_delete_ne, Hfd by done. by rewrite lookup_delete_eq.
    + destruct He as (_ & Hrq & Hix). by rewrite Hix, Hfd, Hrq, Hr.
  - intros [= <- <-]. unfold getFdStateDebug. by rewrite Hfd.
Qed.

Lemma emplace_lookup_ne {V : Type} k (v : V) m q :
  q ≠ k → emplace k v m !! q = m !! q.
Proof.
  intros Hq. unfold emplace. destruct (m !! k); [done|].
  by rewrite lookup_insert_ne.
Qed.

Lemma getFdStateDebug_other fd fd' ident events cb data s r s' :
  tablesOk (looper s) →
  mNextRequestSeq (looper s) < UINT64_MOD - 1 →
  fd' ≠ fd →
  addFd fd' ident events cb data s = Ok r s' →
  ∀ st, getFdStateDebug fd s = Ok st s → getFdStateDebug fd s' = Ok st s'.
Proof.
  intros Hok Hn Hne H st. pose proof (addFd_effect _ _ _ _ _ _ _ _ H) as He.
  simpl in He. unfold getFdStateDebug.
  destruct He as [(_ & Hrq & Hix & _)|(_ & _ & He)].
  { rewrite Hrq, Hix. repeat case_match; congruence. }
  destruct Hok as [(H1 & H2 & H3) Hsq].
  rewrite (nextSeq_allocated _ Hsq) in He. destruct Hsq as [Hr Hkeys].
  assert (mSequenceNumberByFd (looper s') !! fd
          = mSequenceNumberByFd (looper s) !! fd) as Hix.
  { destruct (mSequenceNumberByFd (looper s) !! fd') as [old|];
      destruct He as [_ ->].
    - by rewrite lookup_insert_ne.
    - by rewrite emplace_lookup_ne. }
  rewrite Hix.
  destruct (mSequenceNumberByFd (looper s) !! fd) as [seq|] eqn:Hfd;
    [|by intros [= <-]].
  destruct (H1 fd seq Hfd) as (request & Hreq & Hrfd). rewrite Hreq.
  pose proof (Hkeys _ _ Hreq) as Hlt. intros [= <-].
  assert (mRequests (looper s') !! seq = Some request) as ->; [|done].
  destruct (mSequenceNumberByFd (looper s) !! fd') as [old|] eqn:Hfd';
    destruct He as [-> _]; rewrite emplace_lookup_ne by lia; [|done].
  rewrite lookup_delete_ne; [done|].
  intros ->. destruct (H1 fd' seq Hfd') as (r2 & Hr2 & Hr2fd). congruence.
Qed.

(** X10: [getFdStateDebug] always returns and leaves the state alone.  In
    a Looper whose tables are in order it reads back what [addFd] stored for
    the descriptor (with [POLL_CALLBACK] for the identifier when a callback
    was given), is not affected by an [addFd] on another descriptor, and
    finds nothing once [removeFd] has returned. *)
Theorem getFdStateDebug_reads_registration :
  (∀ fd s, ∃ r, getFdStateDebug fd s = Ok r s)
  ∧ (∀ fd ident events cb data s s',
       tablesOk (looper s) →
       mNextRequestSeq (looper s) < UINT64_MOD - 1 →
       addFd fd ident events cb data s = Ok 1 s' →
       getFdStateDebug fd s'
       = Ok (Some (mkFdState (storedIdent ident cb) events cb data)) s')
  ∧ (∀ fd fd' ident events cb data s r s',
       tablesOk (looper s) →
       mNextRequestSeq (looper s) < UINT64_MOD - 1 →
       fd' ≠ fd →
       addFd fd' ident events cb data s = Ok r s' →
       ∀ st, getFdStateDebug fd s = Ok st s →
             getFdStateDebug fd s' = Ok st s')
  ∧ (∀ fd s r s',
       removeFd fd s = Ok r s' → getFdStateDebug fd s' = Ok None s').
Proof.
  split; [exact getFdStateDebug_returns|].
  split; [exact getFdStateDebug_added|].
  split; [exact getFdStateDebug_other | exact getFdStateDebug_removed].
Qed.

End Registration.

Section Rebuild.
Context {PF : Platform} {UC : UserCode} {TM : Timers}.

(** ** Scheduling a rebuild *)

Lemma wake_final s :
  looper (final (wake s)) = looper s
  ∧ trace (final (wake s)) = trace s ++ [EvWake].
Proof.
  unfold wake. destruct s as [l w t]. run.
  destruct (write_u64 (mWakeEventFd l) w) as [[n e] w']. simpl.
  by repeat case_match.
Qed.

Lemma schedule_pending s :
  mEpollRebuildRequired (looper s) = true →
  scheduleEpollRebuildLocked s = Ok tt s.
Proof.
  intros H. unfold scheduleEpollRebuildLocked. run. rewrite H. by destruct s.
Qed.

Lemma schedule_fresh s :
  mEpollRebuildRequired (looper s) = false →
  let s1 := mkSys (set_mEpollRebuildRequired true (looper s)) (world s)
              (trace s) in
  scheduleEpollRebuildLocked s = wake s1
  ∧ looper (final (scheduleEpollRebuildLocked s)) = looper s1
  ∧ trace (final (scheduleEpollRebuildLocked s)) = trace s ++ [EvWake].
Proof.
  intros H s1.
  assert (scheduleEpollRebuildLocked s = wake s1) as ->.
  { unfold scheduleEpollRebuildLocked. run. by rewrite H. }
  split; [done|]. apply (wake_final s1).
Qed.

Lemma pollWait_rebuild t s :
  mEpollRebuildRequired (looper s) = true →
  let waited := fst (epoll_wait (mEpollFd (looper s)) t (world s)) in
  trace (final (pollWait t s))
  = trace s ++ [EvEpollWait t waited; EvRebuild].
Proof.
  intros Hflag. unfold pollWait. destruct s as [l w tr]. run.
  destruct (epoll_wait (mEpollFd l) t w) as [waited w1]. simpl.
  rewrite Hflag. simpl.
  match goal with
  | |- context [rebuildEpollLocked ?s0] =>
      pose proof (rebuildEpollLocked_run s0) as Hr
  end.
  cbv zeta in Hr. simpl in Hr.
  destruct (_ || _).
  - destruct Hr as (s' & -> & Ht). simpl. rewrite Ht. by rewrite <- app_assoc.
  - destruct Hr as (w' & ->). simpl. by rewrite <- app_assoc.
Qed.

Lemma pollInner_rebuild fuel t s r s' :
  mEpollRebuildRequired (looper s) = true →
  pollInner fuel t s = Ok r s' →
  ∃ passed waited tr,
    trace s' = trace s ++ EvEpollWait passed waited :: EvRebuild :: tr
    ∧ Forall isDrainEvent tr
    ∧ mResponses (looper s') = [].
Proof.
  intros Hflag H.
  apply pollInner_Ok in H as (w1 & r0 & s2 & r1 & s4 & Hw & Hd & Hc).
  match type of Hw with
  | pollWait ?p ?s1 = _ =>
      pose proof (pollWait_rebuild p s1 Hflag) as Ht1;
      destruct (pollWait_final p s1) as (_ & _ & _ & Hok1)
  end.
  rewrite Hw in Ht1. simpl in Ht1, Hok1.
  destruct (Hok1 r0 s2 Hw) as (_ & x & Hl2). rewrite Hflag in Hl2.
  match type of Hd with
  | drainMessages _ _ ?s3 = _ =>
      destruct (drainMessages_spec fuel r0 s3) as (tr2 & Ht2 & HP2 & Hok2)
  end.
  rewrite Hd in Ht2. simpl in Ht2.
  destruct (Hok2 r1 s4 Hd) as (_ & Hrs & _). simpl in Hrs.
  rewrite Hl2 in Hrs. simpl in Hrs. rewrite Hrs in Hc. simpl in Hc.
  injection Hc as <- <-.
  eexists _, _, tr2. split; [|done].
  by rewrite Ht2, Ht1, <- app_assoc.
Qed.

(** X11: a rebuild of the epoll set is scheduled once.
    [scheduleEpollRebuildLocked] does nothing when one is pending;
    otherwise it sets the flag and calls [wake] once.  The inner poll that
    finds the flag set rebuilds right after its wait, whatever the wait
    returned: no response is built and no callback is invoked in that
    poll; only due messages are still handed over. *)
Theorem rebuild_is_scheduled_once :
  (∀ s, mEpollRebuildRequired (looper s) = true →
        scheduleEpollRebuildLocked s = Ok tt s)
  ∧ (∀ s,
       mEpollRebuildRequired (looper s) = false →
       let s1 := mkSys (set_mEpollRebuildRequired true (looper s)) (world s)
                   (trace s) in
       scheduleEpollRebuildLocked s = wake s1
       ∧ looper (final (scheduleEpollRebuildLocked s)) = looper s1
       ∧ trace (final (scheduleEpollRebuildLocked s)) = trace s ++ [EvWake])
  ∧ (∀ t s,
       mEpollRebuildRequired (looper s) = true →
       trace (final (pollWait t s))
       = trace s
         ++ [EvEpollWait t (fst (epoll_wait (mEpollFd (looper s)) t (world s)));
             EvRebuild])
  ∧ (∀ fuel t s r s',
       mEpollRebuildRequired (looper s) = true →
       pollInner fuel t s = Ok r s' →
       ∃ passed waited tr,
         trace s' = trace s ++ EvEpollWait passed waited :: EvRebuild :: tr
         ∧ Forall isDrainEvent tr
         ∧ mResponses (looper s') = []).
Proof.
  split; [exact schedule_pending|].
  split; [exact schedule_fresh|].
  split; [exact pollWait_rebuild | exact pollInner_rebuild].
Qed.

(** ** The wake descriptor among the ready items *)

Lemma handleItems_trace items : ∀ s,
  ∃ w,
    handleItems items s
    = Ok tt (mkSys
               (set_mResponses
                  (mResponses (looper s)
                   ++ omap (responseOf (mRequests (looper s))) items)
                  (looper s))
               w (trace s ++ awokenFor items)).
Proof.
  induction items as [|item items IH]; intros s; simpl.
  - exists (world s). rewrite !app_nil_r, set_mResponses_id. by destruct s.
  - unfold bind at 1. unfold handleItem, awoken, responseOf.
    destruct s as [l w0 t]. run.
    destruct (ee_u64 item =? WAKE_EVENT_FD_SEQ); simpl.
    + destruct (Z.land (ee_events item) EPOLLIN =? 0); simpl.
      * apply (IH (mkSys l w0 t)).
      * destruct (IH (mkSys l (read_u64 (mWakeEventFd l) w0) (t ++ [EvAwoken])))
          as [w' ->].
        exists w'. simpl. by rewrite <- app_assoc.
    + destruct (mRequests l !! ee_u64 item) as [request|] eqn:Er; simpl.
      * match goal with
        | |- ∃ x, handleItems items ?s0 = _ => destruct (IH s0) as [w' Hw']
        end.
        rewrite Hw'.
        exists w'. simpl. rewrite <- app_assoc. simpl. by destruct l.
      * apply (IH (mkSys l w0 t)).
Qed.

Lemma pollWait_items t s item items :
  mEpollRebuildRequired (looper s) = false →
  fst (epoll_wait (mEpollFd (looper s)) t (world s))
  = WaitEvents (item :: items) →
  ∃ s',
    pollWait t s = Ok POLL_WAKE s'
    ∧ trace s'
      = trace s ++ EvEpollWait t (WaitEvents (item :: items))
                :: awokenFor (item :: items)
    ∧ mResponses (looper s')
      = omap (responseOf (mRequests (looper s))) (item :: items).
Proof.
  intros Hflag Hw. unfold pollWait. destruct s as [l w tr]. run.
  destruct (epoll_wait (mEpollFd l) t w) as [waited w1]. simpl in *.
  subst waited. rewrite Hflag.
  assert ((eventCount (item :: items) =? 0) = false) as E by done.
  cbv beta iota. rewrite E.
  match goal with
  | |- context [handleItems ?its ?s0] =>
      destruct (handleItems_trace its s0) as [w' Hw']
  end.
  rewrite Hw'.
  eexists. split; [done|]. simpl. by rewrite <- app_assoc.
Qed.

(** X12: when the wait returns ready items and no rebuild is pending,
    [awoken] is called once for every item of the wake descriptor that is
    readable and for no other item; such an item gives no response, and
    the result before any dispatch is [POLL_WAKE]. *)
Theorem wake_items_call_awoken :
  (∀ items s,
     ∃ w,
       handleItems items s
       = Ok tt (mkSys
                  (set_mResponses
                     (mResponses (looper s)
                      ++ omap (responseOf (mRequests (looper s))) items)
                     (looper s))
                  w (trace s ++ awokenFor items)))
  ∧ (∀ t s item items,
       mEpollRebuildRequired (looper s) = false →
       fst (epoll_wait (mEpollFd (looper s)) t (world s))
       = WaitEvents (item :: items) →
       ∃ s',
         pollWait t s = Ok POLL_WAKE s'
         ∧ trace s'
           = trace s ++ EvEpollWait t (WaitEvents (item :: items))
                     :: awokenFor (item :: items)
         ∧ mResponses (looper s')
           = omap (responseOf (mRequests (looper s))) (item :: items))
  ∧ (∀ requests item,
       ee_u64 item = WAKE_EVENT_FD_SEQ → responseOf requests item = None).
Proof.
  split; [exact handleItems_trace|].
  split; [exact pollWait_items|].
  intros requests item H. unfold responseOf. by rewrite H.
Qed.

End Rebuild.

Section Sending.
Context {PF : Platform} {UC : UserCode} {TM : Timers}.

(** ** sendMessage and sendMessageDelayed *)

Lemma add_i64_exact a b : inInt64 (a + b) → add_i64 a b = a + b.
Proof.
  unfold inInt64, add_i64. intros H. rewrite Z.mod_small; lia.
Qed.

Lemma sendMessage_at h m s :
  sendMessage h m s
  = sendMessageAtTime (fst (systemTime (world s))) h m
      (mkSys (looper s) (snd (systemTime (world s))) (trace s)).
Proof.
  unfold sendMessage, bind, sys. by destruct (systemTime (world s)).
Qed.

Lemma sendMessageDelayed_at d h m s :
  sendMessageDelayed d h m s
  = sendMessageAtTime (add_i64 (fst (systemTime (world s))) d) h m
      (mkSys (looper s) (snd (systemTime (world s))) (trace s)).
Proof.
  unfold sendMessageDelayed, bind, sys. by destruct (systemTime (world s)).
Qed.

(** X13: [sendMessage] and [sendMessageDelayed] read the clock once and
    then are [sendMessageAtTime], for the time read and for that time plus
    the delay; the sum is exact when it is in the range of [nsecs_t].  So a
    delay of [0] is [sendMessage], and the envelope stored carries the
    deadline [now + delay]. *)
Theorem sendMessage_reads_clock :
  (∀ h m s,
     sendMessage h m s
     = sendMessageAtTime (fst (systemTime (world s))) h m
         (mkSys (looper s) (snd (systemTime (world s))) (trace s)))
  ∧ (∀ d h m s,
       inInt64 (fst (systemTime (world s)) + d) →
       sendMessageDelayed d h m s
       = sendMessageAtTime (fst (systemTime (world s)) + d) h m
           (mkSys (looper s) (snd (systemTime (world s))) (trace s)))
  ∧ (∀ h m s,
       inInt64 (fst (systemTime (world s))) →
       sendMessageDelayed 0 h m s = sendMessage h m s)
  ∧ (∀ d h m s,
       inInt64 (fst (systemTime (world s)) + d) →
       MessageEnvelope.mk (fst (systemTime (world s)) + d) h m
       ∈ mMessageEnvelopes (looper (final (sendMessageDelayed d h m s)))).
Proof.
  split; [exact sendMessage_at|].
  split.
  { intros d h m s Hr. by rewrite sendMessageDelayed_at, add_i64_exact. }
  split.
  { intros h m s Hr.
    rewrite sendMessageDelayed_at, sendMessage_at, add_i64_exact;
      by rewrite Z.add_0_r. }
  intros d h m s Hr. rewrite sendMessageDelayed_at, add_i64_exact by done.
  destruct (sendMessageAtTime_final (fst (systemTime (world s)) + d) h m
              (mkSys (looper s) (snd (systemTime (world s))) (trace s)))
    as [Hq _].
  rewrite Hq. unfold insertAt. rewrite elem_of_app, elem_of_cons. auto.
Qed.

End Sending.

Section Keeps.
Context {PF : Platform} {UC : UserCode} {TM : Timers}.

(** ** Properties of the two tables along a poll *)

Variable J : Looper → Prop.
Hypothesis J_tables : ∀ l l',
  mRequests l' = mRequests l →
  mSequenceNumberByFd l' = mSequenceNumberByFd l → J l → J l'.
Hypothesis J_exec : ∀ c s r s',
  J (looper s) → exec c s = Ok r s' → J (looper s').
Hypothesis J_remove : ∀ seq s r s',
  J (looper s) → removeSequenceNumberLocked seq s = Ok r s' → J (looper s').

Lemma runProg_keeps p : ∀ s r s',
  J (looper s) → runProg p s = Ok r s' → J (looper s').
Proof.
  induction p as [r0|c k IH]; intros s r s' HJ H; simpl in H.
  - by injection H as <- <-.
  - apply bind_Ok in H as (r1 & s1 & Hx & H).
    apply bind_Ok in H as ([] & s2 & He & H).
    injection He as <-. refine (IH r1 _ r s' _ H). simpl. by eapply J_exec.
Qed.

Lemma runUser_keeps code s r s' :
  J (looper s) → runUser code s = Ok r s' → J (looper s').
Proof.
  intros HJ H. unfold runUser, bind, sys in H.
  destruct (code (world s)) as [p w]. by apply runProg_keeps in H.
Qed.

Lemma drainMessages_keeps fuel : ∀ result s r s',
  J (looper s) → drainMessages fuel result s = Ok r s' → J (looper s').
Proof.
  induction fuel as [|fuel IH]; intros result s r s' HJ H; simpl in H; [done|].
  destruct s as [l w t]. run.
  destruct (mMessageEnvelopes l) as [|e rest] eqn:Eq; simpl in *.
  { by injection H as <- <-. }
  destruct (systemTime w) as [now w1]. simpl in *.
  destruct (MessageEnvelope.uptime e <=? now); simpl in *.
  - match type of H with
    | context [runUser ?c ?s0] =>
        destruct (runUser c s0) as [ru su|su|su] eqn:Eu; try done;
        assert (J (looper s0)) as HJ0 by (by eapply J_tables; [..|exact HJ])
    end.
    apply runUser_keeps in Eu; [|done].
    eapply IH; [|exact H]. by eapply J_tables; [..|exact Eu].
  - injection H as <- <-. by eapply J_tables; [..|exact HJ].
Qed.

Lemma invokeCallbacks_keeps n : ∀ i result s r s',
  J (looper s) → invokeCallbacks n i result s = Ok r s' → J (looper s').
Proof.
  induction n as [|n IH]; intros i result s r s' HJ H; simpl in H.
  { by injection H as <- <-. }
  destruct s as [l w t]. run.
  destruct (mResponses l !! i) as [response|] eqn:Er; simpl in *.
  2:{ by injection H as <- <-. }
  destruct (Request.ident (Response.request response) =? POLL_CALLBACK).
  2:{ eapply IH; [|exact H]. exact HJ. }
  destruct (Request.callback (Response.request response)) as [cb|]; [|done].
  simpl in *.
  match type of H with
  | context [runUser ?c ?s0] =>
      destruct (runUser c s0) as [ru su|su|su] eqn:Eu; try done;
      assert (J (looper s0)) as HJ0 by (by eapply J_tables; [..|exact HJ])
  end.
  apply runUser_keeps in Eu; [|done]. simpl in *.
  destruct (ru =? 0).
  - destruct (removeSequenceNumberLocked (Response.seq response) su)
      as [rr sr|sr|sr] eqn:Err; try done; simpl in *.
    apply J_remove in Err; [|done].
    eapply IH; [|exact H]. by eapply J_tables; [..|exact Err].
  - eapply IH; [|exact H]. by eapply J_tables; [..|exact Eu].
Qed.

Lemma pollInner_keeps fuel t s r s' :
  J (looper s) → pollInner fuel t s = Ok r s' → J (looper s').
Proof.
  intros HJ H.
  apply pollInner_Ok in H as (w1 & r0 & s2 & r1 & s4 & Hw & Hd & Hc).
  match type of Hw with
  | pollWait ?p ?s1 = _ =>
      destruct (pollWait_final p s1) as (tr1 & Ht1 & HP1 & Hok1)
  end.
  destruct (Hok1 r0 s2 Hw) as (_ & x & Hl2). simpl in Hl2.
  eapply invokeCallbacks_keeps; [|exact Hc].
  eapply drainMessages_keeps; [|exact Hd].
  simpl. eapply J_tables; [..|exact HJ]; by rewrite Hl2.
Qed.

Lemma pollOnce_keeps fuel t s res s' :
  J (looper s) → pollOnce fuel t s = Ok res s' → J (looper s').
Proof.
  intros HJ H. destruct (pending (looper s)) as [|r rest] eqn:Hp.
  - destruct (pollOnce_idle fuel t s res s' Hp H)
      as (fuel' & k & r1 & s2 & k' & Hin & -> & _).
    apply pollInner_keeps in Hin.
    + by eapply J_tables; [..|exact Hin].
    + by eapply J_tables; [..|exact HJ].
  - destruct fuel as [|fuel]; [done|].
    destruct (pollOnce_pending fuel t s r rest Hp) as (k & Hk & _).
    rewrite Hk in H. injection H as <- <-.
    by eapply J_tables; [..|exact HJ].
Qed.

End Keeps.

Section WellFormed.
Context {PF : Platform} {UC : UserCode} {TM : Timers}.

(** ** The stored requests are well formed *)

Lemma nextSeq_not_wake l : nextSeq l ≠ WAKE_EVENT_FD_SEQ.
Proof.
  unfold nextSeq.
  destruct (Z.eqb_spec (mNextRequestSeq l) WAKE_EVENT_FD_SEQ) as [->|]; done.
Qed.

Lemma addFd_accepted fd ident events cb data s s' :
  addFd fd ident events cb data s = Ok 1 s' →
  requestOk (Request.mk fd (storedIdent ident cb) events cb data).
Proof.
  unfold requestOk. destruct cb as [cb|]; [done|]. simpl.
  unfold addFd. run.
  destruct (mAllowNonCallbacks (looper s)); simpl; [|done].
  destruct (ident <? 0) eqn:E; [done|]. intros _. by apply Z.ltb_ge in E.
Qed.

Lemma requestsOk_emplace l seq request rq :
  (∀ q r, rq !! q = Some r → requestOk r) →
  rq !! WAKE_EVENT_FD_SEQ = None →
  requestOk request → seq ≠ WAKE_EVENT_FD_SEQ →
  mRequests l = emplace seq request rq → requestsOk l.
Proof.
  intros Hall Hw Hr Hs He. unfold requestsOk. rewrite He. split.
  - intros q r. unfold emplace. destruct (rq !! seq); [apply Hall|].
    intros [[_ <-]|[_ E]]%lookup_insert_Some; [done|by eapply Hall].
  - by rewrite emplace_lookup_ne.
Qed.

Lemma addFd_requestsOk fd ident events cb data s r s' :
  requestsOk (looper s) →
  addFd fd ident events cb data s = Ok r s' → requestsOk (looper s').
Proof.
  intros [Hall Hw] H. pose proof (addFd_effect _ _ _ _ _ _ _ _ H) as He.
  simpl in He. destruct He as [(_ & Hrq & _)|(-> & _ & He)].
  { split; rewrite Hrq; done. }
  apply addFd_accepted in H.
  destruct (mSequenceNumberByFd (looper s) !! fd) as [old|];
    destruct He as [He _].
  - eapply requestsOk_emplace; [| |exact H|apply nextSeq_not_wake|exact He].
    + intros q r0 [_ E]%lookup_delete_Some. by eapply Hall.
    + apply lookup_delete_None. by right.
  - by eapply requestsOk_emplace; [| |exact H|apply nextSeq_not_wake|exact He].
Qed.

Lemma removeSequenceNumberLocked_requestsOk seq s r s' :
  requestsOk (looper s) →
  removeSequenceNumberLocked seq s = Ok r s' → requestsOk (looper s').
Proof.
  intros [Hall Hw] H.
  pose proof (removeSequenceNumberLocked_effect _ _ _ _ H) as [_ He].
  simpl in He. destruct (mRequests (looper s) !! seq).
  - destruct He as [Hrq _]. split; rewrite Hrq.
    + intros q r0 [_ E]%lookup_delete_Some. by eapply Hall.
    + apply lookup_delete_None. by right.
  - destruct He as (_ & Hrq & _). split; by rewrite Hrq.
Qed.

Lemma requestsOk_tables l l' :
  mRequests l' = mRequests l →
  mSequenceNumberByFd l' = mSequenceNumberByFd l →
  requestsOk l → requestsOk l'.
Proof. unfold requestsOk. by intros -> _. Qed.

Lemma exec_requestsOk c s r s' :
  requestsOk (looper s) → exec c s = Ok r s' → requestsOk (looper s').
Proof.
  intros HJ H.
  destruct c as [fd ident events cb data|fd|fd|h m|d h m|t h m|h wh|];
    simpl in H.
  - by eapply addFd_requestsOk.
  - unfold removeFd in H. run.
    destruct (mSequenceNumberByFd (looper s) !! fd).
    + by eapply removeSequenceNumberLocked_requestsOk.
    + by injection H as <- <-.
  - pose proof (exec_other_tables (mRequests (looper s))
                  (mSequenceNumberByFd (looper s))
                  (mNextRequestSeq (looper s)) (CRepoll fd)) as Hs.
    destruct (triple_Ok _ _ _ _ s _ _ Hs (conj eq_refl (conj eq_refl eq_refl)) H)
      as [_ (Hrq & Hix & _)].
    by eapply requestsOk_tables.
  - pose proof (exec_other_tables (mRequests (looper s))
                  (mSequenceNumberByFd (looper s))
                  (mNextRequestSeq (looper s)) (CSendMessage h m))
      as Hs.
    destruct (triple_Ok _ _ _ _ s _ _ Hs (conj eq_refl (conj eq_refl eq_refl)) H)
      as [_ (Hrq & Hix & _)].
    by eapply requestsOk_tables.
  - pose proof (exec_other_tables (mRequests (looper s))
                  (mSequenceNumberByFd (looper s))
                  (mNextRequestSeq (looper s))
                  (CSendMessageDelayed d h m)) as Hs.
    destruct (triple_Ok _ _ _ _ s _ _ Hs (conj eq_refl (conj eq_refl eq_refl)) H)
      as [_ (Hrq & Hix & _)].
    by eapply requestsOk_tables.
  - pose proof (exec_other_tables (mRequests (looper s))
                  (mSequenceNumberByFd (looper s))
                  (mNextRequestSeq (looper s))
                  (CSendMessageAtTime t h m)) as Hs.
    destruct (triple_Ok _ _ _ _ s _ _ Hs (conj eq_refl (conj eq_refl eq_refl)) H)
      as [_ (Hrq & Hix & _)].
    by eapply requestsOk_tables.
  - pose proof (exec_other_tables (mRequests (looper s))
                  (mSequenceNumberByFd (looper s))
                  (mNextRequestSeq (looper s)) (CRemoveMessages h wh))
      as Hs.
    destruct (triple_Ok _ _ _ _ s _ _ Hs (conj eq_refl (conj eq_refl eq_refl)) H)
      as [_ (Hrq & Hix & _)].
    by eapply requestsOk_tables.
  - pose proof (exec_other_tables (mRequests (looper s))
                  (mSequenceNumberByFd (looper s))
                  (mNextRequestSeq (looper s)) CWake) as Hs.
    destruct (triple_Ok _ _ _ _ s _ _ Hs (conj eq_refl (conj eq_refl eq_refl)) H)
      as [_ (Hrq & Hix & _)].
    by eapply requestsOk_tables.
Qed.

Lemma newLooper_requestsOk allow w s :
  newLooper allow w = Ok tt s → requestsOk (looper s).
Proof.
  intros H. apply newLooper_state in H as (epfd & -> & _).
  split; simpl; [|done]. intros q r. by rewrite lookup_empty.
Qed.

Lemma pollOnce_requestsOk fuel t s res s' :
  requestsOk (looper s) → pollOnce fuel t s = Ok res s' →
  requestsOk (looper s').
Proof.
  apply (pollOnce_keeps requestsOk requestsOk_tables exec_requestsOk
           removeSequenceNumberLocked_requestsOk).
Qed.

Lemma responsesOf_requestOk l flag waited r :
  requestsOk l → r ∈ responsesOf flag waited (mRequests l) →
  requestOk (Response.request r) ∧ Response.seq r ≠ WAKE_EVENT_FD_SEQ.
Proof.
  intros [Hall Hw] Hr. unfold responsesOf in Hr.
  destruct flag; [by apply elem_of_nil in Hr|].
  destruct waited as [e|items]; [by apply elem_of_nil in Hr|].
  apply list_elem_of_omap in Hr as (item & _ & Hi).
  apply responseOf_registered in Hi as [_ Hi].
  split; [by eapply Hall|]. intros E. congruence.
Qed.

(** X14: every request in the table is as [addFd] builds it, a callback
    with the identifier [POLL_CALLBACK] or no callback with an identifier
    that is not negative, and none is stored under the sequence number of
    the wake descriptor, even when the sequence counter has wrapped.  This
    holds for a new Looper and is kept by every method user code can call
    and by [pollOnce]; so every response that reaches the callback loop of
    the inner poll carries a callback. *)
Theorem requests_stay_well_formed :
  (∀ allow w s, newLooper allow w = Ok tt s → requestsOk (looper s))
  ∧ (∀ c s r s',
       requestsOk (looper s) → exec c s = Ok r s' → requestsOk (looper s'))
  ∧ (∀ fuel t s res s',
       requestsOk (looper s) → pollOnce fuel t s = Ok res s' →
       requestsOk (looper s'))
  ∧ (∀ l flag waited r,
       requestsOk l → r ∈ responsesOf flag waited (mRequests l) →
       Response.seq r ≠ WAKE_EVENT_FD_SEQ
       ∧ (Request.ident (Response.request r) = POLL_CALLBACK →
          is_Some (Request.callback (Response.request r)))
       ∧ (Request.ident (Response.request r) ≠ POLL_CALLBACK →
          Request.callback (Response.request r) = None
          ∧ 0 ≤ Request.ident (Response.request r))).
Proof.
  split; [exact newLooper_requestsOk|].
  split; [exact exec_requestsOk|].
  split; [exact pollOnce_requestsOk|].
  intros l flag waited r Hok Hr.
  destruct (responsesOf_requestOk l flag waited r Hok Hr) as [Hrq Hs].
  split; [done|]. unfold requestOk in Hrq.
  destruct (Request.callback (Response.request r)); split; intros Hi;
    try done; eauto.
  unfold POLL_CALLBACK in Hi. lia.
Qed.

End WellFormed.

Section Rest.
Context {PF : Platform} {UC : UserCode} {TM : Timers}.

(** ** The Looper between two calls *)

Lemma pollState_flags l l' :
  pollState l' = pollState l →
  mPolling l' = mPolling l ∧ mSendingMessage l' = mSendingMessage l
  ∧ mResponses l' = mResponses l.
Proof.
  destruct l, l'. unfold pollState. simpl.
  by intros [= -> -> -> -> -> -> -> ->].
Qed.

Lemma exec_atRest c s r s' :
  atRest (looper s) → exec c s = Ok r s' → atRest (looper s').
Proof.
  intros (H1 & H2 & H3) H.
  destruct (triple_Ok _ _ _ _ s _ _ (exec_framed (pollState (looper s)) c)
              eq_refl H) as [_ Hp].
  apply pollState_flags in Hp as (Ha & Hb & Hc).
  unfold atRest. by rewrite Ha, Hb, Hc.
Qed.

Lemma drainMessages_flags fuel : ∀ result s r s',
  drainMessages fuel result s = Ok r s' →
  mPolling (looper s') = mPolling (looper s)
  ∧ (mSendingMessage (looper s) = false →
     mSendingMessage (looper s') = false).
Proof.
  induction fuel as [|fuel IH]; intros result s r s' H; simpl in H; [done|].
  destruct s as [l w t]. run.
  destruct (mMessageEnvelopes l) as [|e rest] eqn:Eq; simpl in *.
  { by injection H as <- <-. }
  destruct (systemTime w) as [now w1]. simpl in *.
  destruct (MessageEnvelope.uptime e <=? now); simpl in *.
  - match type of H with
    | context [runUser ?c ?s0] =>
        destruct (runUser c s0) as [ru su|su|su] eqn:Eu; try done;
        apply runUser_Ok in Eu as [Hp _]
    end.
    apply pollState_flags in Hp as (Hpo & _ & _). simpl in Hpo.
    apply IH in H as [Hpo' Hse']. simpl in *.
    split; [by rewrite Hpo', Hpo|]. intros _. by apply Hse'.
  - by injection H as <- <-.
Qed.

Lemma invokeCallbacks_rest n : ∀ i result s r s',
  invokeCallbacks n i result s = Ok r s' →
  (length (mResponses (looper s)) ≤ i + n)%nat →
  (∀ j resp, mResponses (looper s) !! j = Some resp → (j < i)%nat →
             Request.callback (Response.request resp) = None) →
  (∀ j resp, mResponses (looper s) !! j = Some resp → (i ≤ j)%nat →
             requestOk (Response.request resp)) →
  mPolling (looper s') = mPolling (looper s)
  ∧ mSendingMessage (looper s') = mSendingMessage (looper s)
  ∧ Forall (λ r, Request.callback (Response.request r) = None)
      (mResponses (looper s')).
Proof.
  induction n as [|n IH]; intros i result s r s' H Hlen Hlo Hhi; simpl in H.
  { injection H as <- <-. split; [done|]. split; [done|].
    apply Forall_lookup. intros j resp Hj. apply (Hlo j resp Hj).
    apply lookup_lt_Some in Hj. lia. }
  destruct s as [l w t]. run.
  destruct (mResponses l !! i) as [response|] eqn:Er; simpl in *.
  2:{ injection H as <- <-. split; [done|]. split; [done|].
      apply Forall_lookup. intros j resp Hj. apply (Hlo j resp Hj).
      apply lookup_lt_Some in Hj. apply lookup_ge_None in Er. simpl in Hj.
      lia. }
  destruct (Request.ident (Response.request response) =? POLL_CALLBACK) eqn:Ei.
  2:{ apply IH in H; [done|simpl; lia| |].
      - simpl. intros j resp Hj Hlt.
        destruct (decide (j = i)) as [->|Hne]; [|apply (Hlo j resp Hj); lia].
        rewrite Er in Hj. injection Hj as <-.
        pose proof (Hhi i response Er (le_n _)) as Hok. unfold requestOk in Hok.
        destruct (Request.callback (Response.request response)); [|done].
        apply Z.eqb_neq in Ei. done.
      - simpl. intros j resp Hj Hle. apply (Hhi j resp Hj). lia. }
  destruct (Request.callback (Response.request response)) as [cb|]; [|done].
  simpl in *.
  match type of H with
  | context [runUser ?c ?s0] =>
      destruct (runUser c s0) as [ru su|su|su] eqn:Eu; try done;
      apply runUser_Ok in Eu as [Hp _]
  end.
  apply pollState_flags in Hp as (Hpo & Hse & Hrs). simpl in *.
  assert (∀ sx, mResponses (looper sx) = mResponses l →
            mPolling (looper sx) = mPolling l →
            mSendingMessage (looper sx) = mSendingMessage l →
            invokeCallbacks n (S i) POLL_CALLBACK
              (mkSys (set_mResponses
                        (<[i := clearCallback response]> (mResponses (looper sx)))
                        (looper sx)) (world sx) (trace sx)) = Ok r s' →
            mPolling (looper s') = mPolling l
            ∧ mSendingMessage (looper s') = mSendingMessage l
            ∧ Forall (λ r, Request.callback (Response.request r) = None)
                (mResponses (looper s'))) as Hnext.
  { intros sx Hx1 Hx2 Hx3 Hx. apply IH in Hx.
    - simpl in Hx. by rewrite <- Hx2, <- Hx3.
    - simpl. rewrite length_insert, Hx1. lia.
    - simpl. rewrite Hx1. intros j resp Hj Hlt.
      destruct (decide (j = i)) as [->|Hne].
      + rewrite list_lookup_insert_eq in Hj by (by eapply lookup_lt_Some).
        by injection Hj as <-.
      + rewrite list_lookup_insert_ne in Hj by done.
        apply (Hlo j resp Hj). lia.
    - simpl. rewrite Hx1. intros j resp Hj Hle.
      rewrite list_lookup_insert_ne in Hj by lia.
      apply (Hhi j resp Hj). lia. }
  destruct (ru =? 0).
  - destruct (removeSequenceNumberLocked (Response.seq response) su)
      as [rr sr|sr|sr] eqn:Err; try done; simpl in *.
    apply removeSequenceNumberLocked_Ok in Err as [Hp2 _].
    apply pollState_flags in Hp2 as (Hpo2 & Hse2 & Hrs2).
    apply (Hnext sr); [congruence..|done].
  - by apply (Hnext su).
Qed.

Lemma pollInner_atRest fuel t s r s' :
  requestsOk (looper s) →
  mSendingMessage (looper s) = false →
  pollInner fuel t s = Ok r s' → atRest (looper s').
Proof.
  intros Hok Hsend H.
  apply pollInner_Ok in H as (w1 & r0 & s2 & r1 & s4 & Hw & Hd & Hc).
  match type of Hw with
  | pollWait ?p ?s1 = _ =>
      destruct (pollWait_final p s1) as (tr1 & Ht1 & HP1 & Hok1)
  end.
  destruct (Hok1 r0 s2 Hw) as (_ & x & Hl2). simpl in Hl2.
  match type of Hd with
  | drainMessages _ _ ?s3 = _ =>
      destruct (drainMessages_spec fuel r0 s3) as (tr2 & _ & _ & Hok2)
  end.
  destruct (Hok2 r1 s4 Hd) as (_ & Hrs & _). simpl in Hrs.
  apply drainMessages_flags in Hd as [Hpo Hse]. simpl in Hpo, Hse.
  rewrite Hl2 in Hpo, Hse, Hrs. simpl in Hpo, Hse, Hrs.
  apply invokeCallbacks_rest in Hc as (Hpo' & Hse' & Hcl).
  - split; [by rewrite Hpo', Hpo|]. split; [|done].
    rewrite Hse'. by apply Hse.
  - lia.
  - intros j resp _ Hj. lia.
  - intros j resp Hj _. rewrite Hrs in Hj.
    apply list_elem_of_lookup_2 in Hj.
    by destruct (responsesOf_requestOk _ _ _ _ Hok Hj).
Qed.

Lemma atRest_index k l : atRest l → atRest (set_mResponseIndex k l).
Proof. by destruct l. Qed.

Lemma pollOnce_atRest fuel t s res s' :
  requestsOk (looper s) → atRest (looper s) →
  pollOnce fuel t s = Ok res s' → atRest (looper s').
Proof.
  intros Hok Hrest H. destruct (pending (looper s)) as [|r rest] eqn:Hp.
  - destruct (pollOnce_idle fuel t s res s' Hp H)
      as (fuel' & k & r1 & s2 & k' & Hin & -> & _).
    apply pollInner_atRest in Hin.
    + by apply atRest_index.
    + by destruct (looper s).
    + destruct Hrest as (_ & Hse & _). by destruct (looper s).
  - destruct fuel as [|fuel]; [done|].
    destruct (pollOnce_pending fuel t s r rest Hp) as (k & Hk & _).
    rewrite Hk in H. injection H as <- <-. by apply atRest_index.
Qed.

Lemma newLooper_atRest allow w s :
  newLooper allow w = Ok tt s → atRest (looper s).
Proof.
  intros H. apply newLooper_state in H as (epfd & -> & _).
  by repeat split.
Qed.

(** X15: between two calls the Looper is at rest: it is not marked as
    polling, it is not marked as sending a message, and no response holds a
    callback any more.  This is so for a new Looper, every method user code
    can call keeps it, and [pollOnce] restores it before it returns; so
    [isPolling] answers [false] to a caller on the Looper's own thread. *)
Theorem looper_returns_to_rest :
  (∀ allow w s, newLooper allow w = Ok tt s → atRest (looper s))
  ∧ (∀ c s r s', atRest (looper s) → exec c s = Ok r s' → atRest (looper s'))
  ∧ (∀ fuel t s r s',
       requestsOk (looper s) → mSendingMessage (looper s) = false →
       pollInner fuel t s = Ok r s' → atRest (looper s'))
  ∧ (∀ fuel t s res s',
       requestsOk (looper s) → atRest (looper s) →
       pollOnce fuel t s = Ok res s' → atRest (looper s'))
  ∧ (∀ s, atRest (looper s) → isPolling s = Ok false s).
Proof.
  split; [exact newLooper_atRest|].
  split; [exact exec_atRest|].
  split; [exact pollInner_atRest|].
  split; [exact pollOnce_atRest|].
  intros s (Hp & _). unfold isPolling. by rewrite Hp.
Qed.

End Rest.

Section FatalRules.
Context {PF : Platform} {UC : UserCode} {TM : Timers}.

(** ** What can end the process *)

Lemma nf_ret {A : Type} (a : A) : neverFatal (ret a).
Proof. by intros s s'. Qed.

Lemma nf_bind {A B : Type} (m : M A) (f : A → M B) :
  neverFatal m → (∀ a, neverFatal (f a)) → neverFatal (bind m f).
Proof.
  intros Hm Hf s s'. unfold bind. specialize (Hm s).
  destruct (m s) as [a s1|s1|s1]; [apply Hf | by destruct (Hm s1) | done].
Qed.

Lemma nf_getL : neverFatal getL.
Proof. by intros s s'. Qed.

Lemma nf_modL f : neverFatal (modL f).
Proof. by intros s s'. Qed.

Lemma nf_sys {A : Type} (f : World → A * World) : neverFatal (sys f).
Proof. intros s s'. unfold sys. by destruct (f (world s)). Qed.

Lemma nf_sys_ (f : World → World) : neverFatal (sys_ f).
Proof. by intros s s'. Qed.

Lemma nf_emit e : neverFatal (emit e).
Proof. by intros s s'. Qed.

End FatalRules.

Ltac nf_step :=
  first
    [ apply nf_ret
    | apply nf_getL
    | apply nf_modL
    | apply nf_sys
    | apply nf_sys_
    | apply nf_emit
    | apply nf_bind; [|intros ?]
    | match goal with
      | |- neverFatal (match ?x with _ => _ end) => destruct x eqn:?
      | |- neverFatal (let _ := ?x in _) => cbv zeta
      end ].

Section Healthy.
Context {PF : Platform} {UC : UserCode} {TM : Timers}.

Variable wakeFd : Z.
Hypothesis healthy : kernelHealthy wakeFd.

Lemma wake_nf : neverFatal wake.
Proof.
  intros s s'. unfold wake. destruct s as [l w t]. run.
  destruct healthy as (Hw & _). specialize (Hw (mWakeEventFd l) w).
  destruct (write_u64 (mWakeEventFd l) w) as [[n e] w']. simpl in *.
  destruct (Z.eqb_spec n 8); [done|].
  destruct (Z.eqb_spec e EAGAIN); [done|]. by destruct Hw.
Qed.

Lemma scheduleEpollRebuildLocked_nf : neverFatal scheduleEpollRebuildLocked.
Proof.
  unfold scheduleEpollRebuildLocked. repeat (first [apply wake_nf | nf_step]).
Qed.

Lemma addFd_nf fd ident events cb data :
  neverFatal (addFd fd ident events cb data).
Proof.
  unfold addFd.
  repeat (first [apply scheduleEpollRebuildLocked_nf | nf_step]).
Qed.

Lemma removeSequenceNumberLocked_nf seq :
  neverFatal (removeSequenceNumberLocked seq).
Proof.
  unfold removeSequenceNumberLocked.
  repeat (first [apply scheduleEpollRebuildLocked_nf | nf_step]).
Qed.

Lemma removeFd_nf fd : neverFatal (removeFd fd).
Proof.
  unfold removeFd.
  repeat (first [apply removeSequenceNumberLocked_nf | nf_step]).
Qed.

Lemma sendMessageAtTime_nf t h m : neverFatal (sendMessageAtTime t h m).
Proof. unfold sendMessageAtTime. repeat (first [apply wake_nf | nf_step]). Qed.

Lemma removeMessages_nf h w : neverFatal (removeMessages h w).
Proof. unfold removeMessages. repeat nf_step. Qed.

Lemma repoll_nf fd s s' : tablesAgree (looper s) → repoll fd s ≠ Fatal s'.
Proof.
  intros Hag.
  destruct (mSequenceNumberByFd (looper s) !! fd) as [seq|] eqn:Hfd.
  - destruct (repoll_registered fd seq s Hag Hfd) as (request & _ & H).
    cbv zeta in H. by rewrite H.
  - by rewrite (repoll_unregistered fd s Hfd).
Qed.

Lemma exec_nf c s s' : tablesAgree (looper s) → exec c s ≠ Fatal s'.
Proof.
  intros Hag. destruct c; simpl.
  - apply addFd_nf.
  - apply removeFd_nf.
  - by apply repoll_nf.
  - revert s Hag s'. unfold sendMessage. intros s _.
    revert s. repeat (first [apply sendMessageAtTime_nf | nf_step]).
  - revert s Hag s'. unfold sendMessageDelayed. intros s _.
    revert s. repeat (first [apply sendMessageAtTime_nf | nf_step]).
  - revert s Hag s'. intros s _.
    revert s. repeat (first [apply sendMessageAtTime_nf | nf_step]).
  - revert s Hag s'. intros s _.
    revert s. repeat (first [apply removeMessages_nf | nf_step]).
  - revert s Hag s'. intros s _.
    revert s. repeat (first [apply wake_nf | nf_step]).
Qed.

Lemma bind_Fatal {A B : Type} (m : M A) (f : A → M B) s s' :
  bind m f s = Fatal s' →
  m s = Fatal s' ∨ ∃ a s1, m s = Ok a s1 ∧ f a s1 = Fatal s'.
Proof.
  unfold bind. destruct (m s) as [a s1|s1|s1]; [eauto|intros [= <-]; auto|done].
Qed.

Lemma withinBudget_tablesOk C s tr s' :
  withinBudget C s → trace s' = trace s ++ tr →
  C + allocations (trace s') < UINT64_MOD → tablesOk (looper s).
Proof.
  intros Hb Ht Hlt. rewrite Ht, allocations_app in Hlt.
  pose proof (allocations_nonneg tr). destruct Hb as [Hok _]; [lia|done].
Qed.

Lemma step_budget C c s r1 s1 :
  withinBudget C s → exec c s = Ok r1 s1 →
  withinBudget C (mkSys (looper s1) (world s1) (trace s1 ++ [EvCall c r1])).
Proof.
  intros Hb Hx.
  apply (runProg_budget C (Do c (λ _, Done 0)) s 0); [done|].
  simpl. unfold bind. rewrite Hx. done.
Qed.

Lemma runProg_no_fatal C p : ∀ s s',
  withinBudget C s → runProg p s = Fatal s' →
  C + allocations (trace s') < UINT64_MOD → False.
Proof.
  induction p as [r0|c k IH]; intros s s' Hb H Hlt; simpl in H; [done|].
  apply bind_Fatal in H as [H|(r1 & s1 & Hx & H)].
  - destruct (triple_final _ _ _ _ s (exec_framed (pollState (looper s)) c)
                eq_refl) as (tr & Ht & _).
    rewrite H in Ht. simpl in Ht.
    destruct (withinBudget_tablesOk C s tr s' Hb Ht Hlt) as [Hag _].
    by apply (exec_nf c s s').
  - apply bind_Fatal in H as [H|([] & s2 & He & H)]; [done|].
    injection He as <-. eapply IH; [|exact H|done].
    by apply (step_budget C c s r1 s1).
Qed.

Lemma runUser_no_fatal C code s s' :
  withinBudget C s → runUser code s = Fatal s' →
  C + allocations (trace s') < UINT64_MOD → False.
Proof.
  intros Hb H Hlt. unfold runUser, bind, sys in H.
  destruct (code (world s)) as [p w].
  eapply (runProg_no_fatal C p); [|exact H|exact Hlt].
  eapply withinBudget_same; [..|exact Hb]; done.
Qed.

Lemma drainMessages_no_fatal C fuel : ∀ result s s',
  withinBudget C s → drainMessages fuel result s = Fatal s' →
  C + allocations (trace s') < UINT64_MOD → False.
Proof.
  induction fuel as [|fuel IH]; intros result s s' Hb H Hlt; simpl in H; [done|].
  destruct s as [l w t]. run.
  destruct (mMessageEnvelopes l) as [|e rest] eqn:Eq; simpl in *; [done|].
  destruct (systemTime w) as [now w1]. simpl in *.
  destruct (MessageEnvelope.uptime e <=? now); simpl in *; [|done].
  match type of H with
  | context [runUser ?c ?s0] =>
      assert (withinBudget C s0) as Hb0;
      [|destruct (runUser c s0) as [ru su|su|su] eqn:Eu; [| |done]]
  end.
  - eapply withinBudget_same; [..|exact Hb]; try done. simpl.
    rewrite allocations_app. simpl. unfold allocations at 2. simpl. lia.
  - apply (runUser_budget C) in Eu; [|done].
    eapply IH; [|exact H|done].
    eapply withinBudget_same; [..|exact Eu]; done.
  - injection H as <-.
    eapply (runUser_no_fatal C); [exact Hb0|exact Eu|exact Hlt].
Qed.

Lemma invokeCallbacks_no_fatal C n : ∀ i result s s',
  withinBudget C s →
  (∀ j resp, mResponses (looper s) !! j = Some resp → (i ≤ j)%nat →
             Request.ident (Response.request resp) = POLL_CALLBACK →
             is_Some (Request.callback (Response.request resp))) →
  invokeCallbacks n i result s = Fatal s' →
  C + allocations (trace s') < UINT64_MOD → False.
Proof.
  induction n as [|n IH]; intros i result s s' Hb Hcb H Hlt; simpl in H; [done|].
  destruct s as [l w t]. run.
  destruct (mResponses l !! i) as [response|] eqn:Er; simpl in *; [|done].
  destruct (Request.ident (Response.request response) =? POLL_CALLBACK) eqn:Ei.
  2:{ eapply (IH (S i)); [exact Hb| |exact H|done].
      simpl. intros j resp Hj Hle. apply (Hcb j resp Hj). lia. }
  apply Z.eqb_eq in Ei.
  destruct (Hcb i response Er (le_n _) Ei) as [cb Ecb]. rewrite Ecb in H.
  simpl in *.
  match type of H with
  | context [runUser ?c ?s0] =>
      assert (withinBudget C s0) as Hb0;
      [|destruct (runUser c s0) as [ru su|su|su] eqn:Eu; [| |done]]
  end.
  - eapply withinBudget_same; [..|exact Hb]; try done. simpl.
    rewrite allocations_app. simpl. unfold allocations at 2. simpl. lia.
  - pose proof (runUser_Ok _ _ _ _ Eu) as [Hp _].
    apply pollState_flags in Hp as (_ & _ & Hrs). simpl in Hrs.
    apply (runUser_budget C) in Eu; [|done]. simpl in *.
    assert (∀ sx, withinBudget C sx → mResponses (looper sx) = mResponses l →
              invokeCallbacks n (S i) POLL_CALLBACK
                (mkSys (set_mResponses
                          (<[i := clearCallback response]> (mResponses (looper sx)))
                          (looper sx)) (world sx) (trace sx)) = Fatal s' →
              False) as Hnext.
    { intros sx Hbx Hx1 Hx. eapply (IH (S i)); [| |exact Hx|done].
      - eapply withinBudget_same; [..|exact Hbx]; done.
      - simpl. rewrite Hx1. intros j resp Hj Hle.
        rewrite list_lookup_insert_ne in Hj by lia.
        apply (Hcb j resp Hj). lia. }
    destruct (ru =? 0).
    + destruct (removeSequenceNumberLocked (Response.seq response) su)
        as [rr sr|sr|sr] eqn:Err; simpl in *; [| |done].
      * pose proof (removeSequenceNumberLocked_Ok _ _ _ _ Err) as [Hp2 _].
        apply pollState_flags in Hp2 as (_ & _ & Hrs2).
        apply (removeSequenceNumberLocked_budget C) in Err; [|done].
        apply (Hnext sr); [done|congruence|done].
      * by apply removeSequenceNumberLocked_nf in Err.
    + by apply (Hnext su).
  - injection H as <-.
    eapply (runUser_no_fatal C); [exact Hb0|exact Eu|exact Hlt].
Qed.

Lemma pollWait_nf t s s' :
  mWakeEventFd (looper s) = wakeFd → pollWait t s ≠ Fatal s'.
Proof.
  intros Hfd. unfold pollWait. destruct s as [l w tr]. run.
  destruct (epoll_wait (mEpollFd l) t w) as [waited w1]. simpl.
  destruct (mEpollRebuildRequired l) eqn:Hflag; simpl.
  - match goal with
    | |- context [rebuildEpollLocked ?s0] =>
        pose proof (rebuildEpollLocked_run s0) as Hr
    end.
    cbv zeta in Hr. simpl in Hr.
    destruct healthy as (_ & Hc & Ha).
    match type of Hr with
    | if (?a <? 0) || negb (?b =? 0) then _ else _ =>
        assert ((a <? 0) || negb (b =? 0) = false) as E
    end.
    { apply orb_false_intro.
      - apply Z.ltb_ge, Hc.
      - rewrite Hfd, Ha. done. }
    rewrite E in Hr. destruct Hr as (w' & ->). done.
  - destruct waited as [e|items]; [by destruct (e =? EINTR)|].
    destruct (eventCount items =? 0); [done|].
    match goal with
    | |- context [handleItems ?its ?s0] =>
        destruct (handleItems_trace its s0) as [w' Hw']
    end.
    by rewrite Hw'.
Qed.

Lemma pollInner_no_fatal C fuel t s s' :
  withinBudget C s → requestsOk (looper s) →
  mWakeEventFd (looper s) = wakeFd →
  pollInner fuel t s = Fatal s' →
  C + allocations (trace s') < UINT64_MOD → False.
Proof.
  intros Hb Hok Hfd H Hlt. unfold pollInner in H.
  destruct (adjustTimeout_Ok t s) as [w1 Ha].
  rewrite (bind_Ok_intro _ _ _ _ _ Ha) in H.
  apply bind_Fatal in H as [H|(r0 & s2 & Hw & H)];
    [by apply pollWait_nf in H|].
  match type of Hw with
  | pollWait ?p ?s1 = _ =>
      destruct (pollWait_final p s1) as (tr1 & Ht1 & HP1 & Hok1)
  end.
  rewrite Hw in Ht1. simpl in Ht1, Hok1.
  destruct (Hok1 r0 s2 Hw) as (_ & x & Hl2).
  apply bind_Fatal in H as [H|([] & s3 & Hm & H)]; [done|].
  injection Hm as <-.
  assert (withinBudget C
            (mkSys (set_mNextMessageUptime LLONG_MAX (looper s2)) (world s2)
               (trace s2))) as Hb3.
  { eapply withinBudget_same; [..|exact Hb]; simpl; try (by rewrite Hl2).
    rewrite Ht1, allocations_app.
    change (EvEpollWait ?a ?b :: tr1) with ([EvEpollWait a b] ++ tr1).
    rewrite allocations_app, (allocations_kernel tr1 HP1).
    unfold allocations at 2. simpl. lia. }
  apply bind_Fatal in H as [H|(r1 & s4 & Hd & H)];
    [eapply (drainMessages_no_fatal C); [exact Hb3|exact H|exact Hlt]|].
  apply bind_Fatal in H as [H|(l4 & s5 & Hg & H)]; [done|].
  injection Hg as <- <-.
  match type of Hd with
  | drainMessages _ _ ?s3 = _ =>
      destruct (drainMessages_spec fuel r0 s3) as (tr2 & _ & _ & Hok2)
  end.
  destruct (Hok2 r1 s4 Hd) as (_ & Hrs & _). simpl in Hrs.
  rewrite Hl2 in Hrs. simpl in Hrs.
  apply (drainMessages_budget C) in Hd; [|done].
  eapply (invokeCallbacks_no_fatal C); [exact Hd| |exact H|done].
  intros j resp Hj _ Hi. rewrite Hrs in Hj.
  apply list_elem_of_lookup_2 in Hj.
  destruct (responsesOf_requestOk _ _ _ _ Hok Hj) as [Hrq _].
  unfold requestOk in Hrq.
  destruct (Request.callback (Response.request resp)); [eauto|].
  rewrite Hi in Hrq. unfold POLL_CALLBACK in Hrq. lia.
Qed.

Lemma pollOnce_no_fatal C fuel t s s' :
  withinBudget C s → requestsOk (looper s) →
  mWakeEventFd (looper s) = wakeFd →
  pollOnce fuel t s = Fatal s' →
  C + allocations (trace s') < UINT64_MOD → False.
Proof.
  intros Hb Hok Hfd H Hlt. unfold pollOnce in H.
  destruct fuel as [|fuel]; [done|]. simpl in H.
  unfold bind at 1 in H. unfold getL at 1 in H.
  destruct (replayResponses_spec _ s eq_refl) as (k & Hk & _).
  rewrite (bind_Ok_intro _ _ _ _ _ Hk) in H.
  destruct (head (pending (looper s))); simpl in H; [done|].
  set (s1 := mkSys (set_mResponseIndex k (looper s)) (world s) (trace s)) in *.
  apply bind_Fatal in H as [H|(r1 & s2 & Hin & H)].
  - eapply (pollInner_no_fatal C fuel t s1); [| | |exact H|exact Hlt].
    + eapply withinBudget_same; [..|exact Hb]; done.
    + by destruct (looper s).
    + by destruct (looper s).
  - destruct (pollInner_spec fuel t s1) as (waited & tr & _ & _ & Hok1).
    destruct (Hok1 r1 s2 Hin) as (Hr1 & _).
    destruct fuel as [|fuel]; [done|]. simpl in H.
    unfold bind at 1 in H. unfold getL at 1 in H.
    destruct (replayResponses_spec _ s2 eq_refl) as (k' & Hk' & _).
    rewrite (bind_Ok_intro _ _ _ _ _ Hk') in H.
    destruct (head (pending (looper s2))); simpl in H; [done|].
    assert (r1 ≠ 0) as Hnz.
    { rewrite Hr1. destruct (existsb isDispatch tr); [done|].
      apply classify_nonzero. }
    apply Z.eqb_neq in Hnz. by rewrite Hnz in H.
Qed.

End Healthy.

Section NeverAborts.
Context {PF : Platform} {UC : UserCode} {TM : Timers}.


End NeverAborts.

Section Runs.

Local Existing Instance testPlatform.
Local Existing Instance testTimers.
Local Existing Instance testUser.

(** ** Runs on the scripted environment *)

Lemma newState_tablesOk waits : tablesOk (looper (newState waits)).
Proof.
  apply (newLooper_tablesOk (PF := testPlatform) true (testWorld waits)).
  by vm_compute.
Qed.

Lemma callbackState_tablesOk waits : tablesOk (looper (callbackState waits)).
Proof.
  eapply (addFd_tablesOk 5 0 EVENT_INPUT (Some 0%nat) 0 (newState waits) 1).
  - apply newState_tablesOk.
  - by vm_compute.
  - by vm_compute.
Qed.

(** The response of descriptor [6] is pending and the next call returns it;
    two calls after an inner poll return both responses in kernel order;
    and the two calls that follow an inner poll with two ready descriptors
    return the two responses and leave nothing pending. *)
Lemma pollOnce_replays_responses_witness :
  (∃ k,
     pollOnce 1 0 pendingState
     = Ok (mkPollResult 8 6 EVENT_OUTPUT 0)
         (mkSys (set_mResponseIndex k (looper pendingState))
            (world pendingState) (trace pendingState))
     ∧ pending (set_mResponseIndex k (looper pendingState)) = [])
  ∧ (∃ k,
       pollOnceMany [(1%nat, 0); (1%nat, -1)] polledState
       = Ok [mkPollResult 7 5 EVENT_INPUT 0; mkPollResult 8 6 EVENT_OUTPUT 0]
           (mkSys (set_mResponseIndex k (looper polledState))
              (world polledState) (trace polledState))
       ∧ pending (set_mResponseIndex k (looper polledState)) = [])
  ∧ (∃ k,
       pollOnceMany [(4%nat, -1); (4%nat, -1)]
         (identState [WaitEvents readyItems])
       = Ok [mkPollResult 7 5 EVENT_INPUT 0; mkPollResult 8 6 EVENT_OUTPUT 0]
           (mkSys (set_mResponseIndex k (looper polledState))
              (world polledState) (trace polledState))
       ∧ pending (set_mResponseIndex k (looper polledState)) = []).
Proof.
  destruct pollOnce_replays_responses as (H1 & H2 & _ & _ & _ & _ & H7).
  split; [|split].
  - apply (H1 0%nat 0 pendingState
             (Response.mk 3 EVENT_OUTPUT (Request.mk 6 8 EVENT_OUTPUT None 0))
             []).
    vm_compute; reflexivity.
  - apply (H2 [(1%nat, 0); (1%nat, -1)] polledState).
    + repeat constructor; simpl; lia.
    + vm_compute; lia.
  - apply (H7 2%nat (-1) (identState [WaitEvents readyItems]) POLL_WAKE
             polledState
             (Response.mk 2 EVENT_INPUT (Request.mk 5 7 EVENT_INPUT None 0))
             [Response.mk 3 EVENT_OUTPUT (Request.mk 6 8 EVENT_OUTPUT None 0)]).
    + vm_compute; reflexivity.
    + vm_compute; reflexivity.
    + vm_compute; reflexivity.
Defined.


(** An envelope that goes behind the head is stored without a wake. *)
Lemma sendMessageAtTime_wakes_witness :
  sendMessageAtTime 6000000 2%nat (mkMessage 1) enqueuedState
  = Ok tt
      (mkSys
         (set_mMessageEnvelopes
            (insertAt (MessageEnvelope.mk 6000000 2%nat (mkMessage 1)) 1
               (mMessageEnvelopes (looper enqueuedState)))
            (looper enqueuedState))
         (world enqueuedState) (trace enqueuedState)).
Proof.
  destruct (sendMessageAtTime_wakes 6000000 2%nat (mkMessage 1) enqueuedState)
    as (_ & _ & H & _).
  apply H. vm_compute; reflexivity.
Defined.

(** A negative identifier without a callback, a callback, and an accepted
    registration without one. *)
Lemma addFd_argument_check_witness :
  addFd 5 (-1) EVENT_INPUT None 0 (newState []) = Ok (-1) (newState [])
  ∧ (mSequenceNumberByFd (looper (callbackState [])) !! 5 = Some 2
     ∧ mRequests (looper (callbackState [])) !! 2
       = Some (Request.mk 5 POLL_CALLBACK EVENT_INPUT (Some 0%nat) 0))
  ∧ ∃ s', addFd 6 8 EVENT_OUTPUT None 0 (newState []) = Ok 1 s'.
Proof.
  destruct addFd_argument_check as (H1 & _ & H3 & _ & H5).
  split; [|split].
  - apply H1. right. lia.
  - apply (H3 5 0 EVENT_INPUT 0%nat 0 (newState []) (callbackState [])).
    + vm_compute; reflexivity.
    + vm_compute; reflexivity.
  - apply H5.
    + intros _. split; [vm_compute; reflexivity | lia].
    + vm_compute. discriminate.
Defined.

(** An inner poll that runs a handler, a failed wait, and an identifier
    returned by [pollOnce]. *)
Lemma pollInner_result_codes_witness :
  (∃ passed waited tr,
     trace (final (pollInner 3 (-1) staleState))
     = trace staleState ++ EvEpollWait passed waited :: tr
     ∧ POLL_CALLBACK
       = (if existsb isDispatch tr then POLL_CALLBACK
          else classify (mEpollRebuildRequired (looper staleState)) waited))
  ∧ classify false (WaitError EBADF) = POLL_ERROR
  ∧ ∃ response,
      response ∈ mResponses (looper (final (pollOnce 1 0 pendingState)))
      ∧ 8 = Request.ident (Response.request response)
      ∧ mkPollResult 8 6 EVENT_OUTPUT 0 = deliver response.
Proof.
  destruct pollInner_result_codes as (H1 & _ & _ & H4 & _ & _ & _ & H8).
  split; [|split].
  - apply (H1 3%nat (-1) staleState POLL_CALLBACK). vm_compute; reflexivity.
  - apply H4. discriminate.
  - apply (H8 1%nat 0 pendingState (mkPollResult 8 6 EVENT_OUTPUT 0)).
    + vm_compute; reflexivity.
    + simpl; lia.
Defined.

(** A due message makes the first [pollOnce] return [POLL_CALLBACK]; [pollAll]
    goes on and returns [POLL_TIMEOUT], the result of the second call. *)
Lemma pollAll_never_callback_witness :
  pr_result (mkPollResult POLL_TIMEOUT 0 0 0) ≠ POLL_CALLBACK
  ∧ pollAllUntil 4 0 10 dueState
    = Ok (mkPollResult POLL_TIMEOUT 0 0 0)
        (mkSys (looper (final (pollOnce 3 10 dueState)))
           (snd (systemTime (world (final (pollOnce 3 10 dueState)))))
           (trace (final (pollOnce 3 10 dueState))))
  ∧ ∃ fuel,
      pollAll fuel 0 dueState
      = Ok (mkPollResult POLL_TIMEOUT 0 0 0)
          (final (pollOnce 3 0 (final (pollOnce 3 0 dueState)))).
Proof.
  destruct pollAll_never_callback as (H1 & _ & _ & H4 & H5 & _).
  split; [|split].
  - apply (H1 5%nat 0 dueState (mkPollResult POLL_TIMEOUT 0 0 0)
             (final (pollAll 5 0 dueState))).
    vm_compute; reflexivity.
  - apply (H4 3%nat 0 10 dueState (mkPollResult POLL_CALLBACK 0 0 0)
             (final (pollOnce 3 10 dueState))).
    + intros now deadline Hle. apply Z.leb_le in Hle. simpl. by rewrite Hle.
    + vm_compute; reflexivity.
    + reflexivity.
    + vm_compute. discriminate.
  - apply H5; [lia|].
    apply (pollsUntil_more 0 3%nat dueState (mkPollResult POLL_CALLBACK 0 0 0)
             (final (pollOnce 3 0 dueState))).
    + vm_compute; reflexivity.
    + reflexivity.
    + apply (pollsUntil_last 0 3%nat).
      * vm_compute; reflexivity.
      * vm_compute; discriminate.
Defined.

Lemma bounded_clock : clockWithin (PF := boundedPlatform) 0 10.
Proof. intros w. simpl. lia. Qed.

Lemma sendingUser_neverRemoves h m w :
  neverRemoves (fst (@handleMessage boundedPlatform sendingUser h m w)).
Proof.
  destruct h as [|[|[|h]]]; simpl; try constructor.
  - done.
  - intros r. constructor.
Qed.

(** Three envelopes, two with one deadline, sent to a new Looper; and two
    messages of one deadline handed over in the order in which they were
    sent, although the handler of the first sends a third. *)
Lemma message_queue_sorted_stable_witness :
  (sortedQueue (mMessageEnvelopes (looper burstState))
   ∧ ∀ t, atDeadline t (mMessageEnvelopes (looper burstState))
          = atDeadline t [] ++ atDeadline t burst)
  ∧ (∃ s', sendMessagesAtTime burst (newState []) = Ok tt s')
  ∧ ∃ tr,
      trace (final (pollInner (PF := boundedPlatform) (UC := sendingUser)
                      5 (-1) twinState))
      = trace twinState ++ tr
      ∧ [(2%nat, mkMessage 1); (4%nat, mkMessage 2)]
          `sublist_of` dispatchedMessages tr.
Proof.
  split; [|split].
  - destruct message_queue_sorted_stable as (_ & H2 & _).
    apply (H2 burst (newState []) (final (sendMessagesAtTime burst (newState [])))).
    + vm_compute; reflexivity.
    + constructor.
  - destruct message_queue_sorted_stable as (_ & _ & H3 & _).
    apply H3. intros fd w. reflexivity.
  - destruct (message_queue_sorted_stable (PF := boundedPlatform)
                (UC := sendingUser))
      as (_ & _ & _ & _ & _ & _ & _ & _ & _ & H10 & _).
    apply (H10 0 10 bounded_clock sendingUser_neverRemoves twinMessages
             boundedState twinState 5%nat (-1) POLL_CALLBACK
             (final (pollInner (PF := boundedPlatform) (UC := sendingUser)
                       5 (-1) twinState)) 0).
    + constructor.
    + vm_compute; reflexivity.
    + vm_compute; reflexivity.
    + lia.
Defined.

(** The tables of a new Looper, after a registration, after its removal, and
    after a poll whose callback asks to be unregistered. *)
Lemma tables_agree_preserved_witness :
  tablesOk (looper (newState []))
  ∧ tablesOk (looper (callbackState []))
  ∧ tablesOk (looper (final (removeFd 5 (callbackState []))))
  ∧ tablesOk
      (looper (final (pollOnce 3 (-1)
                        (callbackState [WaitEvents [mkEpollEvent EPOLLIN 2]])))).
Proof.
  destruct tables_agree_preserved as (H1 & H2 & H3 & _ & H5 & _).
  assert (tablesOk (looper (newState []))) as Hn.
  { apply (H1 true (testWorld [])). vm_compute; reflexivity. }
  assert (tablesOk (looper (callbackState []))) as Hc.
  { apply (H2 5 0 EVENT_INPUT (Some 0%nat) 0 (newState []) 1); [exact Hn| |].
    - vm_compute; reflexivity.
    - vm_compute; reflexivity. }
  split; [exact Hn|]. split; [exact Hc|]. split.
  - apply (H3 5 (callbackState []) 1); [exact Hc|]. vm_compute; reflexivity.
  - apply (H5 3%nat (-1) (callbackState [WaitEvents [mkEpollEvent EPOLLIN 2]])
             (mkPollResult POLL_CALLBACK 0 0 0)).
    + apply (H2 5 0 EVENT_INPUT (Some 0%nat) 0
               (newState [WaitEvents [mkEpollEvent EPOLLIN 2]]) 1).
      * apply (H1 true (testWorld [WaitEvents [mkEpollEvent EPOLLIN 2]])).
        vm_compute; reflexivity.
      * vm_compute; reflexivity.
      * vm_compute; reflexivity.
    + vm_compute; reflexivity.
    + vm_compute; reflexivity.
Defined.

(** Descriptor [5] registered a second time, and a poll for a sequence number
    that is in no table. *)
Lemma stale_registration_discarded_witness :
  (mRequests (looper (final (addFd 5 0 EVENT_INPUT (Some 2%nat) 0
                               (callbackState []))))
   = <[3 := Request.mk 5 POLL_CALLBACK EVENT_INPUT (Some 2%nat) 0]>
       (delete 2 (mRequests (looper (callbackState []))))
   ∧ mSequenceNumberByFd
       (looper (final (addFd 5 0 EVENT_INPUT (Some 2%nat) 0
                         (callbackState []))))
     = <[5 := 3]> (mSequenceNumberByFd (looper (callbackState [])))
   ∧ 2 ≠ 3
   ∧ mRequests (looper (final (addFd 5 0 EVENT_INPUT (Some 2%nat) 0
                                 (callbackState [])))) !! 2 = None)
  ∧ responseOf (mRequests (looper (callbackState [])))
      (mkEpollEvent EPOLLIN 9) = None
  ∧ ∃ tr, trace (final (pollOnce 3 (-1) staleState)) = trace staleState ++ tr
          ∧ ∀ cb fd ev d, EvHandleEvent 9 cb fd ev d ∉ tr.
Proof.
  destruct stale_registration_discarded as (H1 & H2 & _ & _ & H5).
  split; [|split].
  - apply (H1 5 0 EVENT_INPUT (Some 2%nat) 0 2 (callbackState [])).
    + apply callbackState_tablesOk.
    + vm_compute; reflexivity.
    + vm_compute; reflexivity.
    + vm_compute; reflexivity.
  - apply H2. vm_compute; reflexivity.
  - apply H5. vm_compute; reflexivity.
Defined.

(** A second of timeout against a deadline recorded five milliseconds ahead. *)
Lemma kernel_wait_timeout_witness :
  effectiveTimeout 1000 5000000 0
  = nearestTimeout 1000 (toMillisecondTimeoutDelay 0 5000000)
  ∧ nearestTimeout (-1) 5 = 5
  ∧ nearestTimeout 1000 5 = Z.min 1000 5
  ∧ mNextMessageUptime (looper (final (drainMessages 3 0 enqueuedState)))
    = 5000000.
Proof.
  destruct kernel_wait_timeout as (_ & _ & _ & H4 & H5 & H6 & _).
  split; [|split; [|split]].
  - apply H4; discriminate.
  - apply (H5 (-1) 5); lia.
  - apply (H5 1000 5); lia.
  - apply (H6 3%nat 0 enqueuedState 0 (final (drainMessages 3 0 enqueuedState))).
    + vm_compute; reflexivity.
    + vm_compute; reflexivity.
Defined.

(** ** Where the code departs from the two statements *)

(** Descriptor [5] is registered with callback [0] under sequence number
    [2].  The wait reports it ready, so its response is built; the due
    message then makes handler [1] register the descriptor anew, and the
    callback of the old registration is still invoked from the response. *)
Lemma old_callback_invoked :
  mSequenceNumberByFd (looper staleState) !! 5 = Some 2
  ∧ trace (final (pollOnce 3 (-1) staleState))
    = trace staleState
      ++ [EvEpollWait (-1) (WaitEvents [mkEpollEvent EPOLLIN 2]);
          EvHandleMessage 1 (mkMessage 0);
          EvCall (CAddFd 5 0 EVENT_INPUT (Some 2%nat) 0) 1;
          EvHandleEvent 2 0 5 EVENT_INPUT 0]
  ∧ ¬ oldCallbackSilenced 3 (-1) staleState.
Proof.
  split; [vm_compute; reflexivity|]. split; [vm_compute; reflexivity|].
  intros H.
  apply (H 5 2
           [EvRebuild; EvWake;
            EvEpollWait (-1) (WaitEvents [mkEpollEvent EPOLLIN 2]);
            EvHandleMessage 1 (mkMessage 0)]
           [EvHandleEvent 2 0 5 EVENT_INPUT 0]
           0 EVENT_INPUT (Some 2%nat) 0
           ltac:(vm_compute; reflexivity) ltac:(vm_compute; reflexivity)
           0%nat 5 EVENT_INPUT 0).
  apply list_elem_of_here.
Qed.

(** A message due in five milliseconds was sent since the last poll, so
    the deadline recorded in [mNextMessageUptime] is still [LLONG_MAX]: a
    call with a timeout of a second waits for the whole second. *)
Lemma wait_ignores_new_head :
  mMessageEnvelopes (looper enqueuedState)
  = [MessageEnvelope.mk 5000000 1%nat (mkMessage 0)]
  ∧ mNextMessageUptime (looper enqueuedState) = LLONG_MAX
  ∧ nearestTimeout 1000
      (toMillisecondTimeoutDelay (fst (systemTime (world enqueuedState)))
         5000000) = 5
  ∧ trace (final (pollOnce 3 1000 enqueuedState))
    = trace enqueuedState ++ [EvEpollWait 1000 (WaitEvents [])]
  ∧ ¬ waitFollowsHead 3 1000 enqueuedState.
Proof.
  split; [vm_compute; reflexivity|]. split; [vm_compute; reflexivity|].
  split; [vm_compute; reflexivity|]. split; [vm_compute; reflexivity|].
  intros H.
  specialize (H ltac:(discriminate) _ _ eq_refl 1000 (WaitEvents [])).
  replace (drop (length (trace enqueuedState))
             (trace (final (pollOnce 3 1000 enqueuedState))))
    with [EvEpollWait 1000 (WaitEvents [])] in H
    by (vm_compute; reflexivity).
  specialize (H (list_elem_of_here _ _)).
  vm_compute in H. discriminate.
Qed.

(** Descriptors [5] and [6] are both ready at the first wait.  The inner
    poll of the first call ends with [POLL_WAKE]; the first two calls return
    the identifiers [7] and [8], and the third call does not return
    [POLL_WAKE]: it polls anew and returns [POLL_TIMEOUT]. *)
Lemma code_not_returned :
  pending (looper (identState [WaitEvents readyItems])) = []
  ∧ pollInner 2 (-1) (identState [WaitEvents readyItems])
    = Ok POLL_WAKE polledState
  ∧ length (pending (looper polledState)) = 2%nat
  ∧ (∃ s',
       pollOnceMany (replicate 3 (4%nat, -1))
         (identState [WaitEvents readyItems])
       = Ok [mkPollResult 7 5 EVENT_INPUT 0; mkPollResult 8 6 EVENT_OUTPUT 0;
             mkPollResult POLL_TIMEOUT 0 0 0] s')
  ∧ ¬ codeAfterResponses 2 (-1) (identState [WaitEvents readyItems]).
Proof.
  split; [vm_compute; reflexivity|]. split; [vm_compute; reflexivity|].
  split; [vm_compute; reflexivity|].
  split; [eexists; vm_compute; reflexivity|].
  intros H.
  specialize (H eq_refl POLL_WAKE polledState
                [mkPollResult 7 5 EVENT_INPUT 0; mkPollResult 8 6 EVENT_OUTPUT 0;
                 mkPollResult POLL_TIMEOUT 0 0 0]
                (final (pollOnceMany (replicate 3 (4%nat, -1))
                          (identState [WaitEvents readyItems])))).
  assert (pollInner 2 (-1) (identState [WaitEvents readyItems])
          = Ok POLL_WAKE polledState) as Hin by (vm_compute; reflexivity).
  specialize (H Hin).
  assert (pollOnceMany
            (replicate (S (length (pending (looper polledState)))) (4%nat, -1))
            (identState [WaitEvents readyItems])
          = Ok [mkPollResult 7 5 EVENT_INPUT 0; mkPollResult 8 6 EVENT_OUTPUT 0;
                mkPollResult POLL_TIMEOUT 0 0 0]
              (final (pollOnceMany (replicate 3 (4%nat, -1))
                        (identState [WaitEvents readyItems])))) as Hm
    by (vm_compute; reflexivity).
  specialize (H Hm). clear Hin Hm. vm_compute in H. discriminate H.
Qed.


End Runs.

Section MoreRuns.

Local Existing Instance testPlatform.
Local Existing Instance testTimers.
Local Existing Instance testUser.

(** ** More runs on the scripted environment *)

(** The only message in the queue is for handler [1] and is removed. *)
Lemma removeMessages_filters_witness :
  removeMessages 1 None enqueuedState
  = Ok tt (mkSys (set_mMessageEnvelopes [] (looper enqueuedState))
             (world enqueuedState) (trace enqueuedState))
  ∧ sortedQueue
      (List.filter (λ e, negb (removalMatches 1 None e))
         (mMessageEnvelopes (looper enqueuedState))).
Proof.
  destruct (removeMessages_filters 1%nat None enqueuedState)
    as (H1 & _ & _ & H4).
  split; [exact H1|]. apply H4. vm_compute. repeat constructor.
Defined.

Lemma quietUser_quiet h m w :
  queueQuiet (fst (@handleMessage testPlatform quietUser h m w)).
Proof. constructor. Qed.



(** The rebuild of a new Looper's epoll set. *)
Lemma rebuild_tolerates_request_errors_witness :
  ∃ w, rebuildEpollLocked (newState [])
       = Ok tt (mkSys (set_mEpollFd 4 (looper (newState []))) w
                  (trace (newState []) ++ [EvRebuild])).
Proof.
  destruct (rebuild_tolerates_request_errors (newState [])) as [_ H].
  apply H; vm_compute; [discriminate|reflexivity].
Defined.


(** The kernel refuses to add descriptor [5]: [addFd] returns [-1] and the
    sequence number [2] is spent. *)
Lemma addFd_kernel_refusals_witness :
  let s := final (newLooper true
                    (mkTestWorld 0 0 [] [(0, 0); (-1, EPERM)])) in
  addFd 5 7 EVENT_INPUT None 0 s
  = Ok (-1)
      (mkSys (set_mNextRequestSeq 3 (looper s))
         (mkTestWorld 0 0 [] []) (trace s)).
Proof.
  intros s.
  destruct (addFd_kernel_refusals 5 7 EVENT_INPUT None 0 s) as [H _].
  - intros _. split; [reflexivity|lia].
  - apply H; vm_compute; reflexivity.
Defined.

(** [repoll] on a descriptor that is not registered, and on one that is. *)
Lemma repoll_behaviour_witness :
  repoll 9 (newState []) = Ok 0 (newState [])
  ∧ looper (final (repoll 5 (identState []))) = looper (identState [])
  ∧ trace (final (repoll 5 (identState []))) = trace (identState []).
Proof.
  destruct repoll_behaviour as (H1 & H2 & _).
  split.
  - apply H1. vm_compute; reflexivity.
  - destruct (H2 5 (identState []) 1 (final (repoll 5 (identState []))))
      as (A & B & _); [vm_compute; reflexivity|].
    split; assumption.
Defined.

(** What [addFd] stored for descriptor [5] is read back. *)
Lemma getFdStateDebug_reads_registration_witness :
  getFdStateDebug 5 (final (addFd 5 7 EVENT_INPUT None 0 (newState [])))
  = Ok (Some (mkFdState 7 EVENT_INPUT None 0))
      (final (addFd 5 7 EVENT_INPUT None 0 (newState []))).
Proof.
  destruct getFdStateDebug_reads_registration as (_ & H & _).
  apply (H 5 7 EVENT_INPUT None 0 (newState [])).
  - apply newState_tablesOk.
  - vm_compute; reflexivity.
  - vm_compute; reflexivity.
Defined.

(** After a refused delete a rebuild is pending: scheduling another one
    does nothing. *)
Lemma rebuild_is_scheduled_once_witness :
  scheduleEpollRebuildLocked (final (removeFd 5 refusedState))
  = Ok tt (final (removeFd 5 refusedState)).
Proof.
  destruct rebuild_is_scheduled_once as (H & _).
  apply H. vm_compute; reflexivity.
Defined.

(** Two ready descriptors, none of them the wake descriptor. *)
Lemma wake_items_call_awoken_witness :
  ∃ s',
    pollWait (-1) (identState [WaitEvents readyItems]) = Ok POLL_WAKE s'
    ∧ trace s'
      = trace (identState [WaitEvents readyItems])
        ++ EvEpollWait (-1) (WaitEvents readyItems) :: awokenFor readyItems
    ∧ mResponses (looper s')
      = omap (responseOf
                (mRequests (looper (identState [WaitEvents readyItems]))))
          readyItems.
Proof.
  destruct wake_items_call_awoken as (_ & H & _).
  apply (H (-1) (identState [WaitEvents readyItems])
           (mkEpollEvent EPOLLIN 2) [mkEpollEvent EPOLLOUT 3]).
  - vm_compute; reflexivity.
  - vm_compute; reflexivity.
Defined.

(** A delay of five nanoseconds on a clock that reads [0]. *)
Lemma sendMessage_reads_clock_witness :
  MessageEnvelope.mk (fst (systemTime (world (newState []))) + 5) 1%nat
    (mkMessage 0)
  ∈ mMessageEnvelopes
      (looper (final (sendMessageDelayed 5 1 (mkMessage 0) (newState [])))).
Proof.
  destruct sendMessage_reads_clock as (_ & _ & _ & H).
  apply (H 5 1%nat (mkMessage 0) (newState [])).
  vm_compute. split; [discriminate|reflexivity].
Defined.

(** The requests of a new Looper, and after a registration. *)
Lemma requests_stay_well_formed_witness :
  requestsOk (looper (newState []))
  ∧ requestsOk (looper (final (exec (CAddFd 5 7 EVENT_INPUT None 0)
                                 (newState [])))).
Proof.
  destruct requests_stay_well_formed as (H1 & H2 & _).
  assert (requestsOk (looper (newState []))) as Hn.
  { apply (H1 true (testWorld [])). vm_compute; reflexivity. }
  split; [exact Hn|].
  apply (H2 (CAddFd 5 7 EVENT_INPUT None 0) (newState []) 1); [exact Hn|].
  vm_compute; reflexivity.
Defined.

(** A new Looper is at rest, and so it is after a poll that ran a
    callback. *)
Lemma looper_returns_to_rest_witness :
  atRest (looper (newState []))
  ∧ isPolling (newState []) = Ok false (newState []).
Proof.
  destruct looper_returns_to_rest as (H1 & _ & _ & _ & H5).
  assert (atRest (looper (newState []))) as Hn.
  { apply (H1 true (testWorld [])). vm_compute; reflexivity. }
  split; [exact Hn|]. apply H5. exact Hn.
Defined.

End MoreRuns.

Section BoundedRuns.

Local Existing Instance boundedPlatform.
Local Existing Instance testTimers.
Local Existing Instance idleUser.

(** ** Runs with a bounded clock and a kernel that accepts every call *)

Lemma idleUser_quiet h m w :
  queueQuiet (fst (@handleMessage boundedPlatform idleUser h m w)).
Proof. constructor. Qed.

Lemma boundedPlatform_healthy : kernelHealthy (PF := boundedPlatform) 3.
Proof. split; [|split]; intros; simpl; auto; lia. Qed.



End BoundedRuns.
